(** * Handwritten-note OCR service: the reply post-processing pipeline

    A shallow embedding of [src/index.ts]: the REST handler of
    [POST /api/process-note], the shared function [processHandwrittenNote]
    and the MCP tool [process_handwritten_note], together with the parts of
    the JavaScript runtime they call (strings of UTF-16 code units,
    [JSON.parse], [atob]/[btoa], truthiness, property access).

    Collaborators outside the file (the Gemini client, the R2 bucket, the
    clock, the HTTP framework) are represented by the values they hand back,
    collected in the record [World] and in the request itself. *)

From Stdlib Require Import String Ascii.
From Stdlib Require Strings.Byte.
From Stdlib Require Import List NArith ZArith QArith Bool Lia Lqa.
Import ListNotations.
Close Scope Q_scope.

Set Implicit Arguments.

(* ===================================================================== *)
(** ** JavaScript strings *)
(* ===================================================================== *)

(** A JavaScript string is a sequence of UTF-16 code units. *)
Definition jsstring := list N.

(** An ASCII literal of the source, as code units. *)
Definition lit (s : string) : jsstring :=
  map N_of_ascii (list_ascii_of_string s).

(** A literal in which each apostrophe stands for a double quote, to write
    JSON text. *)
Definition dq (s : string) : jsstring :=
  map (fun c => if (c =? 39)%N then 34%N else c) (lit s).

Module CodeUnit.
Definition LF : N := 10.
Definition SPACE : N := 32.
Definition QUOTE : N := 34.
Definition PLUS : N := 43.
Definition COMMA : N := 44.
Definition MINUS : N := 45.
Definition DOT : N := 46.
Definition SLASH : N := 47.
Definition COLON : N := 58.
Definition SEMICOLON : N := 59.
Definition EQUALS : N := 61.
Definition LBRACKET : N := 91.
Definition BACKSLASH : N := 92.
Definition RBRACKET : N := 93.
Definition LBRACE : N := 123.
Definition RBRACE : N := 125.
(** U+2610 BALLOT BOX, the unchecked marker of the source. *)
Definition BALLOT_BOX : N := 9744.
(** U+2611 BALLOT BOX WITH CHECK, the checked marker. *)
Definition BALLOT_BOX_CHECKED : N := 9745.
End CodeUnit.
Import CodeUnit.

(** [a === b] on strings. *)
Fixpoint str_eqb (a b : jsstring) : bool :=
  match a, b with
  | [], [] => true
  | x :: a', y :: b' => (x =? y)%N && str_eqb a' b'
  | _, _ => false
  end.

(** [s.startsWith(p)]. *)
Fixpoint startsWith (s p : jsstring) {struct p} : bool :=
  match p, s with
  | [], _ => true
  | y :: p', x :: s' => (x =? y)%N && startsWith s' p'
  | _ :: _, [] => false
  end.

(** [s.includes(p)]. *)
Fixpoint includes (s p : jsstring) : bool :=
  startsWith s p ||
  match s with
  | [] => false
  | _ :: s' => includes s' p
  end.

(** [s.split(sep)] for a one-unit separator: never empty, [""] for [""]. *)
Fixpoint split (sep : N) (s : jsstring) : list jsstring :=
  match s with
  | [] => [[]]
  | c :: r =>
      if (c =? sep)%N then [] :: split sep r
      else match split sep r with
           | l :: ls => (c :: l) :: ls
           | [] => [[c]]
           end
  end.

(** [parts.join(sep)] for a one-unit separator. *)
Fixpoint join (sep : N) (parts : list jsstring) : jsstring :=
  match parts with
  | [] => []
  | [l] => l
  | l :: ls => l ++ sep :: join sep ls
  end.

(** WhiteSpace and LineTerminator of ECMAScript, what [trim] strips. *)
Definition isWhiteSpace (c : N) : bool :=
  ((9 <=? c) && (c <=? 13) || (c =? 32) || (c =? 160) || (c =? 5760)
   || (8192 <=? c) && (c <=? 8202) || (c =? 8232) || (c =? 8233)
   || (c =? 8239) || (c =? 8287) || (c =? 12288) || (c =? 65279))%N.

Fixpoint trimStart (s : jsstring) : jsstring :=
  match s with
  | [] => []
  | c :: r => if isWhiteSpace c then trimStart r else s
  end.

Fixpoint trimEnd (s : jsstring) : jsstring :=
  match s with
  | [] => []
  | c :: r =>
      match trimEnd r with
      | [] => if isWhiteSpace c then [] else [c]
      | r' => c :: r'
      end
  end.

(** [s.trim()]. *)
Definition trim (s : jsstring) : jsstring := trimEnd (trimStart s).

(** Lower-case form of one code unit.  The table holds every code unit
    whose lower-case form contains an ASCII letter (A-Z, U+0130 and the
    Kelvin sign U+212A) and the Latin-1 capitals; a code unit outside the
    table is copied.  The engine differs from that only on cased letters
    beyond Latin-1, whose lower-case forms hold no ASCII letter, so the
    comparison of a lowered string with an ASCII literal is decided here as
    the engine decides it. *)
Definition lowerUnit (c : N) : jsstring :=
  (if (65 <=? c) && (c <=? 90) then [c + 32]
   else if (192 <=? c) && (c <=? 222) && negb (c =? 215) then [c + 32]
   else if c =? 304 then [105; 775]
   else if c =? 8490 then [107]
   else if c =? 8491 then [229]
   else [c])%N.

(** [s.toLowerCase()]. *)
Definition toLowerCase (s : jsstring) : jsstring := flat_map lowerUnit s.

(* ===================================================================== *)
(** ** JavaScript values and exceptions *)
(* ===================================================================== *)

(** The values the handler meets: what [JSON.parse] builds, and
    [undefined].  A number carries the exact value its literal denotes (the
    engine keeps the nearest double; [Math.min] and [Math.max] only compare
    and select, so clamping commutes with that rounding).  An object lists
    its properties in source order; a repeated key is read at its last
    binding, as [JSON.parse] overwrites. *)
#[warnings="-register-all"]
Inductive value : Type :=
| VUndefined
| VNull
| VBool (b : bool)
| VNum (q : Q)
| VStr (s : jsstring)
| VArr (elems : list value)
| VObj (props : list (jsstring * value)).

(** Faults the engine itself raises; the text of their messages is the
    engine's. *)
Inductive fault : Type :=
| NotAFunction       (* TypeError: calling a method the value does not have *)
| PropertyOfNullish  (* TypeError: reading a property of null or undefined *)
| JsonSyntax         (* SyntaxError of JSON.parse *)
| InvalidCharacter.  (* DOMException of atob *)

(** The [message] of an [Error], kept symbolic where the engine words it. *)
Inductive message : Type :=
| Text (s : jsstring)
| EngineText (f : fault)
| Append (m1 m2 : message).

(** What a [throw] carries: an [Error] (every engine fault is one) or some
    other value. *)
Inductive exn : Type :=
| Error (m : message)
| NonError.

Definition Fault (f : fault) : exn := Error (EngineText f).

Fixpoint render (engine : fault -> jsstring) (m : message) : jsstring :=
  match m with
  | Text s => s
  | EngineText f => engine f
  | Append m1 m2 => render engine m1 ++ render engine m2
  end.

(** Computations that may throw. *)
Definition outcome (A : Type) : Type := (exn + A)%type.

Definition bindR {A B} (m : outcome A) (f : A -> outcome B) : outcome B :=
  match m with
  | inl e => inl e
  | inr a => f a
  end.

Declare Scope js_scope.
Delimit Scope js_scope with js.
Notation "x <- m ;; k" := (bindR m (fun x => k))
  (at level 61, m at next level, right associativity) : js_scope.
Open Scope js_scope.

(** ToBoolean, on the values above (no NaN among them). *)
Definition truthy (v : value) : bool :=
  match v with
  | VUndefined | VNull => false
  | VBool b => b
  | VNum q => negb (Qeq_bool q 0)
  | VStr s => match s with [] => false | _ => true end
  | VArr _ | VObj _ => true
  end.

(** [a || b]. *)
Definition orElse (a b : value) : value := if truthy a then a else b.

(** The own property [key] of an object, at its last binding. *)
Fixpoint ownProperty (key : jsstring) (props : list (jsstring * value))
  : option value :=
  match props with
  | [] => None
  | (k, v) :: rest =>
      match ownProperty key rest with
      | Some v' => Some v'
      | None => if str_eqb k key then Some v else None
      end
  end.

Definition numOfNat (n : nat) : value := VNum (inject_Z (Z.of_nat n)).

(** [v.key] for the property names the source reads ([title], [content],
    [category], [tags], [dates], [contacts], [confidence], [raw_text],
    [image], [options], [extract_dates], [extract_contacts],
    [category_hints], [length]): none of them but [length] lives on a
    prototype. *)
Definition getProp (v : value) (key : jsstring) : outcome value :=
  match v with
  | VUndefined | VNull => inl (Fault PropertyOfNullish)
  | VObj props =>
      inr (match ownProperty key props with Some x => x | None => VUndefined end)
  | VArr elems =>
      inr (if str_eqb key (lit "length") then numOfNat (length elems)
           else VUndefined)
  | VStr s =>
      inr (if str_eqb key (lit "length") then numOfNat (length s)
           else VUndefined)
  | VBool _ | VNum _ => inr VUndefined
  end.

(** [Array.isArray(v)]. *)
Definition isArray (v : value) : bool :=
  match v with VArr _ => true | _ => false end.

(** [typeof v === 'number']. *)
Definition isNumber (v : value) : bool :=
  match v with VNum _ => true | _ => false end.

(** [typeof v === 'string']. *)
Definition isString (v : value) : bool :=
  match v with VStr _ => true | _ => false end.

(** [Math.min(a, b)] and [Math.max(a, b)]. *)
Definition Math_min (a b : Q) : Q := if Qle_bool a b then a else b.
Definition Math_max (a b : Q) : Q := if Qle_bool b a then a else b.

(* ===================================================================== *)
(** ** [JSON.parse] *)
(* ===================================================================== *)

Inductive parsed (A : Type) : Type :=
| Parsed (a : A) (rest : jsstring)
| SyntaxErr
| OutOfFuel.
Arguments SyntaxErr {A}.
Arguments OutOfFuel {A}.

Definition isJsonSpace (c : N) : bool :=
  ((c =? 32) || (c =? 9) || (c =? 10) || (c =? 13))%N.

Fixpoint skipSpace (s : jsstring) : jsstring :=
  match s with
  | [] => []
  | c :: r => if isJsonSpace c then skipSpace r else s
  end.

Definition isDigit (c : N) : bool := ((48 <=? c) && (c <=? 57))%N.

Definition hexValue (c : N) : option N :=
  (if (48 <=? c) && (c <=? 57) then Some (c - 48)
   else if (65 <=? c) && (c <=? 70) then Some (c - 55)
   else if (97 <=? c) && (c <=? 102) then Some (c - 87)
   else None)%N.

Definition hex4 (a b c d : N) : option N :=
  match hexValue a, hexValue b, hexValue c, hexValue d with
  | Some x, Some y, Some z, Some w => Some (((x * 16 + y) * 16 + z) * 16 + w)%N
  | _, _, _, _ => None
  end.

(** The code unit of a one-letter escape. *)
Definition escapeUnit (c : N) : option N :=
  (if c =? 34 then Some 34        (* quote *)
   else if c =? 92 then Some 92   (* backslash *)
   else if c =? 47 then Some 47   (* slash *)
   else if c =? 98 then Some 8    (* b *)
   else if c =? 102 then Some 12  (* f *)
   else if c =? 110 then Some 10  (* n *)
   else if c =? 114 then Some 13  (* r *)
   else if c =? 116 then Some 9   (* t *)
   else None)%N.

(** The characters of a string literal after its opening quote, up to and
    with the closing quote. *)
Fixpoint parseChars (s : jsstring) : option (jsstring * jsstring) :=
  match s with
  | [] => None
  | c :: r =>
      if (c =? QUOTE)%N then Some ([], r)
      else if (c =? BACKSLASH)%N then
        match r with
        | [] => None
        | e :: r1 =>
            if (e =? 117)%N then
              match r1 with
              | h1 :: h2 :: h3 :: h4 :: r2 =>
                  match hex4 h1 h2 h3 h4, parseChars r2 with
                  | Some u, Some (str, rest) => Some (u :: str, rest)
                  | _, _ => None
                  end
              | _ => None
              end
            else
              match escapeUnit e, parseChars r1 with
              | Some u, Some (str, rest) => Some (u :: str, rest)
              | _, _ => None
              end
        end
      else if (c <? 32)%N then None
      else
        match parseChars r with
        | Some (str, rest) => Some (c :: str, rest)
        | None => None
        end
  end.

(** The longest run of decimal digits at the head of [s], as digit values. *)
Fixpoint takeDigits (s : jsstring) : list N * jsstring :=
  match s with
  | [] => ([], [])
  | c :: r =>
      if isDigit c then
        let (ds, rest) := takeDigits r in ((c - 48)%N :: ds, rest)
      else ([], s)
  end.

Definition digitsValue (ds : list N) : N :=
  fold_left (fun a d => (10 * a + d)%N) ds 0%N.

(** [m * 10 ^ e]. *)
Definition scaleTen (m : Z) (e : Z) : Q :=
  if (0 <=? e)%Z then inject_Z (m * 10 ^ e)
  else Qmake m (Z.to_pos (10 ^ (- e))).

(** Integer part: a lone [0], or a run of digits that does not start
    with [0]. *)
Definition parseInt (s : jsstring) : option (list N * jsstring) :=
  match s with
  | [] => None
  | c :: r =>
      if (c =? 48)%N then Some ([0%N], r)
      else match takeDigits s with
           | ([], _) => None
           | (ds, rest) => Some (ds, rest)
           end
  end.

(** Optional fraction: a dot and at least one digit. *)
Definition parseFrac (s : jsstring) : option (list N * jsstring) :=
  match s with
  | c :: r =>
      if (c =? DOT)%N then
        match takeDigits r with
        | ([], _) => None
        | (ds, rest) => Some (ds, rest)
        end
      else Some ([], s)
  | [] => Some ([], s)
  end.

(** Optional exponent: [e] or [E], an optional sign, at least one digit. *)
Definition parseExp (s : jsstring) : option (Z * jsstring) :=
  match s with
  | c :: r =>
      if ((c =? 101) || (c =? 69))%N then
        let '(neg, r1) :=
          match r with
          | d :: r' =>
              if (d =? MINUS)%N then (true, r')
              else if (d =? PLUS)%N then (false, r')
              else (false, r)
          | [] => (false, r)
          end in
        match takeDigits r1 with
        | ([], _) => None
        | (ds, rest) =>
            let e := Z.of_N (digitsValue ds) in
            Some (if neg then (- e)%Z else e, rest)
        end
      else Some (0%Z, s)
  | [] => Some (0%Z, s)
  end.

Definition parseNumber (s : jsstring) : option (Q * jsstring) :=
  let '(neg, s1) :=
    match s with
    | c :: r => if (c =? MINUS)%N then (true, r) else (false, s)
    | [] => (false, s)
    end in
  match parseInt s1 with
  | None => None
  | Some (ids, s2) =>
      match parseFrac s2 with
      | None => None
      | Some (fds, s3) =>
          match parseExp s3 with
          | None => None
          | Some (e, s4) =>
              let m := Z.of_N (digitsValue (ids ++ fds)) in
              let m := if neg then (- m)%Z else m in
              Some (scaleTen m (e - Z.of_nat (length fds)), s4)
          end
      end
  end.

(** A keyword [true], [false] or [null] at the head of [s]. *)
Definition parseKeyword (s : jsstring) : option (value * jsstring) :=
  if startsWith s (lit "true") then Some (VBool true, skipn 4 s)
  else if startsWith s (lit "false") then Some (VBool false, skipn 5 s)
  else if startsWith s (lit "null") then Some (VNull, skipn 4 s)
  else None.

Definition ofOption {A} (o : option (A * jsstring)) : parsed A :=
  match o with
  | Some (a, rest) => Parsed a rest
  | None => SyntaxErr
  end.

(** The JSON grammar by recursive descent; [fuel] bounds the depth of the
    calls and [parseValue_fuel] below shows the amount [JSON_parse] gives is
    never used up.  (The engine's own limit on nesting is not modelled.) *)
Fixpoint parseValue (fuel : nat) (s : jsstring) {struct fuel} : parsed value :=
  match fuel with
  | O => OutOfFuel
  | S fuel' =>
      match skipSpace s with
      | [] => SyntaxErr
      | c :: r =>
          if (c =? LBRACE)%N then
            match skipSpace r with
            | [] => SyntaxErr
            | c' :: r' =>
                if (c' =? RBRACE)%N then Parsed (VObj []) r'
                else match parseMembers fuel' (c' :: r') with
                     | Parsed ms rest => Parsed (VObj ms) rest
                     | SyntaxErr => SyntaxErr
                     | OutOfFuel => OutOfFuel
                     end
            end
          else if (c =? LBRACKET)%N then
            match skipSpace r with
            | [] => SyntaxErr
            | c' :: r' =>
                if (c' =? RBRACKET)%N then Parsed (VArr []) r'
                else match parseElements fuel' (c' :: r') with
                     | Parsed vs rest => Parsed (VArr vs) rest
                     | SyntaxErr => SyntaxErr
                     | OutOfFuel => OutOfFuel
                     end
            end
          else if (c =? QUOTE)%N then
            match parseChars r with
            | Some (str, rest) => Parsed (VStr str) rest
            | None => SyntaxErr
            end
          else if (c =? MINUS)%N || isDigit c then
            match parseNumber (c :: r) with
            | Some (q, rest) => Parsed (VNum q) rest
            | None => SyntaxErr
            end
          else ofOption (parseKeyword (c :: r))
      end
  end

with parseElements (fuel : nat) (s : jsstring) {struct fuel}
  : parsed (list value) :=
  match fuel with
  | O => OutOfFuel
  | S fuel' =>
      match parseValue fuel' s with
      | Parsed v rest =>
          match skipSpace rest with
          | [] => SyntaxErr
          | c :: r =>
              if (c =? COMMA)%N then
                match parseElements fuel' r with
                | Parsed vs rest' => Parsed (v :: vs) rest'
                | SyntaxErr => SyntaxErr
                | OutOfFuel => OutOfFuel
                end
              else if (c =? RBRACKET)%N then Parsed [v] r
              else SyntaxErr
          end
      | SyntaxErr => SyntaxErr
      | OutOfFuel => OutOfFuel
      end
  end

with parseMembers (fuel : nat) (s : jsstring) {struct fuel}
  : parsed (list (jsstring * value)) :=
  match fuel with
  | O => OutOfFuel
  | S fuel' =>
      match skipSpace s with
      | [] => SyntaxErr
      | q :: r0 =>
          if (q =? QUOTE)%N then
            match parseChars r0 with
            | None => SyntaxErr
            | Some (key, r1) =>
                match skipSpace r1 with
                | [] => SyntaxErr
                | c :: r2 =>
                    if (c =? COLON)%N then
                      match parseValue fuel' r2 with
                      | Parsed v rest =>
                          match skipSpace rest with
                          | [] => SyntaxErr
                          | d :: r3 =>
                              if (d =? COMMA)%N then
                                match parseMembers fuel' r3 with
                                | Parsed ms rest' => Parsed ((key, v) :: ms) rest'
                                | SyntaxErr => SyntaxErr
                                | OutOfFuel => OutOfFuel
                                end
                              else if (d =? RBRACE)%N then Parsed [(key, v)] r3
                              else SyntaxErr
                          end
                      | SyntaxErr => SyntaxErr
                      | OutOfFuel => OutOfFuel
                      end
                    else SyntaxErr
                end
            end
          else SyntaxErr
      end
  end.

Definition parseFuel (text : jsstring) : nat := 2 * length text + 2.

(** [JSON.parse(text)]: one value, then nothing but white space. *)
Definition JSON_parse (text : jsstring) : outcome value :=
  match parseValue (parseFuel text) text with
  | Parsed v rest =>
      match skipSpace rest with
      | [] => inr v
      | _ :: _ => inl (Fault JsonSyntax)
      end
  | _ => inl (Fault JsonSyntax)
  end.

(* ===================================================================== *)
(** ** [atob] and [btoa] *)
(* ===================================================================== *)

(** The value of a character of the base64 alphabet. *)
Definition base64Value (c : N) : option N :=
  (if (65 <=? c) && (c <=? 90) then Some (c - 65)
   else if (97 <=? c) && (c <=? 122) then Some (c - 71)
   else if (48 <=? c) && (c <=? 57) then Some (c + 4)
   else if c =? PLUS then Some 62
   else if c =? SLASH then Some 63
   else None)%N.

Definition base64Char (v : N) : N :=
  (if v <? 26 then v + 65
   else if v <? 52 then v + 71
   else if v <? 62 then v - 4
   else if v =? 62 then PLUS
   else SLASH)%N.

(** ASCII white space, which the forgiving decoder drops. *)
Definition isAsciiSpace (c : N) : bool :=
  ((c =? 9) || (c =? 10) || (c =? 12) || (c =? 13) || (c =? 32))%N.

(** [s] without the one or two [=] it ends with, if it ends with any. *)
Fixpoint dropPad (s : jsstring) : jsstring :=
  match s with
  | [] => []
  | [a] => if (a =? EQUALS)%N then [] else s
  | [a; b] =>
      if (b =? EQUALS)%N then (if (a =? EQUALS)%N then [] else [a]) else s
  | c :: r => c :: dropPad r
  end.

(** The padding is dropped from a text whose length is a multiple of
    four. *)
Definition stripPadding (s : jsstring) : jsstring :=
  if (length s mod 4 =? 0)%nat then dropPad s else s.

(** The bytes of a run of 6-bit values, four at a time; a tail of two or
    three values gives one or two bytes, a tail of one is refused before
    this is called. *)
Fixpoint decodeSextets (vs : list N) : list N :=
  match vs with
  | a :: b :: c :: d :: rest =>
      let n := (((a * 64 + b) * 64 + c) * 64 + d)%N in
      (n / 65536)%N :: ((n / 256) mod 256)%N :: (n mod 256)%N
        :: decodeSextets rest
  | [a; b; c] =>
      let n := ((a * 64 + b) * 64 + c)%N in
      (n / 1024)%N :: ((n / 4) mod 256)%N :: []
  | [a; b] => ((a * 64 + b) / 16)%N :: []
  | _ => []
  end.

Fixpoint sextets (s : jsstring) : option (list N) :=
  match s with
  | [] => Some []
  | c :: r =>
      match base64Value c, sextets r with
      | Some v, Some vs => Some (v :: vs)
      | _, _ => None
      end
  end.

(** [atob(data)], the forgiving base64 decoder: the binary string, one code
    unit per byte. *)
Definition atob (data : jsstring) : outcome jsstring :=
  let s := stripPadding (filter (fun c => negb (isAsciiSpace c)) data) in
  if (length s mod 4 =? 1)%nat then inl (Fault InvalidCharacter)
  else match sextets s with
       | Some vs => inr (decodeSextets vs)
       | None => inl (Fault InvalidCharacter)
       end.

Fixpoint encodeBytes (bytes : list N) : jsstring :=
  match bytes with
  | a :: b :: c :: rest =>
      let n := ((a * 256 + b) * 256 + c)%N in
      base64Char (n / 262144) :: base64Char ((n / 4096) mod 64)
        :: base64Char ((n / 64) mod 64) :: base64Char (n mod 64)
        :: encodeBytes rest
  | [a; b] =>
      let n := ((a * 256 + b) * 4)%N in
      [base64Char (n / 4096); base64Char ((n / 64) mod 64);
       base64Char (n mod 64); EQUALS]
  | [a] =>
      let n := (a * 16)%N in
      [base64Char (n / 64); base64Char (n mod 64); EQUALS; EQUALS]
  | [] => []
  end.

(** [btoa(binaryString)]: refuses a code unit above 255. *)
Definition btoa (binaryString : jsstring) : outcome jsstring :=
  if forallb (fun c => (c <=? 255)%N) binaryString
  then inr (encodeBytes binaryString)
  else inl (Fault InvalidCharacter).

(** An argument that may be [undefined], as the string a built-in reads. *)
Definition argString (a : option jsstring) : jsstring :=
  match a with
  | Some s => s
  | None => lit "undefined"
  end.

(* ===================================================================== *)
(** ** The reply of the model: extraction, sanitization, formatting *)
(* ===================================================================== *)

(** [[\s\S]*\}] of the pattern: the star takes as many code units as it
    can and gives them back one at a time until a closing brace follows. *)
Fixpoint starThenClose (s : jsstring) : option jsstring :=
  match s with
  | [] => None
  | c :: r =>
      match starThenClose r with
      | Some m => Some (c :: m)
      | None => if (c =? RBRACE)%N then Some [c] else None
      end
  end.

(** [responseText.match(/\{[\s\S]*\}/)]: the match at the leftmost start,
    [jsonMatch[0]], or [None] for [null]. *)
Fixpoint matchJson (s : jsstring) : option jsstring :=
  match s with
  | [] => None
  | c :: r =>
      match (if (c =? LBRACE)%N then starThenClose r else None) with
      | Some m => Some (c :: m)
      | None => matchJson r
      end
  end.

(** Lines 256-273 of [processHandwrittenNote]: [response.text] (absent
    when [undefined]) to [extractedData]. *)
Definition parseResponse (responseText : option jsstring) : outcome value :=
  match responseText with
  | None | Some [] =>
      inl (Error (Text (lit "Empty response from AI service")))
  | Some text =>
      let attempt :=
        match matchJson text with
        | None => inl (Error (Text (lit "No JSON found in response")))
        | Some jsonMatch => JSON_parse jsonMatch
        end in
      match attempt with
      | inr extractedData => inr extractedData
      | inl (Error m) =>
          inl (Error (Append (Text (lit "Failed to parse AI response: ")) m))
      | inl NonError =>
          inl (Error (Text
            (lit "Failed to parse AI response: Unknown parsing error")))
      end
  end.

(** The object literal [result] of the source; a field holds whatever value
    the expression of the source yields. *)
Record NoteData : Type := {
  title : value;
  content : value;
  category : value;
  tags : value;
  dates : value;
  contacts : value;
  confidence : value;
  raw_text : value
}.

Definition arrayOrEmpty (v : value) : value :=
  if isArray v then v else VArr [].

Definition clampConfidence (v : value) : value :=
  match v with
  | VNum q => VNum (Math_max 0 (Math_min 1 q))
  | _ => VNum 0.8
  end.

(** Lines 276-286: the field-by-field coercion. *)
Definition sanitize (extractedData : value) : outcome NoteData :=
  title_ <- getProp extractedData (lit "title") ;;
  content_ <- getProp extractedData (lit "content") ;;
  category_ <- getProp extractedData (lit "category") ;;
  tags_ <- getProp extractedData (lit "tags") ;;
  dates_ <- getProp extractedData (lit "dates") ;;
  contacts_ <- getProp extractedData (lit "contacts") ;;
  confidence_ <- getProp extractedData (lit "confidence") ;;
  raw_text_ <- getProp extractedData (lit "raw_text") ;;
  inr {| title := orElse title_ (VStr (lit "Untitled Note"));
         content := orElse content_ (VStr []);
         category := orElse category_ (VStr (lit "note"));
         tags := arrayOrEmpty tags_;
         dates := arrayOrEmpty dates_;
         contacts := arrayOrEmpty contacts_;
         confidence := clampConfidence confidence_;
         raw_text := orElse raw_text_ (orElse content_ (VStr [])) |}.

(** Calling a string method on [v]: the string itself, or the TypeError of
    a value without the method. *)
Definition stringReceiver (v : value) : outcome jsstring :=
  match v with
  | VStr s => inr s
  | VUndefined | VNull => inl (Fault PropertyOfNullish)
  | _ => inl (Fault NotAFunction)
  end.

(** The test of line 289 on a string category. *)
Definition isTodo (category : jsstring) : bool :=
  str_eqb (toLowerCase category) (lit "todo")
  || str_eqb (toLowerCase category) (lit "task").

(** The callback of [map] at lines 291-297. *)
Definition markLine (line : jsstring) : jsstring :=
  let trimmedLine := trim line in
  if match trimmedLine with [] => false | _ => true end
     && negb (startsWith trimmedLine [BALLOT_BOX])
     && negb (startsWith trimmedLine [BALLOT_BOX_CHECKED])
  then BALLOT_BOX :: SPACE :: trimmedLine
  else line.

Definition formatContent (content : jsstring) : jsstring :=
  join LF (map markLine (split LF content)).

Definition setContent (r : NoteData) (c : value) : NoteData :=
  {| title := title r; content := c; category := category r;
     tags := tags r; dates := dates r; contacts := contacts r;
     confidence := confidence r; raw_text := raw_text r |}.

(** Lines 289-299: the check-box prefix of todo items. *)
Definition format (result : NoteData) : outcome NoteData :=
  categoryText <- stringReceiver (category result) ;;
  if isTodo categoryText then
    text <- stringReceiver (content result) ;;
    inr (setContent result (VStr (formatContent text)))
  else inr result.

(** Lines 256-286: from the reply of the model to the sanitized record. *)
Definition sanitizeReply (responseText : option jsstring) : outcome NoteData :=
  extractedData <- parseResponse responseText ;;
  sanitize extractedData.

(** Lines 256-301: from the reply of the model to the returned record. *)
Definition processReply (responseText : option jsstring) : outcome NoteData :=
  result <- sanitizeReply responseText ;;
  format result.

(* ===================================================================== *)
(** ** Collaborators and their traces *)
(* ===================================================================== *)

(** The instruction sent to the model, by what it depends on (lines
    205-235); its wording is not modelled. *)
Record Prompt : Type := {
  categoryHints : option value;  (* the hints joined into the text, if any *)
  extractDates : bool;
  extractContacts : bool
}.

(** What a run does, in order: an object put into the bucket, the entry
    into [processHandwrittenNote] (a mark, to tell whether the pipeline was
    reached and with what), the request sent to the model. *)
Inductive Event : Type :=
| R2Put (key : jsstring) (body : jsstring) (contentType : option jsstring)
| PipelineCall (imageData : jsstring) (options : value)
| GenerateContent (prompt : Prompt) (mimeType data : option jsstring).

(** What the collaborators answer during one request. *)
Record World : Type := {
  GOOGLE_GEMINI_API_KEY : option jsstring;  (* the binding, if set *)
  startTime : Z;                            (* Date.now() at entry *)
  endTime : Z;                  (* Date.now() when the response is built *)
  randomUUID : jsstring;                    (* crypto.randomUUID() *)
  r2Put : option exn;           (* R2.put: stored, or rejected with this *)
  generateContent : outcome (option jsstring);
                                (* the call rejects, or response.text *)
  engineMessage : fault -> jsstring         (* the engine's error texts *)
}.

(** A computation that may throw and leaves a trace. *)
Definition eff (A : Type) : Type := (list Event * outcome A)%type.

Definition pureE {A} (a : A) : eff A := ([], inr a).
Definition liftE {A} (o : outcome A) : eff A := ([], o).
Definition throwE {A} (e : exn) : eff A := ([], inl e).
Definition emit (ev : Event) : eff unit := ([ev], inr tt).

Definition bindE {A B} (m : eff A) (f : A -> eff B) : eff B :=
  match m with
  | (log, inl e) => (log, inl e)
  | (log, inr a) => let (log', r) := f a in (log ++ log', r)
  end.

Declare Scope eff_scope.
Delimit Scope eff_scope with eff.
Notation "x <- m ;; k" := (bindE m (fun x => k))
  (at level 61, m at next level, right associativity) : eff_scope.
Notation "m ;; k" := (bindE m (fun _ => k))
  (at level 61, right associativity) : eff_scope.

(** A falsy string binding: [undefined] or [""]. *)
Definition nonEmpty (o : option jsstring) : option jsstring :=
  match o with
  | Some (c :: s) => Some (c :: s)
  | _ => None
  end.

(** [options.category_hints?.length ? ...join(', ') : ...] of line 207. *)
Definition hintsOf (hints : value) : outcome (option value) :=
  len <- match hints with
         | VUndefined | VNull => inr VUndefined
         | _ => getProp hints (lit "length")
         end ;;
  if truthy len then
    match hints with
    | VArr _ => inr (Some hints)
    | _ => inl (Fault NotAFunction)
    end
  else inr None.

(** [imageData.split(';')[0].split(':')[1]]. *)
Definition mimeTypeOf (imageData : jsstring) : option jsstring :=
  nth_error (split COLON (hd [] (split SEMICOLON imageData))) 1.

(** [imageData.split(',')[1]]. *)
Definition payloadOf (imageData : jsstring) : option jsstring :=
  nth_error (split COMMA imageData) 1.

(** [processHandwrittenNote(imageData, options, apiKey)], lines 198-302.
    The client object and the wording of the prompt are not modelled; a
    prompt is kept by the three things it is built from. *)
Definition processHandwrittenNote (w : World) (imageData : jsstring)
  (options : value) : eff NoteData :=
  (emit (PipelineCall imageData options) ;;
   dates_ <- liftE (getProp options (lit "extract_dates")) ;;
   contacts_ <- liftE (getProp options (lit "extract_contacts")) ;;
   hints_ <- liftE (getProp options (lit "category_hints")) ;;
   hints <- liftE (hintsOf hints_) ;;
   let prompt :=
     {| categoryHints := hints;
        extractDates := match dates_ with VBool false => false | _ => true end;
        extractContacts := match contacts_ with VBool true => true | _ => false end
     |} in
   emit (GenerateContent prompt (mimeTypeOf imageData) (payloadOf imageData)) ;;
   responseText <- liftE (generateContent w) ;;
   liftE (processReply responseText))%eff.

(* ===================================================================== *)
(** ** [POST /api/process-note] *)
(* ===================================================================== *)

(** A [File] of the form data: the size and type the transport declares,
    and the bytes of [arrayBuffer()].  The runtime keeps [size] equal to the
    number of bytes; the handler reads the two separately and so does the
    model, which lets a size be stated without spelling the bytes out. *)
Record File : Type := {
  size : N;
  type : jsstring;
  bytes : list Byte.byte
}.

(** What [formData.get(name)] yields. *)
Inductive FormEntry : Type :=
| NoEntry
| TextEntry (s : jsstring)
| FileEntry (f : File).

Record Form : Type := {
  formImage : FormEntry;    (* formData.get("image") *)
  formOptions : FormEntry   (* formData.get("options") *)
}.

(** A request, by what the framework reads from it. *)
Record Request : Type := {
  contentType : option jsstring;  (* the content-type header *)
  formData : outcome Form;        (* await c.req.formData() *)
  json : outcome value            (* await c.req.json() *)
}.

Inductive Body : Type :=
| ErrorBody (error : jsstring) (details : option jsstring)
    (processing_time_ms : option Z)
| SuccessBody (data : NoteData) (processing_time_ms : Z).

Record Response : Type := {
  status : N;
  body : Body
}.

(** [c.json({ error: msg }, 400)]. *)
Definition badRequest (msg : string) : Response :=
  {| status := 400; body := ErrorBody (lit msg) None None |}.

(** The bound of line 82, [10 * 1024 * 1024]. *)
Definition MAX_SIZE : N := 10 * 1024 * 1024.

(** The binary string of lines 93-97, one code unit per byte. *)
Definition binaryString (bs : list Byte.byte) : jsstring := map Byte.to_N bs.

(** Lines 64-107: the multipart branch, to a response sent at once or to
    [imageData] and [options]. *)
Definition fromMultipart (req : Request) : outcome (Response + value * value) :=
  form <- formData req ;;
  match formImage form with
  | NoEntry | TextEntry [] => inr (inl (badRequest "No image file provided"))
  | TextEntry _ => inr (inl (badRequest "Invalid file format"))
  | FileEntry file =>
      if (MAX_SIZE <? size file)%N then
        inr (inl (badRequest "Image file too large. Maximum size is 10MB"))
      else if negb (startsWith (type file) (lit "image/")) then
        inr (inl (badRequest "Invalid file type. Only image files are allowed"))
      else
        base64 <- btoa (binaryString (bytes file)) ;;
        let imageData :=
          lit "data:" ++ type file ++ lit ";base64," ++ base64 in
        match formOptions form with
        | TextEntry (c :: optionsStr) =>
            match JSON_parse (c :: optionsStr) with
            | inr options => inr (inr (VStr imageData, options))
            | inl _ => inr (inl (badRequest "Invalid options JSON"))
            end
        | _ => inr (inr (VStr imageData, VObj []))
        end
  end.

(** Lines 108-118: the JSON branch. *)
Definition fromJson (req : Request) : outcome (Response + value * value) :=
  body_ <- json req ;;
  image <- getProp body_ (lit "image") ;;
  if negb (truthy image) then inr (inl (badRequest "No image data provided"))
  else
    options <- getProp body_ (lit "options") ;;
    inr (inr (image, orElse options (VObj []))).

(** Lines 120-153: temporary storage, the pipeline, the success response. *)
Definition storeAndProcess (w : World) (imageData options : value)
  : eff Response :=
  (data <- liftE (stringReceiver imageData) ;;
   imageBuffer <- liftE (atob (argString (payloadOf data))) ;;
   emit (R2Put (lit "temp/" ++ randomUUID w) imageBuffer (mimeTypeOf data)) ;;
   match r2Put w with Some e => throwE e | None => pureE tt end ;;
   result <- processHandwrittenNote w data options ;;
   pureE {| status := 200;
            body := SuccessBody result (endTime w - startTime w) |})%eff.

(** [contentType?.includes("multipart/form-data")] of line 64. *)
Definition isMultipart (req : Request) : bool :=
  match contentType req with
  | Some ct => includes ct (lit "multipart/form-data")
  | None => false
  end.

(** The [try] block, lines 55-153. *)
Definition tryBlock (w : World) (req : Request) : eff Response :=
  match nonEmpty (GOOGLE_GEMINI_API_KEY w) with
  | None =>
      pureE {| status := 500;
               body := ErrorBody (lit "Google Gemini API key not configured")
                         None None |}
  | Some _ =>
      (normalized <- liftE (if isMultipart req then fromMultipart req
                            else fromJson req) ;;
       match normalized with
       | inl response => pureE response
       | inr (imageData, options) => storeAndProcess w imageData options
       end)%eff
  end.

(** The [catch] block, lines 155-170. *)
Definition catchBlock (w : World) (error : exn) : Response :=
  let processingTime := (endTime w - startTime w)%Z in
  match error with
  | Error m =>
      let text := render (engineMessage w) m in
      if includes text (lit "quota") then
        {| status := 429;
           body := ErrorBody (lit "API quota exceeded. Please try again later.")
                     None (Some processingTime) |}
      else
        {| status := 500;
           body := ErrorBody (lit "Failed to process image") (Some text)
                     (Some processingTime) |}
  | NonError =>
      {| status := 500;
         body := ErrorBody (lit "Failed to process image")
                   (Some (lit "Unknown error")) (Some processingTime) |}
  end.

(** The handler of [POST /api/process-note]: its trace and its response. *)
Definition processNote (w : World) (req : Request) : list Event * Response :=
  match tryBlock w req with
  | (log, inr response) => (log, response)
  | (log, inl error) => (log, catchBlock w error)
  end.

(** The elapsed time a response reports, if it reports one. *)
Definition reportedTime (r : Response) : option Z :=
  match body r with
  | ErrorBody _ _ t => t
  | SuccessBody _ t => Some t
  end.

Definition isErrorResponse (r : Response) : bool :=
  match body r with
  | ErrorBody _ _ _ => true
  | SuccessBody _ _ => false
  end.

(* ===================================================================== *)
(** ** The MCP tool [process_handwritten_note] *)
(* ===================================================================== *)

(** The text of a tool result: an error line, or [JSON.stringify(result,
    null, 2)], kept as the record it prints.  A result without the
    [isError] property counts as not flagged. *)
Inductive ToolText : Type :=
| ErrorLine (m : message)
| ResultJson (r : NoteData).

Record ToolResult : Type := {
  toolText : ToolText;
  isError : bool
}.

Definition toolError (m : message) : ToolResult :=
  {| toolText := ErrorLine m; isError := true |}.

(** Lines 321-376, on arguments the schema has validated: a string, an
    optional array of strings, two booleans with their defaults filled. *)
Definition mcpTool (w : World) (image : jsstring)
  (category_hints : option (list jsstring))
  (extract_dates extract_contacts : bool) : list Event * ToolResult :=
  match nonEmpty (GOOGLE_GEMINI_API_KEY w) with
  | None =>
      ([], toolError (Text (lit "Error: Google Gemini API key not configured")))
  | Some _ =>
      if negb (startsWith image (lit "data:image/")) then
        ([], toolError (Text (lit
          "Error: Invalid image format. Please provide a base64 encoded image with data URL format (data:image/jpeg;base64,...)")))
      else
        let options :=
          VObj [(lit "category_hints",
                 match category_hints with
                 | Some hs => VArr (map VStr hs)
                 | None => VUndefined
                 end);
                (lit "extract_dates", VBool extract_dates);
                (lit "extract_contacts", VBool extract_contacts)] in
        match processHandwrittenNote w image options with
        | (log, inr result) =>
            (log, {| toolText := ResultJson result; isError := false |})
        | (log, inl (Error m)) =>
            (log, toolError
               (Append (Text (lit "Error processing handwritten note: ")) m))
        | (log, inl NonError) =>
            (log, toolError
               (Text (lit "Error processing handwritten note: Unknown error")))
        end
  end.

(* ===================================================================== *)
(** ** Temporary storage, its clean-up and [GET /api/images/:imageId] *)
(* ===================================================================== *)

(** An object of the bucket, by what the image endpoint reads from it: the
    body, the two HTTP metadata the handler stores with it (line 126-129)
    and the entity tag the bucket assigns. *)
Record R2Object : Type := {
  objectBody : jsstring;
  httpContentType : option jsstring;
  httpCacheControl : jsstring;
  httpEtag : jsstring
}.

(** The bucket as a key-value store, the newest binding first. *)
Definition Bucket : Type := list (jsstring * R2Object).

(** [R2.get(key)] on a bucket that answers: the object, or [null]. *)
Fixpoint bucketGet (b : Bucket) (key : jsstring) : option R2Object :=
  match b with
  | [] => None
  | (k, o) :: rest => if str_eqb k key then Some o else bucketGet rest key
  end.

(** [R2.put(key, ...)], accepted: the key is bound anew. *)
Definition bucketPut (b : Bucket) (key : jsstring) (o : R2Object) : Bucket :=
  (key, o) :: b.

(** [R2.delete(key)], accepted. *)
Definition bucketDelete (b : Bucket) (key : jsstring) : Bucket :=
  filter (fun entry => negb (str_eqb (fst entry) key)) b.

(** What an accepted put of the handler leaves in the bucket (lines
    125-133); [etagOf] is the tag the bucket computes from a body. *)
Definition storeEvent (etagOf : jsstring -> jsstring) (b : Bucket)
  (e : Event) : Bucket :=
  match e with
  | R2Put key body_ ct =>
      bucketPut b key {| objectBody := body_;
                         httpContentType := ct;
                         httpCacheControl := lit "max-age=3600";
                         httpEtag := etagOf body_ |}
  | _ => b
  end.

(** The bucket after a run of the handler in world [w] with trace [log]:
    the put of the trace is in it when the bucket accepted it. *)
Definition bucketAfter (w : World) (etagOf : jsstring -> jsstring)
  (b : Bucket) (log : list Event) : Bucket :=
  match r2Put w with
  | None => fold_left (storeEvent etagOf) log b
  | Some _ => b
  end.

(** The answers of the image endpoint: the object with its headers, or an
    error body with its status. *)
Inductive ImageResponse : Type :=
| ImageFound (body_ : jsstring) (contentTypeHeader : option jsstring)
    (cacheControlHeader : jsstring) (etagHeader : jsstring)
| ImageError (status_ : N) (error : jsstring) (details : option jsstring).

(** [GET /api/images/:imageId], lines 174-195; [failure] is what [R2.get]
    rejects with, if it does. *)
Definition getImage (engine : fault -> jsstring) (failure : option exn)
  (b : Bucket) (imageId : jsstring) : ImageResponse :=
  match failure with
  | Some (Error m) =>
      ImageError 500 (lit "Failed to retrieve image") (Some (render engine m))
  | Some NonError =>
      ImageError 500 (lit "Failed to retrieve image")
        (Some (lit "Unknown error"))
  | None =>
      match bucketGet b (lit "temp/" ++ imageId) with
      | None => ImageError 404 (lit "Image not found or expired") None
      | Some object =>
          ImageFound (objectBody object) (httpContentType object)
            (httpCacheControl object) (httpEtag object)
      end
  end.

(** What a run of the REST handler does, with the timer it sets: an event
    of the trace, or [setTimeout] of the deferred [R2.delete(key)]. *)
Inductive Effect : Type :=
| Did (e : Event)
| SetTimeout (delay : Z) (key : jsstring).

(** The events among the effects. *)
Fixpoint erase (fx : list Effect) : list Event :=
  match fx with
  | [] => []
  | Did e :: rest => e :: erase rest
  | SetTimeout _ _ :: rest => erase rest
  end.

(** Lines 120-153 once more, with the timer of lines 141-147: it is set
    after the pipeline has returned and before the response is built. *)
Definition storeAndProcessEffects (w : World) (imageData options : value)
  : list Effect * outcome Response :=
  match stringReceiver imageData with
  | inl e => ([], inl e)
  | inr data =>
      match atob (argString (payloadOf data)) with
      | inl e => ([], inl e)
      | inr imageBuffer =>
          let key := lit "temp/" ++ randomUUID w in
          let put := Did (R2Put key imageBuffer (mimeTypeOf data)) in
          match r2Put w with
          | Some e => ([put], inl e)
          | None =>
              match processHandwrittenNote w data options with
              | (log, inl e) => (put :: map Did log, inl e)
              | (log, inr result) =>
                  (put :: map Did log ++ [SetTimeout 3600000 key],
                   inr {| status := 200;
                          body := SuccessBody result
                                    (endTime w - startTime w) |})
              end
          end
      end
  end.

(** The handler of [POST /api/process-note] with its timer. *)
Definition processNoteEffects (w : World) (req : Request)
  : list Effect * Response :=
  match nonEmpty (GOOGLE_GEMINI_API_KEY w) with
  | None =>
      ([], {| status := 500;
              body := ErrorBody (lit "Google Gemini API key not configured")
                        None None |})
  | Some _ =>
      match (if isMultipart req then fromMultipart req else fromJson req) with
      | inl e => ([], catchBlock w e)
      | inr (inl response) => ([], response)
      | inr (inr (imageData, options)) =>
          match storeAndProcessEffects w imageData options with
          | (fx, inr response) => (fx, response)
          | (fx, inl e) => (fx, catchBlock w e)
          end
      end
  end.

(** The deferred callback of lines 141-147: the object is deleted, and a
    failure of the delete is logged and dropped. *)
Definition cleanup (deleteFails : bool) (b : Bucket) (key : jsstring)
  : Bucket :=
  if deleteFails then b else bucketDelete b key.

(** The callbacks the timers of a run hold, fired on bucket [b]. *)
Fixpoint fireTimers (b : Bucket) (fx : list Effect) : Bucket :=
  match fx with
  | [] => b
  | SetTimeout _ key :: rest => fireTimers (cleanup false b key) rest
  | Did _ :: rest => fireTimers b rest
  end.

(** A sanitized record read back as a reply object: the property names of
    the object literal of lines 276-286. *)
Definition asObject (r : NoteData) : value :=
  VObj [(lit "title", title r); (lit "content", content r);
        (lit "category", category r); (lit "tags", tags r);
        (lit "dates", dates r); (lit "contacts", contacts r);
        (lit "confidence", confidence r); (lit "raw_text", raw_text r)].

(** The options object the MCP tool builds (lines 349-353). *)
Definition toolOptions (category_hints : option (list jsstring))
  (extract_dates extract_contacts : bool) : value :=
  VObj [(lit "category_hints",
         match category_hints with
         | Some hs => VArr (map VStr hs)
         | None => VUndefined
         end);
        (lit "extract_dates", VBool extract_dates);
        (lit "extract_contacts", VBool extract_contacts)].

(** The instruction the MCP tool builds from its arguments. *)
Definition toolPrompt (category_hints : option (list jsstring))
  (extract_dates extract_contacts : bool) : Prompt :=
  {| categoryHints := match category_hints with
                      | Some (h :: hs) => Some (VArr (map VStr (h :: hs)))
                      | _ => None
                      end;
     extractDates := extract_dates;
     extractContacts := extract_contacts |}.

(* ===================================================================== *)
(** ** The contract of the specification, and notions to state it *)
(* ===================================================================== *)

(** [ExtractedNote] of the data model: every field present and typed.
    Elements of the three sequences are not validated, so they stay
    values. *)
Record ExtractedNote : Type := {
  note_title : jsstring;
  note_content : jsstring;
  note_category : jsstring;
  note_tags : list value;
  note_dates : list value;
  note_contacts : list value;
  note_confidence : Q;
  note_rawText : jsstring
}.

(** A typed note as the record the code passes around. *)
Definition ofNote (n : ExtractedNote) : NoteData :=
  {| title := VStr (note_title n);
     content := VStr (note_content n);
     category := VStr (note_category n);
     tags := VArr (note_tags n);
     dates := VArr (note_dates n);
     contacts := VArr (note_contacts n);
     confidence := VNum (note_confidence n);
     raw_text := VStr (note_rawText n) |}.

Definition withContent (n : ExtractedNote) (c : jsstring) : ExtractedNote :=
  {| note_title := note_title n; note_content := c;
     note_category := note_category n; note_tags := note_tags n;
     note_dates := note_dates n; note_contacts := note_contacts n;
     note_confidence := note_confidence n; note_rawText := note_rawText n |}.

(** The eight fields carry the types of the contract. *)
Definition wellTyped (r : NoteData) : bool :=
  isString (title r) && isString (content r) && isString (category r)
  && isArray (tags r) && isArray (dates r) && isArray (contacts r)
  && isNumber (confidence r) && isString (raw_text r).

(** A line that the formatter leaves alone: blank once trimmed, or
    already carrying a marker. *)
Definition blankOrMarked (line : jsstring) : bool :=
  match trim line with [] => true | _ => false end
  || startsWith (trim line) [BALLOT_BOX]
  || startsWith (trim line) [BALLOT_BOX_CHECKED].

(** The transform as section 4.4 of the specification words it: the marker
    goes before the original, untrimmed line. *)
Definition spec_markLine (line : jsstring) : jsstring :=
  if blankOrMarked line then line else BALLOT_BOX :: SPACE :: line.

Definition spec_format (n : ExtractedNote) : ExtractedNote :=
  if isTodo (note_category n)
  then withContent n (join LF (map spec_markLine (split LF (note_content n))))
  else n.

(** [x] is the letter [y], its capital, or, for [k], the Kelvin sign:
    the code units whose lower-case form is the lower-case ASCII letter
    [y]. *)
Definition lowersTo (x y : N) : bool :=
  ((x =? y) || (x + 32 =? y) || (x =? 8490) && (y =? 107))%N.

(** [c] spells [target] up to the case of its letters. *)
Fixpoint caseVariant (c target : jsstring) : bool :=
  match c, target with
  | [], [] => true
  | x :: c', y :: target' => lowersTo x y && caseVariant c' target'
  | _, _ => false
  end.

(** [s] holds a substring that starts with an opening and ends with a
    closing brace. *)
Definition braced (s : jsstring) : Prop :=
  exists pre mid post, s = pre ++ LBRACE :: mid ++ RBRACE :: post.

(** [m] is the broadest such substring of [s]: from the first opening
    brace to the last closing brace. *)
Definition broadest (s m : jsstring) : Prop :=
  exists pre mid post,
    s = pre ++ m ++ post /\ m = LBRACE :: mid ++ [RBRACE]
    /\ ~ In LBRACE pre /\ ~ In RBRACE post.

(** The failures the specification files under [UpstreamFormatError]: the
    two [Error]s thrown at lines 259 and 272. *)
Definition UpstreamFormatError (e : exn) : Prop :=
  e = Error (Text (lit "Empty response from AI service"))
  \/ exists m, e = Error (Append (Text (lit "Failed to parse AI response: ")) m).

(** The value read at [key] of a parsed object ([undefined] when absent). *)
Definition field (props : list (jsstring * value)) (key : string) : value :=
  match ownProperty (lit key) props with
  | Some v => v
  | None => VUndefined
  end.

(** The 6-bit values of the encoding of [bytes], padding apart. *)
Fixpoint sextetsOf (bytes : list N) : list N :=
  match bytes with
  | a :: b :: c :: rest =>
      let n := ((a * 256 + b) * 256 + c)%N in
      (n / 262144)%N :: ((n / 4096) mod 64)%N :: ((n / 64) mod 64)%N
        :: (n mod 64)%N :: sextetsOf rest
  | [a; b] =>
      let n := ((a * 256 + b) * 4)%N in
      [(n / 4096)%N; ((n / 64) mod 64)%N; (n mod 64)%N]
  | [a] => let n := (a * 16)%N in [(n / 64)%N; (n mod 64)%N]
  | [] => []
  end.

(** The data URL the multipart branch builds for [file] (line 99). *)
Definition dataUrl (file : File) : jsstring :=
  lit "data:" ++ type file ++ lit ";base64,"
    ++ encodeBytes (binaryString (bytes file)).

Definition elapsed (w : World) : Z := (endTime w - startTime w)%Z.


(* ===================================================================== *)
(** ** Concrete inputs *)
(* ===================================================================== *)

(** A todo note whose only line is indented. *)
Definition indentedTodo : ExtractedNote :=
  {| note_title := lit "Shopping";
     note_content := lit "  milk";
     note_category := lit "todo";
     note_tags := []; note_dates := []; note_contacts := [];
     note_confidence := 0.9;
     note_rawText := lit "  milk" |}.

(** A world in which the key is set, the bucket stores and the model
    answers with a todo note. *)
Definition exampleWorld : World :=
  {| GOOGLE_GEMINI_API_KEY := Some (lit "key");
     startTime := 1000;
     endTime := 1250;
     randomUUID := lit "0000";
     r2Put := None;
     generateContent :=
       inr (Some (dq "{'category': 'todo', 'content': 'call Ann'}"));
     engineMessage := fun _ => lit "engine message" |}.

(** A world like [exampleWorld] in which the model call is refused for
    quota. *)
Definition quotaWorld : World :=
  {| GOOGLE_GEMINI_API_KEY := Some (lit "key");
     startTime := 1000;
     endTime := 1250;
     randomUUID := lit "0000";
     r2Put := None;
     generateContent := inl (Error (Text (lit "429: quota exceeded")));
     engineMessage := fun _ => lit "engine message" |}.

(** A world like [exampleWorld] in which the model call fails. *)
Definition failingWorld : World :=
  {| GOOGLE_GEMINI_API_KEY := Some (lit "key");
     startTime := 1000;
     endTime := 1250;
     randomUUID := lit "0000";
     r2Put := None;
     generateContent := inl (Error (Text (lit "model unavailable")));
     engineMessage := fun _ => lit "engine message" |}.

(** A world like [exampleWorld] in which the bucket rejects the put. *)
Definition fullBucketWorld : World :=
  {| GOOGLE_GEMINI_API_KEY := Some (lit "key");
     startTime := 1000;
     endTime := 1250;
     randomUUID := lit "0000";
     r2Put := Some (Error (Text (lit "storage quota exceeded")));
     generateContent := inr (Some (dq "{'title':'X'}"));
     engineMessage := fun _ => lit "engine message" |}.

(** A JSON request whose body is the value [body]. *)
Definition jsonRequest (body_ : value) : Request :=
  {| contentType := Some (lit "application/json");
     formData := inl (Fault JsonSyntax);
     json := inr body_ |}.

(** A JSON body [{"image": image}]. *)
Definition imageBody (image : string) : value :=
  VObj [(lit "image", VStr (lit image))].

(** A multipart request that carries the form [form]. *)
Definition multipartRequest (form : Form) : Request :=
  {| contentType := Some (lit "multipart/form-data; boundary=xyz");
     formData := inr form;
     json := inl (Fault JsonSyntax) |}.

(** [n] zero bytes. *)
Definition zeros (n : N) : list Byte.byte := N.iter n (cons Byte.x00) [].

(** A form whose image is a file of the given declared size and type. *)
Definition upload (declared : N) (mime : string) (bs : list Byte.byte)
  : Form :=
  {| formImage := FileEntry {| size := declared; type := lit mime;
                               bytes := bs |};
     formOptions := NoEntry |}.

Definition emptyForm : Form :=
  {| formImage := NoEntry; formOptions := NoEntry |}.

(** A two-byte PNG upload, well below the limit. *)
Definition smallUpload : Form := upload 2 "image/png" [Byte.x68; Byte.x69].

(* ===================================================================== *)
(** ** Lemmas on strings *)
(* ===================================================================== *)

Lemma zeros_length (n : N) : N.of_nat (length (zeros n)) = n.
Proof.
  unfold zeros. induction n as [|n IH] using N.peano_ind; [reflexivity|].
  rewrite N.iter_succ. cbn [length]. rewrite Nat2N.inj_succ, IH.
  reflexivity.
Qed.

Lemma str_eqb_eq (a b : jsstring) : str_eqb a b = true <-> a = b.
Proof.
  revert b; induction a as [|x a IH]; intros [|y b]; simpl;
    try (split; (reflexivity || discriminate)).
  rewrite andb_true_iff, N.eqb_eq, IH.
  split; [intros [-> ->]; reflexivity | intros H; injection H; auto].
Qed.

Lemma split_nonempty (sep : N) (s : jsstring) : split sep s <> [].
Proof.
  destruct s as [|c r]; simpl; [discriminate|].
  destruct (c =? sep)%N; [discriminate|].
  destruct (split sep r); discriminate.
Qed.

Lemma split_no_sep (sep : N) (s : jsstring) :
  Forall (fun l => ~ In sep l) (split sep s).
Proof.
  induction s as [|c r IH]; simpl.
  - constructor; [intros []|constructor].
  - destruct (N.eqb_spec c sep) as [->|Hne].
    + constructor; [intros []|exact IH].
    + destruct (split sep r) as [|l ls].
      * constructor; [|constructor]. intros [H|[]]; congruence.
      * inversion IH; subst. constructor; [|assumption].
        intros [H|H]; [congruence|contradiction].
Qed.

Lemma join_split (sep : N) (s : jsstring) : join sep (split sep s) = s.
Proof.
  induction s as [|c r IH]; simpl; [reflexivity|].
  destruct (N.eqb_spec c sep) as [->|Hne].
  - pose proof (split_nonempty sep r) as Hn.
    destruct (split sep r) as [|l ls]; [congruence|].
    simpl in *. now rewrite IH.
  - pose proof (split_nonempty sep r) as Hn.
    destruct (split sep r) as [|l ls]; [congruence|].
    destruct ls; simpl in *; now rewrite <- IH.
Qed.

Lemma split_app_sep (sep : N) (l rest : jsstring) :
  ~ In sep l -> split sep (l ++ sep :: rest) = l :: split sep rest.
Proof.
  induction l as [|c l IH]; simpl; intros Hn.
  - now rewrite N.eqb_refl.
  - destruct (N.eqb_spec c sep) as [->|Hne]; [exfalso; auto|].
    rewrite IH by tauto. reflexivity.
Qed.

Lemma split_single (sep : N) (l : jsstring) :
  ~ In sep l -> split sep l = [l].
Proof.
  induction l as [|c l IH]; simpl; intros Hn; [reflexivity|].
  destruct (N.eqb_spec c sep) as [->|Hne]; [exfalso; auto|].
  rewrite IH by tauto. reflexivity.
Qed.

(** Joining lines that hold no separator and splitting again gives the
    lines back. *)
Lemma split_join (sep : N) (ls : list jsstring) :
  ls <> [] -> Forall (fun l => ~ In sep l) ls ->
  split sep (join sep ls) = ls.
Proof.
  induction ls as [|l ls IH]; intros Hne Hall; [congruence|].
  inversion Hall as [|? ? Hl Hls]; subst.
  destruct ls as [|l' ls'].
  - simpl. now apply split_single.
  - change (join sep (l :: l' :: ls')) with (l ++ sep :: join sep (l' :: ls')).
    rewrite split_app_sep by assumption.
    rewrite IH; [reflexivity|discriminate|assumption].
Qed.

Lemma trimStart_incl (s : jsstring) (x : N) : In x (trimStart s) -> In x s.
Proof.
  induction s as [|c r IH]; simpl; [auto|].
  destruct (isWhiteSpace c); simpl; auto.
Qed.

Lemma trimEnd_incl (s : jsstring) (x : N) : In x (trimEnd s) -> In x s.
Proof.
  induction s as [|c r IH]; simpl; [auto|].
  destruct (trimEnd r) as [|d r'].
  - destruct (isWhiteSpace c); simpl; tauto.
  - intros [H|H]; [now left|right; apply IH; exact H].
Qed.

Lemma trim_incl (s : jsstring) (x : N) : In x (trim s) -> In x s.
Proof. intros H. apply trimStart_incl, trimEnd_incl, H. Qed.

(** A string that starts with a code unit that is no white space keeps
    it under [trim]. *)
Lemma trim_head (c : N) (r : jsstring) :
  isWhiteSpace c = false -> exists r', trim (c :: r) = c :: r'.
Proof.
  intros Hc. unfold trim. simpl. rewrite Hc. simpl.
  destruct (trimEnd r) as [|d r'].
  - rewrite Hc. now exists [].
  - now exists (d :: r').
Qed.

(* ===================================================================== *)
(** ** Lemmas on the formatter *)
(* ===================================================================== *)

(** A lower-case ASCII letter other than [i] at the head of a lowered
    string comes from that letter, its capital or the Kelvin sign. *)
Lemma lowerUnit_letter (x y : N) (rest tl : jsstring) :
  (97 <= y <= 122)%N -> y <> 105%N ->
  lowerUnit x ++ rest = y :: tl <-> lowersTo x y = true /\ rest = tl.
Proof.
  intros Hy Hi. unfold lowerUnit, lowersTo.
  rewrite !orb_true_iff, andb_true_iff, !N.eqb_eq.
  destruct ((65 <=? x) && (x <=? 90))%N eqn:E1.
  { apply andb_true_iff in E1 as [A B]. apply N.leb_le in A, B. simpl.
    split; [intros [= <- <-]; split; [lia|reflexivity]|].
    intros [H ->]. f_equal. lia. }
  assert (A : (x < 65 \/ 90 < x)%N).
  { apply andb_false_iff in E1 as [E|E]; apply N.leb_gt in E; lia. }
  clear E1.
  destruct ((192 <=? x) && (x <=? 222) && negb (x =? 215))%N eqn:E2.
  { apply andb_true_iff in E2 as [E2 _].
    apply andb_true_iff in E2 as [B C]. apply N.leb_le in B, C. simpl.
    split; [intros [= <- <-]; lia|]. intros [H ->]. lia. }
  clear E2.
  destruct (N.eqb_spec x 304) as [->|N1].
  { simpl. split; [intros [= <- _]; lia|]. intros [H _]. lia. }
  destruct (N.eqb_spec x 8490) as [->|N2].
  { simpl. split; [intros [= <- <-]; auto|].
    intros [[[H|H]|[_ ->]] ->]; [lia|lia|reflexivity]. }
  destruct (N.eqb_spec x 8491) as [->|N3].
  { simpl. split; [intros [= <- _]; lia|]. intros [H _]. lia. }
  simpl. split; [intros [= <- <-]; auto|].
  intros [[[H|H]|[H _]] ->]; [now subst|lia|contradiction].
Qed.

Lemma toLowerCase_nil (c : jsstring) : toLowerCase c = [] -> c = [].
Proof.
  destruct c as [|x c]; [reflexivity|]. unfold toLowerCase. simpl.
  unfold lowerUnit.
  repeat match goal with
         | |- context [if ?b then _ else _] => destruct b
         end; discriminate.
Qed.

(** Comparing the lowered category with a word of lower-case ASCII letters
    (none of them [i]) is comparing up to case. *)
Lemma lowered_equals (target c : jsstring) :
  Forall (fun y => (97 <= y <= 122)%N /\ y <> 105%N) target ->
  str_eqb (toLowerCase c) target = caseVariant c target.
Proof.
  intros Ht. revert c.
  induction Ht as [|y target [Hy Hi] _ IH]; intros c.
  - destruct c as [|x c]; [reflexivity|]. simpl caseVariant.
    destruct (str_eqb (toLowerCase (x :: c)) []) eqn:E; [|reflexivity].
    apply str_eqb_eq, toLowerCase_nil in E. discriminate.
  - destruct c as [|x c]; [reflexivity|].
    simpl caseVariant. rewrite <- IH.
    apply eq_true_iff_eq.
    rewrite andb_true_iff, !str_eqb_eq.
    change (toLowerCase (x :: c)) with (lowerUnit x ++ toLowerCase c).
    apply lowerUnit_letter; assumption.
Qed.

Lemma isTodo_caseVariant (c : jsstring) :
  isTodo c = caseVariant c (lit "todo") || caseVariant c (lit "task").
Proof.
  unfold isTodo. rewrite !lowered_equals; [reflexivity| |];
    repeat constructor; cbv; congruence.
Qed.

Lemma markLine_cases (line : jsstring) :
  markLine line =
  if blankOrMarked line then line else BALLOT_BOX :: SPACE :: trim line.
Proof.
  unfold markLine, blankOrMarked.
  destruct (trim line) as [|c t]; [reflexivity|].
  cbn [orb andb].
  destruct (startsWith (c :: t) [BALLOT_BOX]); [reflexivity|].
  destruct (startsWith (c :: t) [BALLOT_BOX_CHECKED]); reflexivity.
Qed.

Lemma marked_is_kept (t : jsstring) :
  blankOrMarked (BALLOT_BOX :: SPACE :: t) = true.
Proof.
  unfold blankOrMarked.
  destruct (trim_head BALLOT_BOX (SPACE :: t) eq_refl) as [r' ->].
  reflexivity.
Qed.

Lemma markLine_kept (line : jsstring) :
  blankOrMarked (markLine line) = true.
Proof.
  rewrite markLine_cases.
  destruct (blankOrMarked line) eqn:E; [exact E|apply marked_is_kept].
Qed.

Lemma markLine_idempotent (line : jsstring) :
  markLine (markLine line) = markLine line.
Proof.
  rewrite (markLine_cases line).
  destruct (blankOrMarked line) eqn:E.
  - rewrite markLine_cases, E. reflexivity.
  - rewrite markLine_cases, marked_is_kept. reflexivity.
Qed.

Lemma markLine_no_LF (line : jsstring) :
  ~ In LF line -> ~ In LF (markLine line).
Proof.
  intros Hn. rewrite markLine_cases.
  destruct (blankOrMarked line); [exact Hn|].
  intros [H|[H|H]]; try discriminate.
  apply Hn, trim_incl, H.
Qed.

Lemma formatted_lines (text : jsstring) :
  split LF (formatContent text) = map markLine (split LF text).
Proof.
  unfold formatContent. apply split_join.
  - pose proof (split_nonempty LF text).
    destruct (split LF text); [congruence|discriminate].
  - pose proof (split_no_sep LF text) as H.
    induction H; simpl; constructor; auto using markLine_no_LF.
Qed.

Lemma formatContent_idempotent (text : jsstring) :
  formatContent (formatContent text) = formatContent text.
Proof.
  unfold formatContent at 1. rewrite formatted_lines, map_map.
  unfold formatContent. f_equal.
  apply map_ext, markLine_idempotent.
Qed.

(** On a typed note the formatter returns, and returns a typed note. *)
Lemma format_typed (x : ExtractedNote) :
  format (ofNote x) =
  inr (ofNote (if isTodo (note_category x)
               then withContent x (formatContent (note_content x))
               else x)).
Proof.
  unfold format. simpl.
  destruct (isTodo (note_category x)); reflexivity.
Qed.

(* ===================================================================== *)
(** ** Lemmas on the extraction of the JSON span *)
(* ===================================================================== *)

Lemma starThenClose_none (r : jsstring) :
  starThenClose r = None -> ~ In RBRACE r.
Proof.
  induction r as [|c r IH]; simpl; [auto|].
  destruct (starThenClose r); [discriminate|].
  destruct (N.eqb_spec c RBRACE); [discriminate|].
  intros _ [H|H]; [congruence|now apply IH].
Qed.

Lemma starThenClose_some (r m : jsstring) :
  starThenClose r = Some m ->
  exists mid post,
    r = mid ++ RBRACE :: post /\ m = mid ++ [RBRACE] /\ ~ In RBRACE post.
Proof.
  revert m; induction r as [|c r IH]; simpl; intros m; [discriminate|].
  destruct (starThenClose r) as [m'|] eqn:E.
  - intros [= <-]. destruct (IH m' eq_refl) as (mid & post & -> & -> & Hn).
    now exists (c :: mid), post.
  - destruct (N.eqb_spec c RBRACE) as [->|]; [|discriminate].
    intros [= <-]. exists [], r. auto using starThenClose_none.
Qed.

Lemma matchJson_some (s m : jsstring) :
  matchJson s = Some m -> broadest s m.
Proof.
  revert m; induction s as [|c r IH]; simpl; intros m; [discriminate|].
  destruct (N.eqb_spec c LBRACE) as [->|Hc].
  - destruct (starThenClose r) as [m'|] eqn:E.
    + intros [= <-].
      destruct (starThenClose_some r E) as (mid & post & -> & -> & Hn).
      exists [], mid, post. simpl. rewrite <- app_assoc. simpl. auto.
    + intros H. destruct (IH m H) as (pre & mid & post & Hr & -> & _ & _).
      exfalso. apply (starThenClose_none r E). rewrite Hr.
      apply in_or_app; right. simpl; right.
      apply in_or_app; left. apply in_or_app; right. now left.
  - intros H. destruct (IH m H) as (pre & mid & post & -> & -> & Hp & Hq).
    exists (c :: pre), mid, post. repeat split; auto.
    intros [E|E]; [congruence|auto].
Qed.

Lemma matchJson_none (s : jsstring) :
  matchJson s = None -> ~ braced s.
Proof.
  induction s as [|c r IH]; simpl.
  - intros _ (pre & mid & post & H). destruct pre; discriminate.
  - intros H (pre & mid & post & E).
    destruct pre as [|p pre]; simpl in E; injection E as -> ->.
    + rewrite N.eqb_refl in H.
      destruct (starThenClose (mid ++ RBRACE :: post)) eqn:S; [discriminate|].
      apply (starThenClose_none _ S), in_or_app. right; now left.
    + destruct (if (p =? LBRACE)%N then starThenClose _ else None);
        [discriminate|].
      apply IH; [exact H|]. now exists pre, mid, post.
Qed.

Lemma broadest_braced (s m : jsstring) : broadest s m -> braced s.
Proof.
  intros (pre & mid & post & -> & -> & _ & _).
  exists pre, mid, post. simpl. now rewrite <- app_assoc.
Qed.

(** The first opening and the last closing brace fix the span. *)
Lemma broadest_unique (s m m' : jsstring) :
  broadest s m -> broadest s m' -> m = m'.
Proof.
  intros (pre & mid & post & Hs & -> & Hp & Hq)
         (pre' & mid' & post' & Hs' & -> & Hp' & Hq').
  assert (Hfirst : forall (a b x y : jsstring),
             a ++ LBRACE :: x = b ++ LBRACE :: y ->
             ~ In LBRACE a -> ~ In LBRACE b -> a = b /\ x = y).
  { induction a as [|c a IHa]; intros [|d b] x y E Ha Hb; simpl in *.
    - injection E; auto.
    - injection E as <- _. exfalso; auto.
    - injection E as -> _. exfalso; auto.
    - injection E as -> E. destruct (IHa b x y E) as [-> ->]; auto. }
  rewrite Hs' in Hs. simpl in Hs.
  destruct (Hfirst _ _ _ _ Hs Hp' Hp) as [_ E].
  f_equal.
  assert (Hlast : forall (a b x y : jsstring),
             a ++ RBRACE :: x = b ++ RBRACE :: y ->
             ~ In RBRACE x -> ~ In RBRACE y -> a = b).
  { induction a as [|c a IHa]; intros [|d b] x y E' Hx Hy; simpl in *.
    - reflexivity.
    - injection E' as <- ->. exfalso. apply Hx, in_or_app. right; now left.
    - injection E' as -> <-. exfalso. apply Hy, in_or_app. right; now left.
    - injection E' as -> E'. f_equal. eapply IHa; eauto. }
  rewrite <- !app_assoc in E. simpl in E.
  f_equal. symmetry. eapply Hlast; eauto.
Qed.

(* ===================================================================== *)
(** ** Lemmas on [JSON.parse] *)
(* ===================================================================== *)

Lemma skipSpace_length (s : jsstring) : length (skipSpace s) <= length s.
Proof.
  induction s as [|c r IH]; simpl; [lia|].
  destruct (isJsonSpace c); simpl; lia.
Qed.

Lemma parseChars_length (s str rest : jsstring) :
  parseChars s = Some (str, rest) -> length rest < length s.
Proof.
  revert str rest.
  induction s as [s IH] using (well_founded_induction
                                 (Wf_nat.well_founded_ltof _ (@length N))).
  unfold Wf_nat.ltof in IH.
  intros str rest. destruct s as [|c r]; simpl; [discriminate|].
  destruct (c =? QUOTE)%N; [intros [= <- <-]; lia|].
  destruct (c =? BACKSLASH)%N.
  - destruct r as [|e r1]; [discriminate|].
    destruct (e =? 117)%N.
    + destruct r1 as [|h1 [|h2 [|h3 [|h4 r2]]]]; try discriminate.
      destruct (hex4 h1 h2 h3 h4); [|discriminate].
      destruct (parseChars r2) as [[str' rest']|] eqn:E; [|discriminate].
      intros [= <- <-]. apply IH in E; simpl in *; lia.
    + destruct (escapeUnit e); [|discriminate].
      destruct (parseChars r1) as [[str' rest']|] eqn:E; [|discriminate].
      intros [= <- <-]. apply IH in E; simpl in *; lia.
  - destruct (c <? 32)%N; [discriminate|].
    destruct (parseChars r) as [[str' rest']|] eqn:E; [|discriminate].
    intros [= <- <-]. apply IH in E; simpl in *; lia.
Qed.

Lemma takeDigits_length (s : jsstring) :
  length (snd (takeDigits s)) <= length s.
Proof.
  induction s as [|c r IH]; simpl; [lia|].
  destruct (isDigit c); simpl; [|lia].
  destruct (takeDigits r); simpl in *; lia.
Qed.

Lemma parseNumber_length (s : jsstring) (q : Q) (rest : jsstring) :
  parseNumber s = Some (q, rest) -> length rest <= length s.
Proof.
  unfold parseNumber.
  set (p := match s with
            | [] => (false, s)
            | c :: r => if (c =? MINUS)%N then (true, r) else (false, s)
            end).
  assert (H1 : length (snd p) <= length s).
  { subst p. destruct s as [|c r]; simpl; [lia|].
    destruct (c =? MINUS)%N; simpl; lia. }
  destruct p as [neg s1]. simpl in H1.
  destruct (parseInt s1) as [[ids s2]|] eqn:EI; [|discriminate].
  assert (H2 : length s2 <= length s1).
  { unfold parseInt in EI. destruct s1 as [|c r]; [discriminate|].
    destruct (c =? 48)%N; [injection EI as _ <-; simpl; lia|].
    pose proof (takeDigits_length (c :: r)) as L.
    destruct (takeDigits (c :: r)) as [[|d ds] rest']; [discriminate|].
    injection EI as _ <-. exact L. }
  destruct (parseFrac s2) as [[fds s3]|] eqn:EF; [|discriminate].
  assert (H3 : length s3 <= length s2).
  { unfold parseFrac in EF. destruct s2 as [|c r]; [injection EF as _ <-; lia|].
    destruct (c =? DOT)%N; [|injection EF as _ <-; lia].
    pose proof (takeDigits_length r) as L.
    destruct (takeDigits r) as [[|d ds] rest']; [discriminate|].
    injection EF as _ <-. simpl in *; lia. }
  destruct (parseExp s3) as [[e s4]|] eqn:EE; [|discriminate].
  assert (H4 : length s4 <= length s3).
  { unfold parseExp in EE. destruct s3 as [|c r]; [injection EE as _ <-; lia|].
    destruct ((c =? 101) || (c =? 69))%N; [|injection EE as _ <-; lia].
    set (p := match r with
              | [] => (false, r)
              | d :: r' => if (d =? MINUS)%N then (true, r')
                           else if (d =? PLUS)%N then (false, r')
                           else (false, r)
              end) in EE.
    assert (L1 : length (snd p) <= length r).
    { subst p. destruct r as [|d r']; simpl; [lia|].
      destruct (d =? MINUS)%N; simpl; [lia|].
      destruct (d =? PLUS)%N; simpl; lia. }
    destruct p as [ng r1]. simpl in L1.
    pose proof (takeDigits_length r1) as L.
    destruct (takeDigits r1) as [[|d ds] rest']; [discriminate|].
    injection EE as _ <-. simpl in *; lia. }
  intros [= _ <-]. lia.
Qed.

Lemma parseKeyword_length (s : jsstring) (v : value) (rest : jsstring) :
  parseKeyword s = Some (v, rest) -> length rest <= length s.
Proof.
  unfold parseKeyword.
  repeat match goal with
         | |- context [if ?b then _ else _] => destruct b
         end; try discriminate;
    intros [= _ <-];
    match goal with
    | |- length ?t <= _ =>
        change t with (skipn 4 s) || change t with (skipn 5 s)
    end;
    rewrite length_skipn; lia.
Qed.

Lemma parse_length (fuel : nat) :
  (forall s v rest,
      parseValue fuel s = Parsed v rest -> length rest <= length s)
  /\ (forall s vs rest,
      parseElements fuel s = Parsed vs rest -> length rest <= length s)
  /\ (forall s ms rest,
      parseMembers fuel s = Parsed ms rest -> length rest <= length s).
Proof.
  induction fuel as [|f (IHv & IHe & IHm)];
    [repeat split; intros; discriminate|].
  repeat split.
  - intros s v rest. simpl.
    pose proof (skipSpace_length s) as Ls.
    destruct (skipSpace s) as [|c r]; [discriminate|].
    destruct (c =? LBRACE)%N.
    { pose proof (skipSpace_length r) as Lr.
      destruct (skipSpace r) as [|c' r']; [discriminate|].
      destruct (c' =? RBRACE)%N; [intros [= _ <-]; simpl in *; lia|].
      destruct (parseMembers f (c' :: r')) eqn:E; try discriminate.
      intros [= _ <-]. apply IHm in E. simpl in *; lia. }
    destruct (c =? LBRACKET)%N.
    { pose proof (skipSpace_length r) as Lr.
      destruct (skipSpace r) as [|c' r']; [discriminate|].
      destruct (c' =? RBRACKET)%N; [intros [= _ <-]; simpl in *; lia|].
      destruct (parseElements f (c' :: r')) eqn:E; try discriminate.
      intros [= _ <-]. apply IHe in E. simpl in *; lia. }
    destruct (c =? QUOTE)%N.
    { destruct (parseChars r) as [[str rest']|] eqn:E; [|discriminate].
      intros [= _ <-]. apply parseChars_length in E. simpl in *; lia. }
    destruct ((c =? MINUS)%N || isDigit c).
    { destruct (parseNumber (c :: r)) as [[q rest']|] eqn:E; [|discriminate].
      intros [= _ <-]. apply parseNumber_length in E. simpl in *; lia. }
    destruct (parseKeyword (c :: r)) as [[k rest']|] eqn:E; [|discriminate].
    intros [= _ <-]. apply parseKeyword_length in E. simpl in *; lia.
  - intros s vs rest. simpl.
    destruct (parseValue f s) as [v rest0| |] eqn:E; try discriminate.
    apply IHv in E. pose proof (skipSpace_length rest0) as L.
    destruct (skipSpace rest0) as [|c r]; [discriminate|].
    destruct (c =? COMMA)%N.
    { destruct (parseElements f r) eqn:E'; try discriminate.
      intros [= _ <-]. apply IHe in E'. simpl in *; lia. }
    destruct (c =? RBRACKET)%N; [|discriminate].
    intros [= _ <-]. simpl in *; lia.
  - intros s ms rest. simpl.
    pose proof (skipSpace_length s) as Ls.
    destruct (skipSpace s) as [|q r0]; [discriminate|].
    destruct (q =? QUOTE)%N; [|discriminate].
    destruct (parseChars r0) as [[key r1]|] eqn:EK; [|discriminate].
    apply parseChars_length in EK.
    pose proof (skipSpace_length r1) as L1.
    destruct (skipSpace r1) as [|c r2]; [discriminate|].
    destruct (c =? COLON)%N; [|discriminate].
    destruct (parseValue f r2) as [v rest0| |] eqn:E; try discriminate.
    apply IHv in E. pose proof (skipSpace_length rest0) as L.
    destruct (skipSpace rest0) as [|d r3]; [discriminate|].
    destruct (d =? COMMA)%N.
    { destruct (parseMembers f r3) eqn:E'; try discriminate.
      intros [= _ <-]. apply IHm in E'. simpl in *; lia. }
    destruct (d =? RBRACE)%N; [|discriminate].
    intros [= _ <-]. simpl in *; lia.
Qed.

(** The fuel [JSON_parse] gives is never used up: a failure of the model
    is a syntax error. *)
Lemma parse_fuel (fuel : nat) :
  (forall s, 2 * length s + 1 <= fuel -> parseValue fuel s <> OutOfFuel)
  /\ (forall s, 2 * length s + 2 <= fuel -> parseElements fuel s <> OutOfFuel)
  /\ (forall s, 2 * length s + 2 <= fuel -> parseMembers fuel s <> OutOfFuel).
Proof.
  induction fuel as [|f (IHv & IHe & IHm)];
    [repeat split; intros; lia|].
  repeat split.
  - intros s Hf. simpl.
    pose proof (skipSpace_length s) as Ls.
    destruct (skipSpace s) as [|c r]; [discriminate|].
    destruct (c =? LBRACE)%N.
    { pose proof (skipSpace_length r) as Lr.
      destruct (skipSpace r) as [|c' r']; [discriminate|].
      destruct (c' =? RBRACE)%N; [discriminate|].
      destruct (parseMembers f (c' :: r')) eqn:E; try discriminate.
      exfalso. revert E. apply IHm. simpl in *; lia. }
    destruct (c =? LBRACKET)%N.
    { pose proof (skipSpace_length r) as Lr.
      destruct (skipSpace r) as [|c' r']; [discriminate|].
      destruct (c' =? RBRACKET)%N; [discriminate|].
      destruct (parseElements f (c' :: r')) eqn:E; try discriminate.
      exfalso. revert E. apply IHe. simpl in *; lia. }
    destruct (c =? QUOTE)%N.
    { destruct (parseChars r) as [[str rest']|]; discriminate. }
    destruct ((c =? MINUS)%N || isDigit c).
    { destruct (parseNumber (c :: r)) as [[q rest']|]; discriminate. }
    destruct (parseKeyword (c :: r)) as [[k rest']|]; discriminate.
  - intros s Hf. simpl.
    destruct (parseValue f s) as [v rest0| |] eqn:E; try discriminate.
    + apply (proj1 (parse_length f)) in E.
      pose proof (skipSpace_length rest0) as L.
      destruct (skipSpace rest0) as [|c r]; [discriminate|].
      destruct (c =? COMMA)%N.
      * destruct (parseElements f r) eqn:E'; try discriminate.
        exfalso. revert E'. apply IHe. simpl in *; lia.
      * destruct (c =? RBRACKET)%N; discriminate.
    + exfalso. revert E. apply IHv. lia.
  - intros s Hf. simpl.
    pose proof (skipSpace_length s) as Ls.
    destruct (skipSpace s) as [|q r0]; [discriminate|].
    destruct (q =? QUOTE)%N; [|discriminate].
    destruct (parseChars r0) as [[key r1]|] eqn:EK; [|discriminate].
    apply parseChars_length in EK.
    pose proof (skipSpace_length r1) as L1.
    destruct (skipSpace r1) as [|c r2]; [discriminate|].
    destruct (c =? COLON)%N; [|discriminate].
    destruct (parseValue f r2) as [v rest0| |] eqn:E; try discriminate.
    + apply (proj1 (parse_length f)) in E.
      pose proof (skipSpace_length rest0) as L.
      destruct (skipSpace rest0) as [|d r3]; [discriminate|].
      destruct (d =? COMMA)%N.
      * destruct (parseMembers f r3) eqn:E'; try discriminate.
        exfalso. revert E'. apply IHm. simpl in *; lia.
      * destruct (d =? RBRACE)%N; discriminate.
    + exfalso. revert E. apply IHv. simpl in *; lia.
Qed.

Lemma JSON_parse_fuel (text : jsstring) :
  parseValue (parseFuel text) text <> OutOfFuel.
Proof. apply (proj1 (parse_fuel _)). unfold parseFuel. lia. Qed.

(** A text that starts with an opening brace parses to an object or not
    at all. *)
Lemma JSON_parse_object (m : jsstring) (v : value) :
  JSON_parse (LBRACE :: m) = inr v -> exists props, v = VObj props.
Proof.
  unfold JSON_parse, parseFuel.
  replace (2 * length (LBRACE :: m) + 2) with (S (2 * length m + 3))
    by (simpl; lia).
  simpl.
  destruct (skipSpace m) as [|c' r']; [discriminate|].
  destruct (c' =? RBRACE)%N.
  - destruct (skipSpace r'); [|discriminate]. intros [= <-]. now exists [].
  - destruct (parseMembers _ _) as [ms rest| |]; try discriminate.
    destruct (skipSpace rest); [|discriminate]. intros [= <-]. now exists ms.
Qed.

(** On an object the coercion of lines 276-286 always returns. *)
Lemma sanitize_object (props : list (jsstring * value)) :
  sanitize (VObj props) =
  inr {| title := orElse (field props "title") (VStr (lit "Untitled Note"));
         content := orElse (field props "content") (VStr []);
         category := orElse (field props "category") (VStr (lit "note"));
         tags := arrayOrEmpty (field props "tags");
         dates := arrayOrEmpty (field props "dates");
         contacts := arrayOrEmpty (field props "contacts");
         confidence := clampConfidence (field props "confidence");
         raw_text := orElse (field props "raw_text")
                       (orElse (field props "content") (VStr [])) |}.
Proof. reflexivity. Qed.

(* ===================================================================== *)
(** ** Lemmas on base64 *)
(* ===================================================================== *)

Lemma base64Value_Char (v : N) :
  (v < 64)%N -> base64Value (base64Char v) = Some v.
Proof.
  intros Hv. unfold base64Char, base64Value, PLUS, SLASH.
  destruct (N.ltb_spec v 26).
  { destruct (N.leb_spec 65 (v + 65)), (N.leb_spec (v + 65) 90);
      cbn [andb]; try lia. f_equal. lia. }
  destruct (N.ltb_spec v 52).
  { destruct (N.leb_spec 65 (v + 71)), (N.leb_spec (v + 71) 90);
      cbn [andb]; try lia;
      destruct (N.leb_spec 97 (v + 71)), (N.leb_spec (v + 71) 122);
      cbn [andb]; try lia; f_equal; lia. }
  destruct (N.ltb_spec v 62).
  { destruct (N.leb_spec 65 (v - 4)), (N.leb_spec (v - 4) 90);
      cbn [andb]; try lia;
      destruct (N.leb_spec 97 (v - 4)), (N.leb_spec (v - 4) 122);
      cbn [andb]; try lia;
      destruct (N.leb_spec 48 (v - 4)), (N.leb_spec (v - 4) 57);
      cbn [andb]; try lia; f_equal; lia. }
  destruct (N.eqb_spec v 62) as [->|]; [reflexivity|].
  cbn. f_equal. lia.
Qed.

Lemma base64Char_plain (v : N) :
  isAsciiSpace (base64Char v) = false /\ base64Char v <> EQUALS.
Proof.
  unfold base64Char, isAsciiSpace, EQUALS, PLUS, SLASH.
  destruct (N.ltb_spec v 26); [|destruct (N.ltb_spec v 52);
    [|destruct (N.ltb_spec v 62); [|destruct (N.eqb_spec v 62)]]];
    (split; [|try lia; discriminate]);
    rewrite !orb_false_iff, !N.eqb_neq; repeat split; try lia;
    discriminate.
Qed.

Lemma dropPad_cons (c : N) (r : jsstring) :
  2 <= length r -> dropPad (c :: r) = c :: dropPad r.
Proof. destruct r as [|a [|b r]]; simpl; intros; (lia || reflexivity). Qed.

Lemma list_ind3 (A : Type) (P : list A -> Prop) :
  P [] -> (forall a, P [a]) -> (forall a b, P [a; b]) ->
  (forall a b c l, P l -> P (a :: b :: c :: l)) ->
  forall l, P l.
Proof.
  intros H0 H1 H2 H3.
  fix IH 1.
  intros [|a [|b [|c l]]];
    [exact H0 | apply H1 | apply H2 | apply H3, IH].
Qed.

Ltac euclid := zify; Z.to_euclidean_division_equations; lia.

Lemma sextetsOf_small (bytes : list N) :
  Forall (fun b => (b <= 255)%N) bytes ->
  Forall (fun v => (v < 64)%N) (sextetsOf bytes).
Proof.
  induction bytes as [|a|a b|a b c l IH] using list_ind3; intros H.
  - constructor.
  - inversion H; subst. simpl. repeat constructor; euclid.
  - inversion H as [|? ? Ha H']; inversion H'; subst. simpl.
    repeat constructor; euclid.
  - inversion H as [|? ? Ha H']; inversion H' as [|? ? Hb H''];
      inversion H'' as [|? ? Hc Hl]; subst.
    cbn [sextetsOf]. repeat (constructor; [euclid|]). auto.
Qed.

Lemma mod4_step (n : nat) : (4 + n) mod 4 = n mod 4.
Proof.
  replace (4 + n) with (n + 1 * 4) by lia. apply Nat.Div0.mod_add.
Qed.

Lemma encodeBytes_chars (bytes : list N) :
  exists pad,
    encodeBytes bytes = map base64Char (sextetsOf bytes) ++ pad
    /\ (pad = [] \/ pad = [EQUALS] \/ pad = [EQUALS; EQUALS])
    /\ (length (sextetsOf bytes) + length pad) mod 4 = 0
    /\ length (sextetsOf bytes) mod 4 <> 1.
Proof.
  induction bytes as [|a|a b|a b c l IH] using list_ind3.
  - exists []. repeat split; auto.
  - exists [EQUALS; EQUALS]. repeat split; auto; simpl; lia.
  - exists [EQUALS]. repeat split; auto; simpl; lia.
  - destruct IH as (pad & E & Hp & L & M). exists pad.
    cbn [encodeBytes sextetsOf map app]. rewrite E.
    split; [reflexivity|]. split; [exact Hp|].
    cbn [length].
    change (S (S (S (S (length (sextetsOf l))))))
      with (4 + length (sextetsOf l)).
    rewrite <- Nat.add_assoc, !mod4_step. auto.
Qed.

Lemma base64Char_not_comma (v : N) : base64Char v <> COMMA.
Proof.
  unfold base64Char, COMMA, PLUS, SLASH.
  destruct (N.ltb_spec v 26); [lia|]. destruct (N.ltb_spec v 52); [lia|].
  destruct (N.ltb_spec v 62); [lia|].
  destruct (N.eqb_spec v 62); discriminate.
Qed.

Lemma dropPad_app (pre pad : jsstring) :
  Forall (fun c => c <> EQUALS) pre ->
  pad = [] \/ pad = [EQUALS] \/ pad = [EQUALS; EQUALS] ->
  dropPad (pre ++ pad) = pre.
Proof.
  intros Hpre Hpad. induction Hpre as [|x pre Hx Hpre IH].
  - destruct Hpad as [->|[->| ->]]; reflexivity.
  - destruct pre as [|y pre].
    + apply N.eqb_neq in Hx.
      destruct Hpad as [->|[->| ->]]; simpl; rewrite ?Hx; reflexivity.
    + change ((x :: y :: pre) ++ pad) with (x :: ((y :: pre) ++ pad)).
      destruct pre as [|z pre].
      * inversion Hpre as [|? ? Hy _]; subst. apply N.eqb_neq in Hy.
        destruct Hpad as [->|[->| ->]]; simpl; rewrite ?Hy; reflexivity.
      * rewrite dropPad_cons by (simpl; lia). now rewrite IH.
Qed.

Lemma sextets_chars (vs : list N) :
  Forall (fun v => (v < 64)%N) vs -> sextets (map base64Char vs) = Some vs.
Proof.
  induction 1 as [|v vs Hv _ IH]; [reflexivity|].
  simpl. now rewrite base64Value_Char, IH.
Qed.

Lemma decode_sextetsOf (bytes : list N) :
  Forall (fun b => (b <= 255)%N) bytes ->
  decodeSextets (sextetsOf bytes) = bytes.
Proof.
  induction bytes as [|a|a b|a b c l IH] using list_ind3; intros H.
  - reflexivity.
  - inversion H; subst. cbn [sextetsOf decodeSextets]. f_equal. euclid.
  - inversion H as [|? ? Ha H']; inversion H'; subst.
    cbn [sextetsOf decodeSextets]. f_equal; [euclid|]. f_equal. euclid.
  - inversion H as [|? ? Ha H']; inversion H' as [|? ? Hb H''];
      inversion H'' as [|? ? Hc Hl]; subst.
    cbn [sextetsOf decodeSextets]. rewrite (IH Hl).
    f_equal; [euclid|]. f_equal; [euclid|]. f_equal. euclid.
Qed.

(** Decoding the encoding of a byte string gives the bytes back. *)
Lemma atob_encodeBytes (bytes : list N) :
  Forall (fun b => (b <= 255)%N) bytes ->
  atob (encodeBytes bytes) = inr bytes.
Proof.
  intros H. destruct (encodeBytes_chars bytes) as (pad & E & Hp & L & M).
  pose proof (sextetsOf_small H) as Hs.
  assert (F : filter (fun c => negb (isAsciiSpace c)) (encodeBytes bytes)
              = encodeBytes bytes).
  { rewrite E. apply forallb_filter_id, forallb_forall. intros c Hc.
    apply in_app_or in Hc as [Hc|Hc].
    - apply in_map_iff in Hc as (v & <- & _).
      now rewrite (proj1 (base64Char_plain v)).
    - destruct Hp as [->|[->| ->]]; simpl in Hc;
        repeat destruct Hc as [<-|Hc]; try contradiction; reflexivity. }
  assert (S : stripPadding (encodeBytes bytes)
              = map base64Char (sextetsOf bytes)).
  { unfold stripPadding. rewrite E, length_app, length_map, L.
    cbn [Nat.eqb]. apply dropPad_app; [|exact Hp].
    apply Forall_map, Forall_forall. intros v _. apply base64Char_plain. }
  unfold atob. rewrite F, S, length_map.
  destruct (Nat.eqb_spec (length (sextetsOf bytes) mod 4) 1); [contradiction|].
  rewrite (sextets_chars Hs). now rewrite decode_sextetsOf.
Qed.

Lemma binaryString_bytes (bs : list Byte.byte) :
  Forall (fun b => (b <= 255)%N) (binaryString bs).
Proof.
  apply Forall_map, Forall_forall. intros b _. apply Byte.to_N_bounded.
Qed.

Lemma encodeBytes_no_comma (bytes : list N) : ~ In COMMA (encodeBytes bytes).
Proof.
  destruct (encodeBytes_chars bytes) as (pad & -> & Hp & _).
  intros H. apply in_app_or in H as [H|H].
  - apply in_map_iff in H as (v & E & _). now apply (base64Char_not_comma v).
  - destruct Hp as [->|[->| ->]]; simpl in H;
      repeat destruct H as [H|H]; try discriminate; contradiction.
Qed.

Lemma not_in_app (x : N) (a b : jsstring) :
  ~ In x a -> ~ In x b -> ~ In x (a ++ b).
Proof. intros Ha Hb H. apply in_app_or in H as [H|H]; auto. Qed.

Lemma payloadOf_dataUrl (file : File) :
  ~ In COMMA (type file) ->
  payloadOf (dataUrl file) = Some (encodeBytes (binaryString (bytes file))).
Proof.
  intros Hc. unfold payloadOf, dataUrl.
  change (lit "data:" ++ type file ++ lit ";base64," ++ ?e)
    with (lit "data:" ++ type file ++ lit ";base64" ++ COMMA :: e).
  rewrite !app_assoc.
  rewrite split_app_sep.
  - rewrite split_single by apply encodeBytes_no_comma. reflexivity.
  - apply not_in_app; [apply not_in_app; [|exact Hc]|];
      cbv; intuition discriminate.
Qed.

Lemma mimeTypeOf_dataUrl (file : File) :
  ~ In SEMICOLON (type file) -> ~ In COLON (type file) ->
  mimeTypeOf (dataUrl file) = Some (type file).
Proof.
  intros Hs Hc. unfold mimeTypeOf, dataUrl.
  change (lit "data:" ++ type file ++ lit ";base64," ++ ?e)
    with (lit "data:" ++ type file ++ SEMICOLON :: lit "base64," ++ e).
  rewrite app_assoc, split_app_sep.
  - cbn [hd].
    change (lit "data:" ++ type file)
      with (lit "data" ++ COLON :: type file).
    rewrite split_app_sep by (cbv; intuition discriminate).
    rewrite split_single by exact Hc. reflexivity.
  - apply not_in_app; [cbv; intuition discriminate|exact Hs].
Qed.

(* ===================================================================== *)
(** ** The formatter (section 4.4) *)
(* ===================================================================== *)

(** C3, as stated, fails: on the todo note with the one line ["  milk"] the
    code returns the content ["☐ milk"], the marker before the trimmed
    line, where the claim puts the marker before the original line and
    gives ["☐   milk"]. *)
Lemma marker_precedes_trimmed_line :
  format (ofNote indentedTodo)
  = inr (ofNote (withContent indentedTodo (BALLOT_BOX :: SPACE :: lit "milk")))
  /\ spec_format indentedTodo
     = withContent indentedTodo (BALLOT_BOX :: SPACE :: lit "  milk")
  /\ format (ofNote indentedTodo) <> inr (ofNote (spec_format indentedTodo)).
Proof.
  split; [reflexivity|]. split; [reflexivity|].
  vm_compute. intros H. discriminate H.
Qed.

(** C3 (amended): the formatter is triggered exactly when the lowered
    category is ["todo"] or ["task"], that is, when the category spells one
    of the two words up to the case of its letters (so ["Todo"], ["TASK"],
    ["todo"] trigger it and ["note"] does not); when triggered, the content is split
    on newlines, every line whose trimmed form is non-empty and starts with
    neither marker is replaced by ["☐ "] followed by its TRIMMED form, every
    other line is kept as it is, and the lines are rejoined with newlines;
    when not triggered, the note is returned unchanged. *)
Theorem todo_formatting :
  (forall c, isTodo c = true
             <-> toLowerCase c = lit "todo" \/ toLowerCase c = lit "task")
  /\ (forall c, isTodo c
                = caseVariant c (lit "todo") || caseVariant c (lit "task"))
  /\ isTodo (lit "Todo") = true /\ isTodo (lit "TASK") = true
  /\ isTodo (lit "todo") = true /\ isTodo (lit "note") = false
  /\ (forall line,
        trim line = []
        \/ (exists r, trim line = BALLOT_BOX :: r)
        \/ (exists r, trim line = BALLOT_BOX_CHECKED :: r) ->
        markLine line = line)
  /\ (forall line c r,
        trim line = c :: r -> c <> BALLOT_BOX -> c <> BALLOT_BOX_CHECKED ->
        markLine line = BALLOT_BOX :: SPACE :: trim line)
  /\ (forall x : ExtractedNote,
        exists y : ExtractedNote,
          format (ofNote x) = inr (ofNote y)
          /\ y = withContent x (note_content y)
          /\ (isTodo (note_category x) = true ->
              split LF (note_content y)
              = map markLine (split LF (note_content x)))
          /\ (isTodo (note_category x) = false -> y = x)).
Proof.
  split.
  { intros c. unfold isTodo. rewrite orb_true_iff, !str_eqb_eq. tauto. }
  split; [exact isTodo_caseVariant|].
  repeat (split; [reflexivity|]).
  split.
  { intros line H. rewrite markLine_cases. unfold blankOrMarked.
    destruct H as [->|[[r ->]|[r ->]]]; reflexivity. }
  split.
  { intros line c r E Hb Hc. rewrite markLine_cases. unfold blankOrMarked.
    rewrite E. simpl.
    destruct (N.eqb_spec c BALLOT_BOX); [contradiction|].
    destruct (N.eqb_spec c BALLOT_BOX_CHECKED); [contradiction|].
    reflexivity. }
  intros x. rewrite format_typed.
  destruct (isTodo (note_category x)) eqn:E.
  - exists (withContent x (formatContent (note_content x))).
    repeat split; [|discriminate].
    intros _. apply formatted_lines.
  - exists x. repeat split; [now destruct x|discriminate].
Qed.

Lemma todo_formatting_witness :
  markLine (lit "  ") = lit "  "
  /\ markLine (SPACE :: BALLOT_BOX_CHECKED :: lit " paid")
     = SPACE :: BALLOT_BOX_CHECKED :: lit " paid"
  /\ markLine (lit "  milk ") = BALLOT_BOX :: SPACE :: lit "milk"
  /\ exists y, format (ofNote indentedTodo) = inr (ofNote y)
               /\ split LF (note_content y)
                  = map markLine (split LF (note_content indentedTodo)).
Proof.
  destruct todo_formatting
    as (_ & _ & _ & _ & _ & _ & Hkeep & Hmark & Hnote).
  split; [apply Hkeep; left; reflexivity|].
  split; [apply Hkeep; right; right; eexists; reflexivity|].
  split.
  { apply (Hmark (lit "  milk ") 109%N (lit "ilk"));
      [reflexivity | discriminate | discriminate]. }
  destruct (Hnote indentedTodo) as (y & Hy & _ & Htodo & _).
  exists y. split; [exact Hy|]. apply Htodo. reflexivity.
Defined.

(** C5: formatting a note and formatting the outcome again gives the
    outcome of the first pass: on every typed note the formatter returns a
    typed note, and that note is a fixed point of the formatter; when the
    formatter is triggered, every line of its output is blank once trimmed
    or carries a marker, and otherwise the note is unchanged. *)
Theorem format_idempotent (x : ExtractedNote) :
  exists y : ExtractedNote,
    format (ofNote x) = inr (ofNote y)
    /\ format (ofNote y) = inr (ofNote y)
    /\ if isTodo (note_category x)
       then Forall (fun l => blankOrMarked l = true)
                   (split LF (note_content y))
       else y = x.
Proof.
  rewrite format_typed.
  destruct (isTodo (note_category x)) eqn:E.
  - exists (withContent x (formatContent (note_content x))).
    split; [reflexivity|]. split.
    + rewrite format_typed. simpl. rewrite E. unfold withContent. simpl.
      now rewrite formatContent_idempotent.
    + simpl. rewrite formatted_lines. apply Forall_map, Forall_forall.
      intros l _. apply markLine_kept.
  - exists x. split; [reflexivity|].
    rewrite format_typed, E. split; reflexivity.
Qed.

(* ===================================================================== *)
(** ** The sanitizer (section 4.3) *)
(* ===================================================================== *)

(** C1, at the reply [{"title": 5}]: the record is built, and its [title]
    is the number [5], not a string; what the coercion does guarantee for
    every parsed object is that the record is built, that [tags], [dates]
    and [contacts] are arrays and that [confidence] is a number. *)
Theorem sanitize_keeps_non_string_title :
  (exists r, sanitizeReply (Some (dq "{'title': 5}")) = inr r
             /\ title r = VNum 5 /\ wellTyped r = false)
  /\ forall props, exists r,
       sanitize (VObj props) = inr r
       /\ isArray (tags r) = true /\ isArray (dates r) = true
       /\ isArray (contacts r) = true /\ isNumber (confidence r) = true.
Proof.
  split.
  - eexists. split; [vm_compute; reflexivity|]. split; reflexivity.
  - intros props. rewrite sanitize_object. eexists. split; [reflexivity|].
    simpl. unfold arrayOrEmpty, clampConfidence.
    repeat split;
      match goal with
      | |- context [field props ?k] => destruct (field props k); reflexivity
      end.
Qed.

(** C2, at the replies [{"category": 5}] and [{"category": "todo",
    "content": 5}]: the formatting stage throws the TypeError of a method
    call on a number. *)
Theorem format_throws_on_number :
  processReply (Some (dq "{'category': 5}")) = inl (Fault NotAFunction)
  /\ processReply (Some (dq "{'category': 'todo', 'content': 5}"))
     = inl (Fault NotAFunction).
Proof. split; vm_compute; reflexivity. Qed.

Lemma clamp_bounds (q : Q) :
  (0 <= Math_max 0 (Math_min 1 q) <= 1)%Q
  /\ ((0 <= q <= 1)%Q -> (Math_max 0 (Math_min 1 q) == q)%Q)
  /\ ((q < 0)%Q -> Math_max 0 (Math_min 1 q) = 0%Q)
  /\ ((1 < q)%Q -> Math_max 0 (Math_min 1 q) = 1%Q).
Proof.
  unfold Math_max, Math_min.
  destruct (Qle_bool 1 q) eqn:E1.
  - apply Qle_bool_iff in E1. cbn.
    split; [split; lra|]. split; [intros; lra|].
    split; intros; [lra|reflexivity].
  - assert (H1 : (q < 1)%Q).
    { apply Qnot_le_lt. intros H. apply Qle_bool_iff in H. congruence. }
    destruct (Qle_bool q 0) eqn:E0.
    + apply Qle_bool_iff in E0.
      split; [split; lra|]. split; [intros; lra|].
      split; intros; [reflexivity|lra].
    + assert (H0 : (0 < q)%Q).
      { apply Qnot_le_lt. intros H. apply Qle_bool_iff in H. congruence. }
      split; [split; lra|]. split; [intros; reflexivity|].
      split; intros; lra.
Qed.

(** C4: whatever number the reply gives as [confidence], the sanitized
    confidence is that number clamped into [0, 1] (itself inside the
    interval, 0 below it, 1 above it); whatever else it gives, or nothing,
    the sanitized confidence is 0.8; so -5, 0.5 and 2.3 become 0, 0.5
    and 1. *)
Theorem confidence_clamping :
  (forall props, exists r,
      sanitize (VObj props) = inr r
      /\ match field props "confidence" with
         | VNum q =>
             exists q', confidence r = VNum q'
                        /\ (0 <= q' <= 1)%Q
                        /\ ((0 <= q <= 1)%Q -> (q' == q)%Q)
                        /\ ((q < 0)%Q -> q' = 0%Q)
                        /\ ((1 < q)%Q -> q' = 1%Q)
         | _ => confidence r = VNum 0.8
         end)
  /\ (exists r, sanitizeReply (Some (dq "{'confidence': -5}")) = inr r
                /\ confidence r = VNum 0)
  /\ (exists r, sanitizeReply (Some (dq "{'confidence': 0.5}")) = inr r
                /\ confidence r = VNum 0.5)
  /\ (exists r, sanitizeReply (Some (dq "{'confidence': 2.3}")) = inr r
                /\ confidence r = VNum 1)
  /\ (exists r, sanitizeReply (Some (dq "{'confidence': 'high'}")) = inr r
                /\ confidence r = VNum 0.8).
Proof.
  split.
  { intros props. rewrite sanitize_object. eexists. split; [reflexivity|].
    simpl. destruct (field props "confidence"); try reflexivity.
    eexists. split; [reflexivity|]. apply clamp_bounds. }
  repeat split; eexists; (split; [vm_compute; reflexivity|reflexivity]).
Qed.

Lemma confidence_clamping_witness :
  exists r, sanitize (VObj [(lit "confidence", VNum 2.3)]) = inr r
            /\ confidence r = VNum 1.
Proof.
  destruct confidence_clamping as [H _].
  destruct (H [(lit "confidence", VNum 2.3)]) as (r & Hr & Hc).
  exists r. split; [exact Hr|].
  change (field [(lit "confidence", VNum 2.3)] "confidence")
    with (VNum 2.3) in Hc.
  destruct Hc as (q' & -> & _ & _ & _ & Hhigh).
  f_equal. apply Hhigh. reflexivity.
Defined.

Lemma JSON_parse_error (text : jsstring) (e : exn) :
  JSON_parse text = inl e -> e = Fault JsonSyntax.
Proof.
  unfold JSON_parse.
  destruct (parseValue _ _) as [v rest| |]; try (intros [= <-]; reflexivity).
  destruct (skipSpace rest); [discriminate|intros [= <-]; reflexivity].
Qed.

(** The extraction step by cases of the reply. *)
Lemma parseResponse_cases (responseText : option jsstring) :
  match responseText with
  | None | Some [] =>
      parseResponse responseText
      = inl (Error (Text (lit "Empty response from AI service")))
  | Some text =>
      match matchJson text with
      | None =>
          ~ braced text
          /\ exists e, parseResponse responseText = inl e
                       /\ UpstreamFormatError e
      | Some m =>
          broadest text m
          /\ match JSON_parse m with
             | inl _ => exists e, parseResponse responseText = inl e
                                  /\ UpstreamFormatError e
             | inr v => parseResponse responseText = inr v
                        /\ exists props, v = VObj props
             end
      end
  end.
Proof.
  destruct responseText as [[|c text]|]; try reflexivity.
  unfold parseResponse.
  destruct (matchJson (c :: text)) as [m|] eqn:E.
  - pose proof (matchJson_some _ E) as B. split; [exact B|].
    destruct (JSON_parse m) as [e|v] eqn:P.
    + apply JSON_parse_error in P as ->.
      eexists. split; [reflexivity|]. right. now eexists.
    + split; [reflexivity|].
      destruct B as (_ & mid & _ & _ & -> & _). eapply JSON_parse_object, P.
  - split; [now apply matchJson_none|].
    eexists. split; [reflexivity|]. right. now eexists.
Qed.

(** C7: the sanitizer fails, with one of the two errors the specification
    files under UpstreamFormatError, exactly when the reply is absent or
    empty, holds no substring from an opening to a closing brace, or holds
    one whose broadest instance is no JSON text; otherwise it parses that
    broadest substring (first opening brace to last closing brace), which
    is an object, and coerces it to a record.  The reply with prose around
    [{"title":"X"}] yields the title X and every other field at its
    default; the reply without braces fails. *)
Theorem sanitize_extraction :
  (exists e, sanitizeReply None = inl e /\ UpstreamFormatError e)
  /\ (exists e, sanitizeReply (Some []) = inl e /\ UpstreamFormatError e)
  /\ (forall text, text <> [] -> ~ braced text ->
        exists e, sanitizeReply (Some text) = inl e /\ UpstreamFormatError e)
  /\ (forall text, text <> [] -> braced text ->
        exists m, broadest text m
          /\ matchJson text = Some m
          /\ match JSON_parse m with
             | inl _ => exists e, sanitizeReply (Some text) = inl e
                                  /\ UpstreamFormatError e
             | inr v => exists props r,
                          v = VObj props
                          /\ sanitize (VObj props) = inr r
                          /\ sanitizeReply (Some text) = inr r
             end)
  /\ (forall text m m', broadest text m -> broadest text m' -> m = m')
  /\ matchJson (lit "Here is the result:" ++ LF :: dq "{'title':'X'}"
                ++ LF :: lit "Thanks!")
     = Some (dq "{'title':'X'}")
  /\ sanitizeReply (Some (lit "Here is the result:" ++ LF
                          :: dq "{'title':'X'}" ++ LF :: lit "Thanks!"))
     = inr {| title := VStr (lit "X");
              content := VStr [];
              category := VStr (lit "note");
              tags := VArr []; dates := VArr []; contacts := VArr [];
              confidence := VNum 0.8;
              raw_text := VStr [] |}
  /\ (exists e, sanitizeReply (Some (lit "no braces here")) = inl e
                /\ UpstreamFormatError e).
Proof.
  split; [eexists; split; [reflexivity|now left]|].
  split; [eexists; split; [reflexivity|now left]|].
  split.
  { intros text Hne Hnb. pose proof (parseResponse_cases (Some text)) as H.
    destruct text as [|c text]; [congruence|].
    destruct (matchJson (c :: text)) as [m|].
    - destruct H as [B _]. now apply broadest_braced in B.
    - destruct H as (_ & e & He & Hu). exists e. unfold sanitizeReply.
      rewrite He. auto. }
  split.
  { intros text Hne Hb. pose proof (parseResponse_cases (Some text)) as H.
    destruct text as [|c text]; [congruence|].
    destruct (matchJson (c :: text)) as [m|]; [|now destruct H].
    destruct H as [B H]. exists m. split; [exact B|]. split; [reflexivity|].
    destruct (JSON_parse m) as [e|v].
    - destruct H as (e' & He & Hu). exists e'. unfold sanitizeReply.
      rewrite He. auto.
    - destruct H as (He & props & ->). exists props. eexists.
      split; [reflexivity|]. split; [apply sanitize_object|].
      unfold sanitizeReply. rewrite He. apply sanitize_object. }
  split; [apply broadest_unique|].
  split; [vm_compute; reflexivity|].
  split; [vm_compute; reflexivity|].
  eexists. split; [vm_compute; reflexivity|]. right. now eexists.
Qed.

Lemma sanitize_extraction_witness :
  (exists e, sanitizeReply (Some (lit "no braces here")) = inl e
             /\ UpstreamFormatError e)
  /\ exists m, broadest (lit "so {" ++ dq "'title':'X'} and } so on") m
               /\ matchJson (lit "so {" ++ dq "'title':'X'} and } so on")
                  = Some m.
Proof.
  destruct sanitize_extraction as (_ & _ & Hnone & Hsome & _).
  split.
  - apply Hnone; [discriminate|].
    apply matchJson_none. reflexivity.
  - destruct (Hsome (lit "so {" ++ dq "'title':'X'} and } so on"))
      as (m & B & M & _).
    + discriminate.
    + exists (lit "so "), (dq "'title':'X'} and "), (lit " so on").
      reflexivity.
    + exists m. split; assumption.
Defined.

(** C8, as stated, fails: with [raw_text] the empty string and [content]
    ["abc"], the sanitized raw text is ["abc"], not the empty string the
    reply gave. *)
Lemma empty_raw_text_falls_back :
  exists r,
    sanitizeReply (Some (dq "{'raw_text': '', 'content': 'abc'}")) = inr r
    /\ raw_text r = VStr (lit "abc")
    /\ raw_text r <> VStr [].
Proof.
  eexists. split; [vm_compute; reflexivity|].
  split; [reflexivity|discriminate].
Qed.

(** C8 (amended): the sanitized raw text equals the reply's [raw_text]
    whenever that is a NON-EMPTY string; when [raw_text] is absent, null,
    false, zero or the empty string it equals the already-resolved content,
    which is the empty string when [content] is of that kind too.  The
    default of raw text therefore depends on the content field: two replies
    that differ in [content] alone get different raw texts.  Each of the
    seven other fields is settled by the reply's field of the same name
    alone, and raw text by [raw_text] and [content] together. *)
Theorem raw_text_coercion :
  (forall props, exists r,
      sanitize (VObj props) = inr r
      /\ (forall c s, field props "raw_text" = VStr (c :: s) ->
                      raw_text r = VStr (c :: s))
      /\ (truthy (field props "raw_text") = false ->
          raw_text r = content r)
      /\ (truthy (field props "raw_text") = false ->
          truthy (field props "content") = false ->
          raw_text r = VStr []))
  /\ (exists r, sanitizeReply (Some (dq "{'content': 'a'}")) = inr r
                /\ raw_text r = VStr (lit "a"))
  /\ (exists r, sanitizeReply (Some (dq "{'content': 'b'}")) = inr r
                /\ raw_text r = VStr (lit "b"))
  /\ (forall props props', exists r r',
        sanitize (VObj props) = inr r /\ sanitize (VObj props') = inr r'
        /\ (field props "title" = field props' "title" ->
            title r = title r')
        /\ (field props "content" = field props' "content" ->
            content r = content r')
        /\ (field props "category" = field props' "category" ->
            category r = category r')
        /\ (field props "tags" = field props' "tags" -> tags r = tags r')
        /\ (field props "dates" = field props' "dates" ->
            dates r = dates r')
        /\ (field props "contacts" = field props' "contacts" ->
            contacts r = contacts r')
        /\ (field props "confidence" = field props' "confidence" ->
            confidence r = confidence r')
        /\ (field props "raw_text" = field props' "raw_text" ->
            field props "content" = field props' "content" ->
            raw_text r = raw_text r')).
Proof.
  split.
  { intros props. rewrite sanitize_object. eexists. split; [reflexivity|].
    simpl. unfold orElse. split; [|split].
    - intros c s ->. reflexivity.
    - intros ->. reflexivity.
    - intros -> ->. reflexivity. }
  split; [eexists; split; [vm_compute; reflexivity|reflexivity]|].
  split; [eexists; split; [vm_compute; reflexivity|reflexivity]|].
  intros props props'. rewrite !sanitize_object. do 2 eexists.
  split; [reflexivity|]. split; [reflexivity|]. cbn [title content category
    tags dates contacts confidence raw_text].
  repeat split; congruence.
Qed.

Lemma raw_text_coercion_witness :
  (exists r, sanitize (VObj [(lit "raw_text", VStr (lit "as read"));
                             (lit "content", VStr (lit "tidied"))]) = inr r
             /\ raw_text r = VStr (lit "as read"))
  /\ (exists r, sanitize (VObj [(lit "raw_text", VNull);
                                (lit "content", VStr (lit "tidied"))]) = inr r
                /\ raw_text r = content r)
  /\ (exists r, sanitize (VObj []) = inr r /\ raw_text r = VStr [])
  /\ (exists r r',
        sanitize (VObj [(lit "title", VStr (lit "A"));
                        (lit "content", VStr (lit "one"))]) = inr r
        /\ sanitize (VObj [(lit "title", VStr (lit "A"));
                           (lit "content", VStr (lit "two"))]) = inr r'
        /\ title r = title r').
Proof.
  destruct raw_text_coercion as (H & _ & _ & I).
  split; [|split; [|split]].
  - destruct (H [(lit "raw_text", VStr (lit "as read"));
                 (lit "content", VStr (lit "tidied"))]) as (r & Hr & Hs & _).
    exists r. split; [exact Hr|]. apply (Hs 97%N (lit "s read")). reflexivity.
  - destruct (H [(lit "raw_text", VNull);
                 (lit "content", VStr (lit "tidied"))]) as (r & Hr & _ & Hf & _).
    exists r. split; [exact Hr|]. apply Hf. reflexivity.
  - destruct (H []) as (r & Hr & _ & _ & He).
    exists r. split; [exact Hr|]. apply He; reflexivity.
  - destruct (I [(lit "title", VStr (lit "A"));
                 (lit "content", VStr (lit "one"))]
                [(lit "title", VStr (lit "A"));
                 (lit "content", VStr (lit "two"))])
      as (r & r' & Hr & Hr' & Ht & _).
    exists r, r'. split; [exact Hr|]. split; [exact Hr'|].
    apply Ht. reflexivity.
Defined.

(* ===================================================================== *)
(** ** The REST handler and the MCP tool *)
(* ===================================================================== *)

Lemma pipeline_starts_with_call (w : World) (imageData : jsstring)
  (options : value) :
  exists rest o,
    processHandwrittenNote w imageData options
    = (PipelineCall imageData options :: rest, o).
Proof.
  unfold processHandwrittenNote, bindE at 1, emit.
  match goal with
  | |- context [let (log', r) := ?t in _] => destruct t as [log' r]
  end.
  now exists log', r.
Qed.

Lemma storeAndProcess_response (w : World) (imageData options : value)
  (log : list Event) (response : Response) :
  storeAndProcess w imageData options = (log, inr response) ->
  exists result,
    response = {| status := 200; body := SuccessBody result (elapsed w) |}.
Proof.
  unfold storeAndProcess, bindE, liftE, emit, pureE, throwE.
  destruct (stringReceiver imageData) as [e|data]; [discriminate|].
  destruct (atob (argString (payloadOf data))) as [e|buf]; [discriminate|].
  destruct (r2Put w) as [e|]; [discriminate|].
  destruct (processHandwrittenNote w data options) as [log' [e|result]];
    [discriminate|].
  intros [= _ <-]. now exists result.
Qed.

Lemma catchBlock_reports_time (w : World) (e : exn) :
  reportedTime (catchBlock w e) = Some (elapsed w)
  /\ ((status (catchBlock w e) = 429%N
       /\ isErrorResponse (catchBlock w e) = true)
      \/ (status (catchBlock w e) = 500%N
          /\ exists d, body (catchBlock w e)
                       = ErrorBody (lit "Failed to process image") (Some d)
                           (Some (elapsed w)))).
Proof.
  unfold catchBlock. destruct e as [m|].
  - destruct (includes _ _); (split; [reflexivity|]);
      [left; split; reflexivity|right; split; [reflexivity|now eexists]].
  - split; [reflexivity|]. right. split; [reflexivity|now eexists].
Qed.

Lemma fromMultipart_early (req : Request) (response : Response) :
  fromMultipart req = inr (inl response) ->
  exists msg, response = badRequest msg.
Proof.
  unfold fromMultipart, bindR.
  destruct (formData req) as [e|form]; [discriminate|].
  destruct (formImage form) as [|[|c s]|file].
  - intros [= <-]. now eexists.
  - intros [= <-]. now eexists.
  - intros [= <-]. now eexists.
  - destruct (MAX_SIZE <? size file)%N; [intros [= <-]; now eexists|].
    destruct (startsWith (type file) (lit "image/")); simpl;
      [|intros [= <-]; now eexists].
    destruct (btoa _) as [e|base64]; [discriminate|].
    destruct (formOptions form) as [|[|c s]|f]; try discriminate.
    destruct (JSON_parse (c :: s)); [intros [= <-]; now eexists|discriminate].
Qed.

Lemma fromJson_early (req : Request) (response : Response) :
  fromJson req = inr (inl response) ->
  response = badRequest "No image data provided".
Proof.
  unfold fromJson, bindR.
  destruct (json req) as [e|body_]; [discriminate|].
  destruct (getProp body_ (lit "image")) as [e|image]; [discriminate|].
  destruct (truthy image); simpl; [|intros [= <-]; reflexivity].
  destruct (getProp body_ (lit "options")); discriminate.
Qed.

(** Reading a property of a value that has properties never throws. *)
Lemma getProp_defined (v : value) (k k' : jsstring) (x : value) :
  getProp v k = inr x -> exists x', getProp v k' = inr x'.
Proof. destruct v; simpl; try discriminate; intros _; now eexists. Qed.

Lemma tryBlock_with_key (w : World) (req : Request) (k : jsstring) :
  nonEmpty (GOOGLE_GEMINI_API_KEY w) = Some k ->
  tryBlock w req =
  match (if isMultipart req then fromMultipart req else fromJson req) with
  | inl e => ([], inl e)
  | inr (inl response) => ([], inr response)
  | inr (inr (imageData, options)) => storeAndProcess w imageData options
  end.
Proof.
  intros K. unfold tryBlock. rewrite K. unfold bindE, liftE.
  destruct (if isMultipart req then fromMultipart req else fromJson req)
    as [e|[early|[imageData options]]]; try reflexivity.
  now destruct (storeAndProcess w imageData options).
Qed.

(** C9, as stated, fails: the response to a JSON body without an image is
    an error response (status 400) that reports no processing time. *)
Lemma bad_request_reports_no_time :
  snd (processNote exampleWorld (jsonRequest (VObj [])))
  = badRequest "No image data provided"
  /\ isErrorResponse (snd (processNote exampleWorld (jsonRequest (VObj []))))
     = true
  /\ reportedTime (snd (processNote exampleWorld (jsonRequest (VObj []))))
     = None.
Proof. repeat split. Qed.

(** C9 (amended): every response of the endpoint is one of five kinds.
    The success response and the two error responses built in the catch
    block (429 for a quota failure, 500 "Failed to process image" for any
    other failure thrown while processing) report the elapsed time; the
    error responses returned before processing starts (the 400 responses
    of input validation and the 500 response for a missing API key) carry
    the error message alone, without a processing time. *)
Theorem error_responses_and_time (w : World) (req : Request) :
  let response := snd (processNote w req) in
  (status response = 200%N
   /\ exists result, body response = SuccessBody result (elapsed w))
  \/ (status response = 429%N
      /\ isErrorResponse response = true
      /\ reportedTime response = Some (elapsed w))
  \/ (status response = 500%N
      /\ exists d, body response
                   = ErrorBody (lit "Failed to process image") (Some d)
                       (Some (elapsed w)))
  \/ (status response = 500%N
      /\ nonEmpty (GOOGLE_GEMINI_API_KEY w) = None
      /\ body response
         = ErrorBody (lit "Google Gemini API key not configured") None None)
  \/ (status response = 400%N
      /\ exists msg, body response = ErrorBody msg None None).
Proof.
  cbv zeta. unfold processNote.
  destruct (tryBlock w req) as [log [e|response]] eqn:T; simpl.
  - destruct (catchBlock_reports_time w e) as [Ht [[Hs He]|[Hs Hb]]].
    + right; left. auto.
    + right; right; left. auto.
  - destruct (nonEmpty (GOOGLE_GEMINI_API_KEY w)) as [k|] eqn:K.
    + rewrite (tryBlock_with_key w req K) in T.
      destruct (if isMultipart req then fromMultipart req else fromJson req)
        as [e|[early|[imageData options]]] eqn:N; [discriminate| |].
      * injection T as _ <-.
        assert (exists msg, early = badRequest msg) as [msg ->].
        { destruct (isMultipart req).
          - eapply fromMultipart_early, N.
          - eexists. eapply fromJson_early, N. }
        do 4 right. split; [reflexivity|now eexists].
      * apply storeAndProcess_response in T as [result ->].
        left. split; [reflexivity|now eexists].
    + unfold tryBlock in T. rewrite K in T. injection T as _ <-.
      do 3 right; left. auto.
Qed.

(** C6, at the JSON body [{"image": "data:text/plain;base64,aGk="}]: the
    declared type is not an image, yet the request is not refused; the
    payload is stored, the pipeline runs and the model is called with the
    MIME type [text/plain]. *)
Theorem json_body_skips_image_validation :
  exists log result,
    processNote exampleWorld
      (jsonRequest (imageBody "data:text/plain;base64,aGk="))
    = (log, {| status := 200; body := SuccessBody result 250 |})
    /\ In (PipelineCall (lit "data:text/plain;base64,aGk=") (VObj [])) log
    /\ In (GenerateContent
             {| categoryHints := None; extractDates := true;
                extractContacts := false |}
             (Some (lit "text/plain")) (Some (lit "aGk="))) log.
Proof.
  eexists. eexists. split; [vm_compute; reflexivity|].
  split; [right; left; reflexivity|right; right; left; reflexivity].
Qed.

(** C10, as stated, fails: on the JSON path the non-empty image string
    ["plain,@@@@"] is not forwarded to the pipeline; decoding it for the
    temporary store throws, and the request ends in the catch block with
    nothing called. *)
Lemma undecodable_image_stops_before_pipeline :
  fst (processNote exampleWorld (jsonRequest (imageBody "plain,@@@@"))) = []
  /\ status (snd (processNote exampleWorld
                    (jsonRequest (imageBody "plain,@@@@")))) = 500%N.
Proof. split; reflexivity. Qed.

(** C10 (amended): the MCP tool refuses every image string that does not
    start with ["data:image/"] with an error-flagged result and calls
    nothing.  The JSON path of the REST endpoint has no prefix, MIME or
    size check: a non-empty image string is never answered with a 400, and
    it is handed to the temporary store and then, unchanged, to the
    pipeline WHENEVER the text after its first comma decodes as base64 and
    the store accepts it. *)
Theorem image_checks_by_interface :
  (forall w image hints dates_ contacts_,
      startsWith image (lit "data:image/") = false ->
      fst (mcpTool w image hints dates_ contacts_) = []
      /\ isError (snd (mcpTool w image hints dates_ contacts_)) = true)
  /\ (forall w req body_ image k,
        nonEmpty (GOOGLE_GEMINI_API_KEY w) = Some k ->
        isMultipart req = false ->
        json req = inr body_ ->
        getProp body_ (lit "image") = inr (VStr image) ->
        image <> [] ->
        status (snd (processNote w req)) <> 400%N
        /\ forall buf,
             atob (argString (payloadOf image)) = inr buf ->
             r2Put w = None ->
             exists options rest,
               fst (processNote w req)
               = R2Put (lit "temp/" ++ randomUUID w) buf (mimeTypeOf image)
                   :: PipelineCall image options :: rest).
Proof.
  split.
  { intros w image hints d c H. unfold mcpTool.
    destruct (nonEmpty (GOOGLE_GEMINI_API_KEY w)); [|split; reflexivity].
    rewrite H. split; reflexivity. }
  intros w req body_ image k K M J I Hne.
  assert (T : exists options,
             tryBlock w req = storeAndProcess w (VStr image) options).
  { rewrite (tryBlock_with_key w req K), M. unfold fromJson, bindR.
    rewrite J, I.
    destruct image as [|c image]; [congruence|]. simpl.
    destruct (getProp_defined body_ (lit "image") (lit "options") I)
      as [o ->].
    now eexists. }
  destruct T as [options T]. split.
  - unfold processNote. rewrite T.
    destruct (storeAndProcess w (VStr image) options) as [log [e|r]] eqn:S.
    + simpl. destruct (catchBlock_reports_time w e) as [_ [[-> _]|[-> _]]];
        discriminate.
    + apply storeAndProcess_response in S as [result ->]. discriminate.
  - intros buf A P. exists options.
    unfold processNote. rewrite T.
    unfold storeAndProcess, bindE, liftE, emit, pureE, throwE.
    simpl stringReceiver. cbv iota beta. rewrite A, P.
    destruct (pipeline_starts_with_call w image options) as (rest & o & ->).
    destruct o as [e|result]; simpl; now eexists.
Qed.

Lemma image_checks_by_interface_witness :
  fst (mcpTool exampleWorld (lit "data:text/plain;base64,aGk=")
         None true false) = []
  /\ exists options rest,
       fst (processNote exampleWorld
              (jsonRequest (imageBody "data:text/plain;base64,aGk=")))
       = R2Put (lit "temp/0000") (lit "hi") (Some (lit "text/plain"))
           :: PipelineCall (lit "data:text/plain;base64,aGk=") options
           :: rest.
Proof.
  destruct image_checks_by_interface as [Hmcp Hrest].
  split.
  - apply (Hmcp exampleWorld (lit "data:text/plain;base64,aGk=")).
    reflexivity.
  - destruct (Hrest exampleWorld
                (jsonRequest (imageBody "data:text/plain;base64,aGk="))
                (imageBody "data:text/plain;base64,aGk=")
                (lit "data:text/plain;base64,aGk=") (lit "key"))
      as [_ H]; try reflexivity; [discriminate|].
    apply (H (lit "hi")); reflexivity.
Defined.

(* ===================================================================== *)
(** ** Further properties of the two entry points *)
(* ===================================================================== *)

Section Multipart.
Variables (w : World) (req : Request) (form : Form) (k : jsstring).
Hypothesis key_set : nonEmpty (GOOGLE_GEMINI_API_KEY w) = Some k.
Hypothesis multipart : isMultipart req = true.
Hypothesis parsed_form : formData req = inr form.

Lemma multipart_early (response : Response) :
  fromMultipart req = inr (inl response) ->
  processNote w req = ([], response).
Proof.
  intros H. unfold processNote.
  rewrite (tryBlock_with_key w req key_set), multipart, H. reflexivity.
Qed.

(** X1: the multipart branch validates the upload (lines 70-89): a missing
    image, a text field in place of the file, a declared size above
    10 MiB and a declared type outside [image/] are each answered with a
    400 and nothing is called; a size of exactly 10 MiB is not refused
    for its size. *)
Theorem multipart_validation :
  (formImage form = NoEntry \/ formImage form = TextEntry [] ->
   processNote w req = ([], badRequest "No image file provided"))
  /\ (forall c s, formImage form = TextEntry (c :: s) ->
        processNote w req = ([], badRequest "Invalid file format"))
  /\ (forall file, formImage form = FileEntry file ->
        (10485760 < size file)%N ->
        processNote w req
        = ([], badRequest "Image file too large. Maximum size is 10MB"))
  /\ (forall file, formImage form = FileEntry file ->
        (size file <= 10485760)%N ->
        startsWith (type file) (lit "image/") = false ->
        processNote w req
        = ([], badRequest "Invalid file type. Only image files are allowed"))
  /\ (forall file, formImage form = FileEntry file ->
        (size file <= 10485760)%N ->
        snd (processNote w req)
        <> badRequest "Image file too large. Maximum size is 10MB").
Proof.
  split; [|split; [|split; [|split]]].
  - intros H. apply multipart_early. unfold fromMultipart.
    rewrite parsed_form. unfold bindR. destruct H as [-> | ->]; reflexivity.
  - intros c s H. apply multipart_early. unfold fromMultipart.
    rewrite parsed_form. unfold bindR. rewrite H. reflexivity.
  - intros file H Hbig. apply multipart_early. unfold fromMultipart.
    rewrite parsed_form. unfold bindR. rewrite H.
    change MAX_SIZE with 10485760%N.
    destruct (N.ltb_spec 10485760 (size file)); [reflexivity|lia].
  - intros file H Hsmall Htype. apply multipart_early. unfold fromMultipart.
    rewrite parsed_form. unfold bindR. rewrite H.
    change MAX_SIZE with 10485760%N.
    destruct (N.ltb_spec 10485760 (size file)); [lia|].
    rewrite Htype. reflexivity.
  - intros file H Hsmall.
    unfold processNote. rewrite (tryBlock_with_key w req key_set), multipart.
    unfold fromMultipart. rewrite parsed_form. unfold bindR. rewrite H.
    change MAX_SIZE with 10485760%N.
    destruct (N.ltb_spec 10485760 (size file)); [lia|].
    destruct (startsWith (type file) (lit "image/")); cbn [negb];
      [|discriminate].
    destruct (btoa _) as [e|base64]; cbn [snd].
    { destruct (catchBlock_reports_time w e) as [_ [[E _]|[E _]]];
        intros F; rewrite F in E; discriminate. }
    assert (S : forall i o,
               snd (match storeAndProcess w i o with
                    | (log, inr response) => (log, response)
                    | (log, inl error) => (log, catchBlock w error)
                    end)
               <> badRequest "Image file too large. Maximum size is 10MB").
    { intros i o. destruct (storeAndProcess w i o) as [log [e|r]] eqn:S.
      - simpl. destruct (catchBlock_reports_time w e) as [_ [[E _]|[E _]]];
          intros F; rewrite F in E; discriminate.
      - apply storeAndProcess_response in S as [result ->]. discriminate. }
    destruct (formOptions form) as [|[|c s]|f]; try apply S.
    destruct (JSON_parse (c :: s)); [discriminate|apply S].
Qed.

End Multipart.

Lemma multipart_validation_witness :
  processNote exampleWorld
    (multipartRequest (upload 10485761 "image/png" (zeros 10485761)))
  = ([], badRequest "Image file too large. Maximum size is 10MB")
  /\ snd (processNote exampleWorld
            (multipartRequest (upload 10485760 "image/png" (zeros 10485760))))
     <> badRequest "Image file too large. Maximum size is 10MB"
  /\ processNote exampleWorld
       (multipartRequest (upload 2 "text/plain" [Byte.x68; Byte.x69]))
     = ([], badRequest "Invalid file type. Only image files are allowed")
  /\ processNote exampleWorld (multipartRequest emptyForm)
     = ([], badRequest "No image file provided").
Proof.
  split; [|split; [|split]].
  - destruct (@multipart_validation exampleWorld
                (multipartRequest (upload 10485761 "image/png" (zeros 10485761)))
                (upload 10485761 "image/png" (zeros 10485761)) (lit "key")
                eq_refl eq_refl eq_refl) as (_ & _ & H & _).
    apply (H _ eq_refl). reflexivity.
  - destruct (@multipart_validation exampleWorld
                (multipartRequest (upload 10485760 "image/png" (zeros 10485760)))
                (upload 10485760 "image/png" (zeros 10485760)) (lit "key")
                eq_refl eq_refl eq_refl) as (_ & _ & _ & _ & H).
    apply (H _ eq_refl). discriminate.
  - destruct (@multipart_validation exampleWorld
                (multipartRequest (upload 2 "text/plain" [Byte.x68; Byte.x69]))
                (upload 2 "text/plain" [Byte.x68; Byte.x69]) (lit "key")
                eq_refl eq_refl eq_refl) as (_ & _ & _ & H & _).
    apply (H _ eq_refl); [discriminate|reflexivity].
  - destruct (@multipart_validation exampleWorld
                (multipartRequest emptyForm) emptyForm (lit "key")
                eq_refl eq_refl eq_refl) as (H & _).
    apply H. now left.
Defined.



(** X3: a well-formed upload reaches the store and the pipeline intact (lines
    91-136): the bucket receives exactly the bytes of the file, decoded
    back from the data URL the branch built, and the pipeline receives
    that data URL. *)
Theorem multipart_upload_is_stored (w : World) (req : Request) (form : Form)
  (file : File) (options : value) (k : jsstring) :
  nonEmpty (GOOGLE_GEMINI_API_KEY w) = Some k ->
  isMultipart req = true ->
  formData req = inr form ->
  formImage form = FileEntry file ->
  (size file <= 10485760)%N ->
  startsWith (type file) (lit "image/") = true ->
  ~ In COMMA (type file) ->
  match formOptions form with
  | TextEntry (c :: s) => JSON_parse (c :: s)
  | _ => inr (VObj [])
  end = inr options ->
  r2Put w = None ->
  exists rest,
    fst (processNote w req)
    = R2Put (lit "temp/" ++ randomUUID w) (binaryString (bytes file))
        (mimeTypeOf (dataUrl file))
        :: PipelineCall (dataUrl file) options :: rest.
Proof.
  intros K M F I Hsize Htype Hcomma Hopt P.
  assert (T : tryBlock w req = storeAndProcess w (VStr (dataUrl file)) options).
  { rewrite (tryBlock_with_key w req K), M. unfold fromMultipart, bindR.
    rewrite F, I. change MAX_SIZE with 10485760%N.
    destruct (N.ltb_spec 10485760 (size file)); [lia|].
    rewrite Htype. cbn [negb]. unfold btoa.
    rewrite (proj2 (forallb_forall _ _)).
    2:{ intros x Hx. apply N.leb_le.
        exact (proj1 (Forall_forall _ _) (binaryString_bytes (bytes file)) x Hx). }
    fold (dataUrl file).
    destruct (formOptions form) as [|[|c s]|f];
      try (injection Hopt as <-; reflexivity).
    rewrite Hopt. reflexivity. }
  unfold processNote. rewrite T.
  unfold storeAndProcess, bindE, liftE, emit, pureE, throwE.
  simpl stringReceiver. cbv iota beta.
  rewrite (payloadOf_dataUrl file Hcomma). cbn [argString].
  rewrite (atob_encodeBytes (binaryString_bytes (bytes file))), P.
  destruct (pipeline_starts_with_call w (dataUrl file) options)
    as (rest & o & ->).
  destruct o as [e|result]; simpl; now eexists.
Qed.

Lemma multipart_upload_is_stored_witness :
  exists rest,
    fst (processNote exampleWorld (multipartRequest smallUpload))
    = R2Put (lit "temp/0000") (lit "hi") (Some (lit "image/png"))
        :: PipelineCall (lit "data:image/png;base64,aGk=") (VObj []) :: rest.
Proof.
  refine (@multipart_upload_is_stored exampleWorld
            (multipartRequest smallUpload) smallUpload
            {| size := 2; type := lit "image/png";
               bytes := [Byte.x68; Byte.x69] |}
            (VObj []) (lit "key")
            eq_refl eq_refl eq_refl eq_refl _ eq_refl _ eq_refl eq_refl).
  - discriminate.
  - cbv. intuition discriminate.
Defined.

(* ===================================================================== *)
(** ** The order of effects *)
(* ===================================================================== *)

(** The pipeline enters, and then either throws while it reads the options
    or calls the model once, with the type and payload cut from the image
    string, and returns what post-processing makes of the answer. *)
Lemma pipeline_trace (w : World) (image : jsstring) (options : value) :
  (exists e,
      processHandwrittenNote w image options
      = ([PipelineCall image options], inl e))
  \/ (exists p,
        processHandwrittenNote w image options
        = ([PipelineCall image options;
            GenerateContent p (mimeTypeOf image) (payloadOf image)],
           bindR (generateContent w) processReply)).
Proof.
  unfold processHandwrittenNote, bindE, liftE, emit.
  destruct (getProp options (lit "extract_dates")) as [e|d];
    [left; now eexists|].
  destruct (getProp options (lit "extract_contacts")) as [e|c];
    [left; now eexists|].
  destruct (getProp options (lit "category_hints")) as [e|h];
    [left; now eexists|].
  destruct (hintsOf h) as [e|hs]; [left; now eexists|].
  right. eexists.
  destruct (generateContent w) as [e|text]; reflexivity.
Qed.

Lemma storeAndProcess_trace (w : World) (imageData options : value) :
  let run := storeAndProcess w imageData options in
  (fst run = [] /\ exists e, snd run = inl e)
  \/ exists data buf,
       imageData = VStr data
       /\ atob (argString (payloadOf data)) = inr buf
       /\ let put := R2Put (lit "temp/" ++ randomUUID w) buf (mimeTypeOf data) in
          (exists e, r2Put w = Some e /\ run = ([put], inl e))
          \/ (r2Put w = None
              /\ exists e, run = ([put; PipelineCall data options], inl e))
          \/ (r2Put w = None
              /\ exists p,
                   fst run = [put; PipelineCall data options;
                              GenerateContent p (mimeTypeOf data)
                                (payloadOf data)]
                   /\ match bindR (generateContent w) processReply with
                      | inl e => snd run = inl e
                      | inr result =>
                          snd run
                          = inr {| status := 200;
                                   body := SuccessBody result (elapsed w) |}
                      end).
Proof.
  cbv zeta. unfold storeAndProcess, bindE, liftE, emit, pureE, throwE.
  destruct imageData as [| | | |data| |];
    try (left; split; [reflexivity|now eexists]).
  cbn [stringReceiver].
  destruct (atob (argString (payloadOf data))) as [e|buf] eqn:A;
    [left; split; [reflexivity|now eexists]|].
  right. exists data, buf. split; [reflexivity|]. split; [exact A|].
  destruct (r2Put w) as [e|]; [left; now exists e|].
  right.
  destruct (pipeline_trace w data options) as [[e ->]|[p ->]].
  - left. split; [reflexivity|]. now exists e.
  - right. split; [reflexivity|]. exists p.
    destruct (bindR (generateContent w) processReply); split; reflexivity.
Qed.

(** A request either ends before anything is done, or reaches the store
    with the image and options the branch normalized. *)
Lemma processNote_cases (w : World) (req : Request) :
  (fst (processNote w req) = []
   /\ status (snd (processNote w req)) <> 200%N)
  \/ exists imageData options,
       tryBlock w req = storeAndProcess w imageData options.
Proof.
  destruct (nonEmpty (GOOGLE_GEMINI_API_KEY w)) as [k|] eqn:K.
  - unfold processNote. rewrite (tryBlock_with_key w req K).
    destruct (if isMultipart req then fromMultipart req else fromJson req)
      as [e|[early|[imageData options]]] eqn:N.
    + left. split; [reflexivity|]. cbn [snd].
      destruct (catchBlock_reports_time w e) as [_ [[-> _]|[-> _]]];
        discriminate.
    + left. split; [reflexivity|].
      assert (exists msg, early = badRequest msg) as [msg ->].
      { destruct (isMultipart req).
        - eapply fromMultipart_early, N.
        - eexists. eapply fromJson_early, N. }
      discriminate.
    + right. now exists imageData, options.
  - left. unfold processNote, tryBlock. rewrite K. split; [reflexivity|].
    discriminate.
Qed.

(** X4: a request that is answered 400, or that finds no API key, has done
    nothing by then: nothing was put into the bucket, the pipeline was not
    entered and the model was not called. *)
Theorem rejected_requests_touch_nothing (w : World) (req : Request) :
  status (snd (processNote w req)) = 400%N
  \/ nonEmpty (GOOGLE_GEMINI_API_KEY w) = None ->
  fst (processNote w req) = [].
Proof.
  intros H. destruct (processNote_cases w req) as [[E _]|(i & o & T)];
    [exact E|].
  destruct H as [H|H].
  - exfalso. revert H. unfold processNote. rewrite T.
    destruct (storeAndProcess w i o) as [log [e|r]] eqn:S; cbn [snd].
    + destruct (catchBlock_reports_time w e) as [_ [[-> _]|[-> _]]];
        discriminate.
    + apply storeAndProcess_response in S as [result ->]. discriminate.
  - unfold processNote, tryBlock. rewrite H. reflexivity.
Qed.

Lemma rejected_requests_touch_nothing_witness :
  fst (processNote exampleWorld (jsonRequest (VObj []))) = []
  /\ fst (processNote exampleWorld
            (multipartRequest (upload 2 "text/plain" [Byte.x68; Byte.x69])))
     = [].
Proof.
  split; apply rejected_requests_touch_nothing; left; reflexivity.
Defined.

Lemma effects_in_order_lemma (w : World) (req : Request) :
  let log := fst (processNote w req) in
  log = []
  \/ exists data buf options,
       atob (argString (payloadOf data)) = inr buf
       /\ let put :=
            R2Put (lit "temp/" ++ randomUUID w) buf (mimeTypeOf data) in
          (log = [put] /\ r2Put w <> None)
          \/ (log = [put; PipelineCall data options] /\ r2Put w = None)
          \/ (r2Put w = None
              /\ exists p,
                   log = [put; PipelineCall data options;
                          GenerateContent p (mimeTypeOf data)
                            (payloadOf data)]).
Proof.
  cbv zeta.
  destruct (processNote_cases w req) as [[E _]|(i & o & T)]; [now left|].
  unfold processNote. rewrite T.
  pose proof (storeAndProcess_trace w i o) as H. cbv zeta in H.
  destruct (storeAndProcess w i o) as [log r]. cbn [fst snd] in *.
  assert (L : fst (match r with
                   | inl error => (log, catchBlock w error)
                   | inr response => (log, response)
                   end) = log) by (destruct r; reflexivity).
  rewrite L. clear L.
  destruct H as [[-> _]|(data & buf & -> & A & H)]; [now left|].
  right. exists data, buf, o. split; [exact A|].
  destruct H as [(e & P & [= -> _])|[(P & e & [= -> _])|(P & p & -> & _)]].
  - left. split; [reflexivity|]. congruence.
  - right; left. auto.
  - right; right. split; [exact P|]. now exists p.
Qed.

(** X5: the effects of a request come in one order.  The pipeline is
    entered only after the payload of the very string it receives was
    decoded and put, accepted, into the bucket under [temp/<uuid>] with the
    type cut from that string; the model is called only after that, at
    most once, with the type and payload cut from the same string; and
    nothing else is done. *)
Theorem effects_in_order (w : World) (req : Request) :
  let log := fst (processNote w req) in
  (forall data options,
      In (PipelineCall data options) log ->
      exists buf rest,
        atob (argString (payloadOf data)) = inr buf
        /\ r2Put w = None
        /\ log = R2Put (lit "temp/" ++ randomUUID w) buf (mimeTypeOf data)
                   :: PipelineCall data options :: rest)
  /\ (forall p m d,
        In (GenerateContent p m d) log ->
        exists data buf options,
          m = mimeTypeOf data /\ d = payloadOf data
          /\ log = [R2Put (lit "temp/" ++ randomUUID w) buf (mimeTypeOf data);
                    PipelineCall data options;
                    GenerateContent p m d])
  /\ length log <= 3.
Proof.
  cbv zeta.
  destruct (effects_in_order_lemma w req) as [->|(data & buf & o & A & H)].
  { split; [intros ? ? []|]. split; [intros ? ? ? []|]. simpl; lia. }
  destruct H as [[-> P]|[[-> P]|(P & p & ->)]].
  - split; [intros ? ? [H|[]]; discriminate|].
    split; [intros ? ? ? [H|[]]; discriminate|]. simpl; lia.
  - split.
    + intros data' o' [H|[H|[]]]; [discriminate|]. injection H as <- <-.
      exists buf, []. auto.
    + split; [intros ? ? ? [H|[H|[]]]; discriminate|]. simpl; lia.
  - split.
    + intros data' o' [H|[H|[H|[]]]]; try discriminate.
      injection H as <- <-. eexists buf, [_]. auto.
    + split; [|simpl; lia].
      intros p' m d [H|[H|[H|[]]]]; try discriminate.
      injection H as <- <- <-. exists data, buf, o. auto.
Qed.

Lemma effects_in_order_witness :
  exists buf rest,
    atob (argString (payloadOf (lit "data:image/png;base64,aGk="))) = inr buf
    /\ fst (processNote exampleWorld
              (jsonRequest (imageBody "data:image/png;base64,aGk=")))
       = R2Put (lit "temp/0000") buf (Some (lit "image/png"))
           :: PipelineCall (lit "data:image/png;base64,aGk=") (VObj [])
           :: rest.
Proof.
  destruct (effects_in_order exampleWorld
              (jsonRequest (imageBody "data:image/png;base64,aGk=")))
    as (H & _ & _).
  destruct (H (lit "data:image/png;base64,aGk=") (VObj []))
    as (buf & rest & A & _ & E).
  - right; left; reflexivity.
  - exists buf, rest. split; [exact A|exact E].
Defined.

(** X6: a 200 response carries exactly what post-processing made of the
    model's reply, with the elapsed time; to get there the payload was
    decoded and stored, the bucket accepted it, and the model was called
    once and answered. *)
Theorem success_is_processed_reply (w : World) (req : Request) :
  status (snd (processNote w req)) = 200%N ->
  exists data buf options p responseText result,
    atob (argString (payloadOf data)) = inr buf
    /\ r2Put w = None
    /\ generateContent w = inr responseText
    /\ processReply responseText = inr result
    /\ processNote w req
       = ([R2Put (lit "temp/" ++ randomUUID w) buf (mimeTypeOf data);
           PipelineCall data options;
           GenerateContent p (mimeTypeOf data) (payloadOf data)],
          {| status := 200; body := SuccessBody result (elapsed w) |}).
Proof.
  intros H.
  destruct (processNote_cases w req) as [[_ E]|(i & o & T)];
    [contradiction|].
  revert H. unfold processNote. rewrite T.
  pose proof (storeAndProcess_trace w i o) as S. cbv zeta in S.
  destruct (storeAndProcess w i o) as [log [e|r]]; cbn [fst snd] in *.
  { destruct (catchBlock_reports_time w e) as [_ [[-> _]|[-> _]]];
      discriminate. }
  intros _.
  destruct S as [[_ [e E]]|(data & buf & -> & A & S)]; [discriminate|].
  destruct S as [(e & _ & E)|[(_ & e & E)|(P & p & -> & S)]];
    try discriminate.
  destruct (generateContent w) as [e|text]; [discriminate|].
  cbn [bindR] in S.
  destruct (processReply text) as [e|result] eqn:R; [discriminate|].
  injection S as ->.
  exists data, buf, o, p, text, result. auto.
Qed.

Lemma success_is_processed_reply_witness :
  exists data buf options p responseText result,
    generateContent exampleWorld = inr responseText
    /\ processReply responseText = inr result
    /\ processNote exampleWorld
         (jsonRequest (imageBody "data:image/png;base64,aGk="))
       = ([R2Put (lit "temp/" ++ randomUUID exampleWorld) buf
             (mimeTypeOf data);
           PipelineCall data options;
           GenerateContent p (mimeTypeOf data) (payloadOf data)],
          {| status := 200;
             body := SuccessBody result (elapsed exampleWorld) |}).
Proof.
  destruct (success_is_processed_reply exampleWorld
              (jsonRequest (imageBody "data:image/png;base64,aGk="))
              eq_refl)
    as (data & buf & options & p & text & result & _ & _ & G & R & E).
  exists data, buf, options, p, text, result. auto.
Defined.

(* ===================================================================== *)
(** ** What reaches the model *)
(* ===================================================================== *)

(** X7: with the key set and an image that starts with ["data:image/"],
    the MCP tool enters the pipeline and calls the model exactly once; the
    prompt carries the two flags as given and the hints when the list is
    not empty (an empty list counts as no hints); the result is what
    post-processing makes of the model's reply, or an error-flagged line
    that quotes the message of what was thrown. *)
Theorem mcp_call_shape (w : World) (image : jsstring)
  (hints : option (list jsstring)) (dates_ contacts_ : bool) (k : jsstring) :
  nonEmpty (GOOGLE_GEMINI_API_KEY w) = Some k ->
  startsWith image (lit "data:image/") = true ->
  mcpTool w image hints dates_ contacts_
  = ([PipelineCall image (toolOptions hints dates_ contacts_);
      GenerateContent (toolPrompt hints dates_ contacts_)
        (mimeTypeOf image) (payloadOf image)],
     match bindR (generateContent w) processReply with
     | inr result => {| toolText := ResultJson result; isError := false |}
     | inl (Error m) =>
         toolError
           (Append (Text (lit "Error processing handwritten note: ")) m)
     | inl NonError =>
         toolError
           (Text (lit "Error processing handwritten note: Unknown error"))
     end).
Proof.
  intros K P. unfold mcpTool. rewrite K, P. cbn [negb].
  fold (toolOptions hints dates_ contacts_).
  assert (E : processHandwrittenNote w image
                (toolOptions hints dates_ contacts_)
              = ([PipelineCall image (toolOptions hints dates_ contacts_);
                  GenerateContent (toolPrompt hints dates_ contacts_)
                    (mimeTypeOf image) (payloadOf image)],
                 bindR (generateContent w) processReply)).
  { unfold processHandwrittenNote, bindE, liftE, emit, toolPrompt.
    destruct hints as [[|h hs]|], dates_, contacts_;
      cbn; destruct (generateContent w); reflexivity. }
  rewrite E.
  destruct (bindR (generateContent w) processReply) as [[m|]|r]; reflexivity.
Qed.

Lemma mcp_call_shape_witness :
  mcpTool exampleWorld (lit "data:image/png;base64,aGk=")
    (Some [lit "todo"; lit "idea"]) false true
  = ([PipelineCall (lit "data:image/png;base64,aGk=")
        (toolOptions (Some [lit "todo"; lit "idea"]) false true);
      GenerateContent
        {| categoryHints := Some (VArr [VStr (lit "todo"); VStr (lit "idea")]);
           extractDates := false; extractContacts := true |}
        (Some (lit "image/png")) (Some (lit "aGk="))],
     {| toolText :=
          ResultJson
            {| title := VStr (lit "Untitled Note");
               content := VStr (BALLOT_BOX :: SPACE :: lit "call Ann");
               category := VStr (lit "todo");
               tags := VArr []; dates := VArr []; contacts := VArr [];
               confidence := VNum 0.8;
               raw_text := VStr (lit "call Ann") |};
        isError := false |}).
Proof.
  exact (@mcp_call_shape exampleWorld (lit "data:image/png;base64,aGk=")
           (Some [lit "todo"; lit "idea"]) false true (lit "key")
           eq_refl eq_refl).
Defined.

Lemma startsWith_app (s p : jsstring) :
  startsWith s p = true -> exists rest, s = p ++ rest.
Proof.
  revert s; induction p as [|y p IH]; intros s; simpl.
  - intros _. now exists s.
  - destruct s as [|x s]; [discriminate|].
    rewrite andb_true_iff, N.eqb_eq. intros [-> H].
    destruct (IH s H) as [rest ->]. now exists rest.
Qed.

Lemma startsWith_prefix (p rest : jsstring) : startsWith (p ++ rest) p = true.
Proof.
  induction p as [|y p IH]; simpl; [reflexivity|].
  now rewrite N.eqb_refl, IH.
Qed.

(** The first piece of a split starts with whatever prefix holds no
    separator. *)
Lemma hd_split_app (sep : N) (pre rest : jsstring) :
  ~ In sep pre ->
  hd [] (split sep (pre ++ rest)) = pre ++ hd [] (split sep rest).
Proof.
  induction pre as [|c pre IH]; intros Hn; [reflexivity|].
  simpl. destruct (N.eqb_spec c sep) as [->|Hc]; [exfalso; apply Hn; now left|].
  pose proof (split_nonempty sep (pre ++ rest)) as Hs.
  destruct (split sep (pre ++ rest)) as [|l ls] eqn:E; [congruence|].
  simpl. f_equal. rewrite <- IH by (intros H; apply Hn; now right).
  reflexivity.
Qed.

(** A string that starts with ["data:image/"] yields a type that starts
    with ["image/"]. *)
Lemma mimeTypeOf_data_image (rest : jsstring) :
  exists t, mimeTypeOf (lit "data:image/" ++ rest) = Some (lit "image/" ++ t).
Proof.
  unfold mimeTypeOf.
  rewrite hd_split_app by (cbv; intuition discriminate).
  set (h := hd [] (split SEMICOLON rest)).
  change (lit "data:image/" ++ h) with (lit "data" ++ COLON :: lit "image/" ++ h).
  rewrite split_app_sep by (cbv; intuition discriminate).
  pose proof (split_nonempty COLON (lit "image/" ++ h)) as Hs.
  pose proof (hd_split_app COLON (lit "image/") h) as Hh.
  destruct (split COLON (lit "image/" ++ h)) as [|l ls]; [congruence|].
  simpl in Hh. cbn [nth_error]. exists (hd [] (split COLON h)).
  f_equal. apply Hh. cbv; intuition discriminate.
Qed.

Lemma fromMultipart_ok (req : Request) (imageData options : value) :
  fromMultipart req = inr (inr (imageData, options)) ->
  exists file,
    imageData = VStr (dataUrl file)
    /\ startsWith (type file) (lit "image/") = true
    /\ (size file <= MAX_SIZE)%N.
Proof.
  unfold fromMultipart, bindR.
  destruct (formData req) as [e|form]; [discriminate|].
  destruct (formImage form) as [|[|c s]|file]; try discriminate.
  destruct (N.ltb_spec MAX_SIZE (size file)) as [|Hsize]; [discriminate|].
  destruct (startsWith (type file) (lit "image/")) eqn:T;
    cbn [negb]; [|discriminate].
  unfold btoa.
  rewrite (proj2 (forallb_forall _ _)).
  2:{ intros x Hx. apply N.leb_le.
      exact (proj1 (Forall_forall _ _) (binaryString_bytes (bytes file)) x Hx). }
  fold (dataUrl file). intros E. exists file.
  split; [|split; [exact T|exact Hsize]].
  destruct (formOptions form) as [|[|c s]|f];
    try (injection E as <- _; reflexivity).
  destruct (JSON_parse (c :: s)); [discriminate|].
  injection E as <- _. reflexivity.
Qed.

(** X8: at the MCP tool and on the multipart branch the model is only
    ever called with a MIME type that starts with ["image/"]: the type is
    cut from a string the tool checked to start with ["data:image/"], or
    from the data URL the branch built from a file type it checked. *)
Theorem model_sees_image_type :
  (forall w image hints dates_ contacts_ p m d,
      In (GenerateContent p m d) (fst (mcpTool w image hints dates_ contacts_)) ->
      exists t, m = Some (lit "image/" ++ t))
  /\ (forall w req p m d,
        isMultipart req = true ->
        In (GenerateContent p m d) (fst (processNote w req)) ->
        exists t, m = Some (lit "image/" ++ t)).
Proof.
  split.
  - intros w image hints dt ct p m d. unfold mcpTool.
    destruct (nonEmpty (GOOGLE_GEMINI_API_KEY w)) as [k|] eqn:K; [|intros []].
    destruct (startsWith image (lit "data:image/")) eqn:P;
      cbn [negb]; [|intros []].
    apply startsWith_app in P as [rest ->].
    destruct (pipeline_trace w (lit "data:image/" ++ rest)
                (VObj [(lit "category_hints",
                         match hints with
                         | Some hs => VArr (map VStr hs)
                         | None => VUndefined
                         end);
                       (lit "extract_dates", VBool dt);
                       (lit "extract_contacts", VBool ct)]))
      as [[e ->]|[q ->]].
    + destruct e as [?|]; cbn [fst]; intros [H|[]]; discriminate.
    + intros H'.
      assert (In (GenerateContent p m d)
                [PipelineCall (lit "data:image/" ++ rest)
                   (VObj [(lit "category_hints",
                           match hints with
                           | Some hs => VArr (map VStr hs)
                           | None => VUndefined
                           end);
                          (lit "extract_dates", VBool dt);
                          (lit "extract_contacts", VBool ct)]);
                 GenerateContent q (mimeTypeOf (lit "data:image/" ++ rest))
                   (payloadOf (lit "data:image/" ++ rest))]) as I.
      { destruct (bindR (generateContent w) processReply) as [[?|]|?];
          exact H'. }
      destruct I as [I|[I|[]]]; [discriminate|].
      injection I as _ <- _. apply mimeTypeOf_data_image.
  - intros w req p m d M.
    destruct (nonEmpty (GOOGLE_GEMINI_API_KEY w)) as [k|] eqn:K.
    2:{ unfold processNote, tryBlock. rewrite K. intros []. }
    unfold processNote. rewrite (tryBlock_with_key w req K), M.
    destruct (fromMultipart req) as [e|[early|[i o]]] eqn:N;
      [intros []|intros []|].
    apply fromMultipart_ok in N as (file & -> & T & _).
    pose proof (storeAndProcess_trace w (VStr (dataUrl file)) o) as S.
    cbv zeta in S.
    destruct (storeAndProcess w (VStr (dataUrl file)) o) as [log r].
    cbn [fst snd] in S.
    assert (L : fst (match r with
                     | inl error => (log, catchBlock w error)
                     | inr response => (log, response)
                     end) = log) by (destruct r; reflexivity).
    rewrite L. clear L.
    destruct S as [[-> _]|(data & buf & [= <-] & _ & S)]; [intros []|].
    destruct S as [(e & _ & [= -> _])|[(_ & e & [= -> _])|(_ & q & -> & _)]].
    + intros [H|[]]; discriminate.
    + intros [H|[H|[]]]; discriminate.
    + intros [H|[H|[H|[]]]]; try discriminate.
      injection H as _ <- _.
      apply startsWith_app in T as [rest T]. unfold dataUrl. rewrite T.
      change (lit "data:" ++ (lit "image/" ++ rest) ++ ?x)
        with (lit "data:image/" ++ rest ++ x).
      apply mimeTypeOf_data_image.
Qed.

Lemma model_sees_image_type_witness :
  (exists t, Some (lit "image/png") = Some (lit "image/" ++ t))
  /\ (exists t, mimeTypeOf (dataUrl {| size := 2; type := lit "image/png";
                                      bytes := [Byte.x68; Byte.x69] |})
                = Some (lit "image/" ++ t)).
Proof.
  destruct model_sees_image_type as [Hmcp Hrest].
  split.
  - apply (Hmcp exampleWorld (lit "data:image/png;base64,aGk=") None true
             false (toolPrompt None true false) (Some (lit "image/png"))
             (Some (lit "aGk="))).
    right; left; reflexivity.
  - apply (Hrest exampleWorld (multipartRequest smallUpload)
             {| categoryHints := None; extractDates := true;
                extractContacts := false |}
             _ (Some (lit "aGk="))); [reflexivity|].
    right; right; left; reflexivity.
Defined.

(* ===================================================================== *)
(** ** Failures of the model *)
(* ===================================================================== *)

(** Once the model has been called, the answer of the endpoint is settled
    by the model's outcome and its post-processing. *)
Lemma response_after_model_call (w : World) (req : Request)
  (p : Prompt) (m d : option jsstring) :
  In (GenerateContent p m d) (fst (processNote w req)) ->
  snd (processNote w req)
  = match bindR (generateContent w) processReply with
    | inl e => catchBlock w e
    | inr result =>
        {| status := 200; body := SuccessBody result (elapsed w) |}
    end.
Proof.
  destruct (processNote_cases w req) as [[-> _]|(i & o & T)]; [intros []|].
  unfold processNote. rewrite T.
  pose proof (storeAndProcess_trace w i o) as S. cbv zeta in S.
  destruct (storeAndProcess w i o) as [log r]. cbn [fst snd] in S.
  assert (L : fst (match r with
                   | inl error => (log, catchBlock w error)
                   | inr response => (log, response)
                   end) = log) by (destruct r; reflexivity).
  rewrite L. clear L.
  destruct S as [[-> _]|(data & buf & _ & _ & S)]; [intros []|].
  destruct S as [(e & _ & [= -> _])|[(_ & e & [= -> _])|(_ & q & -> & S)]].
  - intros [H|[]]; discriminate.
  - intros [H|[H|[]]]; discriminate.
  - intros _.
    destruct (bindR (generateContent w) processReply); rewrite S; reflexivity.
Qed.

(** X9: when the model call itself fails with an [Error] of message [msg],
    the REST endpoint answers 429 "API quota exceeded. Please try again
    later." if [msg] holds the word quota, and otherwise 500 "Failed to
    process image" with [msg] as details, both with the elapsed time; the
    MCP tool makes no such difference and returns the error-flagged line
    "Error processing handwritten note: " followed by [msg]. *)
Theorem model_failure_answers (w : World) (msg : jsstring) :
  generateContent w = inl (Error (Text msg)) ->
  (forall req p m d,
      In (GenerateContent p m d) (fst (processNote w req)) ->
      snd (processNote w req)
      = if includes msg (lit "quota")
        then {| status := 429;
                body := ErrorBody
                          (lit "API quota exceeded. Please try again later.")
                          None (Some (elapsed w)) |}
        else {| status := 500;
                body := ErrorBody (lit "Failed to process image") (Some msg)
                          (Some (elapsed w)) |})
  /\ (forall image hints dates_ contacts_ k,
        nonEmpty (GOOGLE_GEMINI_API_KEY w) = Some k ->
        startsWith image (lit "data:image/") = true ->
        snd (mcpTool w image hints dates_ contacts_)
        = toolError
            (Append (Text (lit "Error processing handwritten note: "))
               (Text msg))).
Proof.
  intros G. split.
  - intros req p m d H.
    rewrite (response_after_model_call w req p m d H), G. reflexivity.
  - intros image hints dt ct k K P. unfold mcpTool. rewrite K, P. cbn [negb].
    match goal with
    | |- context [processHandwrittenNote w image ?o] =>
        destruct (pipeline_trace w image o) as [[e E]|[q E]]; rewrite E
    end.
    + exfalso. revert E.
      unfold processHandwrittenNote, bindE, liftE, emit.
      destruct hints as [[|h hs]|], dt, ct; cbn; rewrite G; discriminate.
    + rewrite G. reflexivity.
Qed.

Lemma model_failure_answers_witness :
  snd (processNote quotaWorld
         (jsonRequest (imageBody "data:image/png;base64,aGk=")))
  = {| status := 429;
       body := ErrorBody (lit "API quota exceeded. Please try again later.")
                 None (Some 250%Z) |}
  /\ snd (mcpTool quotaWorld (lit "data:image/png;base64,aGk=")
            None true false)
     = toolError
         (Append (Text (lit "Error processing handwritten note: "))
            (Text (lit "429: quota exceeded"))).
Proof.
  destruct (@model_failure_answers quotaWorld (lit "429: quota exceeded")
              eq_refl) as [Hrest Hmcp].
  split.
  - apply (Hrest (jsonRequest (imageBody "data:image/png;base64,aGk="))
             {| categoryHints := None; extractDates := true;
                extractContacts := false |}
             (Some (lit "image/png")) (Some (lit "aGk="))).
    right; right; left; reflexivity.
  - apply (Hmcp (lit "data:image/png;base64,aGk=") None true false
             (lit "key")); reflexivity.
Defined.

(* ===================================================================== *)
(** ** The stored image *)
(* ===================================================================== *)

Lemma str_eqb_refl (a : jsstring) : str_eqb a a = true.
Proof. now apply str_eqb_eq. Qed.

Lemma str_eqb_neq (a b : jsstring) : a <> b -> str_eqb a b = false.
Proof.
  intros H. destruct (str_eqb a b) eqn:E; [|reflexivity].
  now apply str_eqb_eq in E.
Qed.

(** The bucket after a request: unchanged, or with the one object the
    request put into it. *)
Lemma bucketAfter_cases (w : World) (etagOf : jsstring -> jsstring)
  (b : Bucket) (req : Request) :
  let log := fst (processNote w req) in
  (bucketAfter w etagOf b log = b /\ (log = [] \/ r2Put w <> None))
  \/ exists data buf,
       log <> [] /\ r2Put w = None
       /\ atob (argString (payloadOf data)) = inr buf
       /\ bucketAfter w etagOf b log
          = bucketPut b (lit "temp/" ++ randomUUID w)
              {| objectBody := buf;
                 httpContentType := mimeTypeOf data;
                 httpCacheControl := lit "max-age=3600";
                 httpEtag := etagOf buf |}.
Proof.
  cbv zeta. pose proof (effects_in_order_lemma w req) as H.
  destruct H as [->|(data & buf & o & A & H)].
  - left. split; [|now left]. unfold bucketAfter. now destruct (r2Put w).
  - destruct H as [[-> P]|[[-> P]|(P & p & ->)]].
    + left. split; [|now right]. unfold bucketAfter.
      destruct (r2Put w); [reflexivity|congruence].
    + right. exists data, buf. unfold bucketAfter. rewrite P.
      repeat split; [discriminate|exact A].
    + right. exists data, buf. unfold bucketAfter. rewrite P.
      repeat split; [discriminate|exact A].
Qed.

Lemma temp_key_injective (a b : jsstring) :
  lit "temp/" ++ a = lit "temp/" ++ b -> a = b.
Proof. apply app_inv_head. Qed.

(** After an accepted put the image endpoint finds the object under the
    id of the request. *)
Lemma served_after_put (w : World) (etagOf : jsstring -> jsstring)
  (engine : fault -> jsstring) (b : Bucket) (req : Request)
  (key body_ : jsstring) (ct : option jsstring) :
  In (R2Put key body_ ct) (fst (processNote w req)) ->
  r2Put w = None ->
  key = lit "temp/" ++ randomUUID w
  /\ getImage engine None
       (bucketAfter w etagOf b (fst (processNote w req))) (randomUUID w)
     = ImageFound body_ ct (lit "max-age=3600") (etagOf body_).
Proof.
  intros H P. unfold bucketAfter. rewrite P.
  destruct (effects_in_order_lemma w req) as [E|(data & buf & o & A & E)].
  { rewrite E in H. destruct H. }
  assert (exists rest,
             fst (processNote w req)
             = R2Put (lit "temp/" ++ randomUUID w) buf (mimeTypeOf data)
                 :: rest
             /\ fold_left (storeEvent etagOf) rest
                  (storeEvent etagOf b
                     (R2Put (lit "temp/" ++ randomUUID w) buf
                        (mimeTypeOf data)))
                = storeEvent etagOf b
                    (R2Put (lit "temp/" ++ randomUUID w) buf
                       (mimeTypeOf data))
             /\ forall k' b' c', ~ In (R2Put k' b' c') rest)
    as (rest & L & Ffold & Hrest).
  { destruct E as [[-> _]|[[-> _]|(_ & p & ->)]]; eexists;
      (split; [reflexivity|split; [reflexivity|]]);
      intros k' b' c' I; simpl in I; intuition discriminate. }
  rewrite L in *. cbn [fold_left]. rewrite Ffold.
  destruct H as [H|H]; [|now apply Hrest in H].
  injection H as <- <- <-. split; [reflexivity|].
  unfold getImage, storeEvent, bucketPut. cbn [bucketGet].
  rewrite str_eqb_refl. reflexivity.
Qed.

(** X10: the image endpoint serves what the processing endpoint stored.
    After a request whose put the bucket accepted, [GET /api/images/<uuid>]
    answers with the very bytes that were put, the content type cut from
    the image string, the cache lifetime [max-age=3600] and the entity tag
    of the bucket; whatever the request did, every other id is answered as
    before it, so an id that was never stored is answered 404. *)
Theorem stored_image_is_served (w : World) (etagOf : jsstring -> jsstring)
  (engine : fault -> jsstring) (b : Bucket) (req : Request) :
  let after := bucketAfter w etagOf b (fst (processNote w req)) in
  (forall key body_ ct,
      In (R2Put key body_ ct) (fst (processNote w req)) ->
      r2Put w = None ->
      key = lit "temp/" ++ randomUUID w
      /\ getImage engine None after (randomUUID w)
         = ImageFound body_ ct (lit "max-age=3600") (etagOf body_))
  /\ (forall imageId,
        imageId <> randomUUID w ->
        getImage engine None after imageId = getImage engine None b imageId)
  /\ (forall imageId,
        imageId <> randomUUID w ->
        getImage engine None (bucketAfter w etagOf [] (fst (processNote w req)))
          imageId
        = ImageError 404 (lit "Image not found or expired") None).
Proof.
  cbv zeta.
  assert (F : forall b' imageId,
             imageId <> randomUUID w ->
             getImage engine None
               (bucketAfter w etagOf b' (fst (processNote w req))) imageId
             = getImage engine None b' imageId).
  { intros b' imageId Hid.
    destruct (bucketAfter_cases w etagOf b' req)
      as [[-> _]|(data & buf & _ & _ & _ & ->)]; [reflexivity|].
    unfold getImage, bucketPut. cbn [bucketGet].
    rewrite str_eqb_neq; [reflexivity|].
    intros E. apply temp_key_injective in E. congruence. }
  split; [|split; [apply F|]].
  - intros key body_ ct. apply served_after_put.
  - intros imageId Hid. rewrite (F [] imageId Hid). reflexivity.
Qed.

Lemma stored_image_is_served_witness :
  getImage (fun _ => lit "engine message") None
    (bucketAfter exampleWorld (fun body_ => lit "etag") []
       (fst (processNote exampleWorld
               (jsonRequest (imageBody "data:image/png;base64,aGk=")))))
    (lit "0000")
  = ImageFound (lit "hi") (Some (lit "image/png")) (lit "max-age=3600")
      (lit "etag")
  /\ getImage (fun _ => lit "engine message") None
       (bucketAfter exampleWorld (fun body_ => lit "etag") []
          (fst (processNote exampleWorld
                  (jsonRequest (imageBody "data:image/png;base64,aGk=")))))
       (lit "1111")
     = ImageError 404 (lit "Image not found or expired") None.
Proof.
  destruct (stored_image_is_served exampleWorld (fun body_ => lit "etag")
              (fun _ => lit "engine message") []
              (jsonRequest (imageBody "data:image/png;base64,aGk=")))
    as (Hserved & _ & Hother).
  split.
  - apply (Hserved (lit "temp/0000") (lit "hi") (Some (lit "image/png")));
      [left; reflexivity|reflexivity].
  - apply Hother. discriminate.
Defined.

(* ===================================================================== *)
(** ** The clean-up timer *)
(* ===================================================================== *)

Lemma erase_Did (log : list Event) : erase (map Did log) = log.
Proof. induction log as [|e log IH]; simpl; congruence. Qed.

Lemma erase_app (a b : list Effect) : erase (a ++ b) = erase a ++ erase b.
Proof.
  induction a as [|[e|d k] a IH]; simpl; [reflexivity| |assumption].
  now rewrite IH.
Qed.

Lemma fireTimers_Did (b : Bucket) (log : list Event) :
  fireTimers b (map Did log) = b.
Proof. induction log as [|e log IH]; simpl; [reflexivity|assumption]. Qed.

Lemma fireTimers_app (b : Bucket) (x y : list Effect) :
  fireTimers b (x ++ y) = fireTimers (fireTimers b x) y.
Proof.
  revert b; induction x as [|[e|d k] x IH]; intros b; simpl; auto.
Qed.

Lemma bucketGet_deleted (b : Bucket) (key : jsstring) :
  bucketGet (bucketDelete b key) key = None.
Proof.
  induction b as [|[k o] b IH]; [reflexivity|].
  unfold bucketDelete in *. cbn [filter fst].
  destruct (str_eqb k key) eqn:E; cbn [negb]; [exact IH|].
  cbn [bucketGet]. now rewrite E.
Qed.

Lemma bucketGet_delete_other (b : Bucket) (key other : jsstring) :
  other <> key ->
  bucketGet (bucketDelete b key) other = bucketGet b other.
Proof.
  intros Hne. induction b as [|[k o] b IH]; [reflexivity|].
  unfold bucketDelete in *. cbn [filter fst].
  destruct (str_eqb k key) eqn:E; cbn [negb bucketGet].
  - apply str_eqb_eq in E. subst k.
    rewrite (str_eqb_neq (a := key) (b := other)) by congruence. exact IH.
  - now rewrite IH.
Qed.

(** The handler with its timer does what the handler does. *)
Lemma storeAndProcessEffects_erase (w : World) (imageData options : value) :
  storeAndProcess w imageData options
  = (erase (fst (storeAndProcessEffects w imageData options)),
     snd (storeAndProcessEffects w imageData options)).
Proof.
  unfold storeAndProcess, storeAndProcessEffects, bindE, liftE, emit, pureE,
    throwE.
  destruct (stringReceiver imageData) as [e|data]; [reflexivity|].
  destruct (atob (argString (payloadOf data))) as [e|buf]; [reflexivity|].
  destruct (r2Put w) as [e|]; [reflexivity|].
  destruct (processHandwrittenNote w data options) as [log [e|result]];
    cbn [fst snd erase app stringReceiver].
  - now rewrite erase_Did.
  - rewrite erase_app, erase_Did. cbn [erase]. now rewrite !app_nil_r.
Qed.

Lemma processNoteEffects_erase (w : World) (req : Request) :
  processNote w req
  = (erase (fst (processNoteEffects w req)), snd (processNoteEffects w req)).
Proof.
  unfold processNoteEffects, processNote.
  destruct (nonEmpty (GOOGLE_GEMINI_API_KEY w)) as [k|] eqn:K.
  - rewrite (tryBlock_with_key w req K).
    destruct (if isMultipart req then fromMultipart req else fromJson req)
      as [e|[early|[i o]]]; try reflexivity.
    rewrite storeAndProcessEffects_erase.
    destruct (storeAndProcessEffects w i o) as [fx [e|r]]; reflexivity.
  - unfold tryBlock. rewrite K. reflexivity.
Qed.

(** The timers of a run: one, last, for the key of the run, when the
    pipeline returned; none otherwise. *)
Lemma timers_of_run (w : World) (req : Request) :
  let run := processNoteEffects w req in
  (status (snd run) = 200%N
   /\ exists log,
        fst run = map Did log ++ [SetTimeout 3600000 (lit "temp/" ++ randomUUID w)])
  \/ (status (snd run) <> 200%N
      /\ exists log, fst run = map Did log).
Proof.
  cbv zeta. unfold processNoteEffects.
  destruct (nonEmpty (GOOGLE_GEMINI_API_KEY w)) as [k|];
    [|right; split; [discriminate|now exists []]].
  destruct (if isMultipart req then fromMultipart req else fromJson req)
    as [e|[early|[i o]]] eqn:N.
  - right. cbn [fst snd]. split; [|now exists []].
    destruct (catchBlock_reports_time w e) as [_ [[-> _]|[-> _]]];
      discriminate.
  - right. cbn [fst snd]. split; [|now exists []].
    assert (exists msg, early = badRequest msg) as [msg ->].
    { destruct (isMultipart req).
      - eapply fromMultipart_early, N.
      - eexists. eapply fromJson_early, N. }
    discriminate.
  - unfold storeAndProcessEffects.
    assert (C : forall e, status (catchBlock w e) <> 200%N).
    { intros e. destruct (catchBlock_reports_time w e) as [_ [[-> _]|[-> _]]];
        discriminate. }
    destruct (stringReceiver i) as [e|data];
      [right; cbn [fst snd]; split; [apply C|now exists []]|].
    destruct (atob (argString (payloadOf data))) as [e|buf];
      [right; cbn [fst snd]; split; [apply C|now exists []]|].
    destruct (r2Put w) as [e|].
    { right; cbn [fst snd]; split; [apply C|]. eexists [_]. reflexivity. }
    destruct (processHandwrittenNote w data o) as [log [e|result]].
    + right; cbn [fst snd]; split; [apply C|].
      eexists (_ :: log). reflexivity.
    + left; cbn [fst snd]; split; [reflexivity|].
      eexists (_ :: log). reflexivity.
Qed.

(** X11: the timer that deletes the stored image is set only when the
    request succeeds.  After a 200 response one timer is set, last, for one
    hour and for the key of the request, and once it has fired the image
    endpoint answers 404 for that id.  After any other response no timer
    is set at all: an image whose put was accepted before the failure
    stays in the bucket and is served on. *)
Theorem cleanup_follows_success (w : World) (etagOf : jsstring -> jsstring)
  (engine : fault -> jsstring) (b : Bucket) (req : Request) :
  let run := processNoteEffects w req in
  let after := bucketAfter w etagOf b (erase (fst run)) in
  processNote w req = (erase (fst run), snd run)
  /\ (status (snd run) = 200%N ->
      (exists log,
          fst run
          = map Did log
              ++ [SetTimeout 3600000 (lit "temp/" ++ randomUUID w)])
      /\ getImage engine None (fireTimers after (fst run)) (randomUUID w)
         = ImageError 404 (lit "Image not found or expired") None)
  /\ (status (snd run) <> 200%N ->
      (forall delay key, ~ In (SetTimeout delay key) (fst run))
      /\ fireTimers after (fst run) = after
      /\ forall key body_ ct,
           In (R2Put key body_ ct) (erase (fst run)) ->
           r2Put w = None ->
           getImage engine None (fireTimers after (fst run)) (randomUUID w)
           = ImageFound body_ ct (lit "max-age=3600") (etagOf body_)).
Proof.
  cbv zeta. split; [apply processNoteEffects_erase|].
  pose proof (processNoteEffects_erase w req) as E.
  assert (Hlog : erase (fst (processNoteEffects w req))
                 = fst (processNote w req)) by (rewrite E; reflexivity).
  rewrite Hlog. clear E.
  destruct (timers_of_run w req) as [(S & log & L)|(S & log & L)];
    cbv zeta in *.
  - split; [|intros H; contradiction].
    intros _. split; [now exists log|].
    rewrite L, fireTimers_app, fireTimers_Did. cbn [fireTimers cleanup].
    unfold getImage. now rewrite bucketGet_deleted.
  - split; [intros H; congruence|].
    intros _. rewrite L, fireTimers_Did.
    split; [|split; [reflexivity|]].
    + intros delay key H. apply in_map_iff in H as (e & F & _). discriminate.
    + intros key body_ ct H P.
      now destruct (@served_after_put w etagOf engine b req key body_ ct H P).
Qed.

Lemma cleanup_follows_success_witness :
  getImage (fun _ => lit "engine message") None
    (fireTimers
       (bucketAfter exampleWorld (fun _ => lit "etag") []
          (erase (fst (processNoteEffects exampleWorld
                         (jsonRequest
                            (imageBody "data:image/png;base64,aGk="))))))
       (fst (processNoteEffects exampleWorld
               (jsonRequest (imageBody "data:image/png;base64,aGk=")))))
    (lit "0000")
  = ImageError 404 (lit "Image not found or expired") None
  /\ getImage (fun _ => lit "engine message") None
       (fireTimers
          (bucketAfter failingWorld (fun _ => lit "etag") []
             (erase (fst (processNoteEffects failingWorld
                            (jsonRequest
                               (imageBody "data:image/png;base64,aGk="))))))
          (fst (processNoteEffects failingWorld
                  (jsonRequest (imageBody "data:image/png;base64,aGk=")))))
       (lit "0000")
     = ImageFound (lit "hi") (Some (lit "image/png")) (lit "max-age=3600")
         (lit "etag").
Proof.
  split.
  - destruct (cleanup_follows_success exampleWorld (fun _ => lit "etag")
                (fun _ => lit "engine message") []
                (jsonRequest (imageBody "data:image/png;base64,aGk=")))
      as (_ & H & _).
    apply H. reflexivity.
  - destruct (cleanup_follows_success failingWorld (fun _ => lit "etag")
                (fun _ => lit "engine message") []
                (jsonRequest (imageBody "data:image/png;base64,aGk=")))
      as (_ & _ & H).
    destruct H as (_ & _ & H); [discriminate|].
    apply (H (lit "temp/0000") (lit "hi") (Some (lit "image/png")));
      [left; reflexivity|reflexivity].
Defined.

(* ===================================================================== *)
(** ** The record the pipeline returns *)
(* ===================================================================== *)

(** Whatever was parsed, a record that [sanitize] returns is built from
    eight values by the eight coercions. *)
Lemma sanitize_shape (v : value) (r0 : NoteData) :
  sanitize v = inr r0 ->
  exists t c k tg d ct cf rt,
    r0 = {| title := orElse t (VStr (lit "Untitled Note"));
            content := orElse c (VStr []);
            category := orElse k (VStr (lit "note"));
            tags := arrayOrEmpty tg;
            dates := arrayOrEmpty d;
            contacts := arrayOrEmpty ct;
            confidence := clampConfidence cf;
            raw_text := orElse rt (orElse c (VStr [])) |}.
Proof.
  unfold sanitize.
  destruct (getProp v (lit "title")) as [e|t]; [discriminate|].
  destruct (getProp v (lit "content")) as [e|c]; [discriminate|].
  destruct (getProp v (lit "category")) as [e|k]; [discriminate|].
  destruct (getProp v (lit "tags")) as [e|tg]; [discriminate|].
  destruct (getProp v (lit "dates")) as [e|d]; [discriminate|].
  destruct (getProp v (lit "contacts")) as [e|ct]; [discriminate|].
  destruct (getProp v (lit "confidence")) as [e|cf]; [discriminate|].
  destruct (getProp v (lit "raw_text")) as [e|rt]; [discriminate|].
  cbn [bindR]. intros H. injection H as <-.
  now exists t, c, k, tg, d, ct, cf, rt.
Qed.

(** When [format] returns, the category is a string, and the record is
    the one it was given, or that record with its string content
    formatted. *)
Lemma format_cases (r0 r : NoteData) :
  format r0 = inr r ->
  exists cat,
    category r0 = VStr cat
    /\ ((isTodo cat = false /\ r = r0)
        \/ (isTodo cat = true
            /\ exists text,
                 content r0 = VStr text
                 /\ r = setContent r0 (VStr (formatContent text)))).
Proof.
  unfold format.
  destruct (category r0) as [| |b|q|cat|l|l];
    cbn [stringReceiver bindR]; try discriminate.
  intros H. exists cat. split; [reflexivity|].
  destruct (isTodo cat).
  - right. split; [reflexivity|].
    destruct (content r0) as [| |b|q|text|l|l];
      cbn [stringReceiver bindR] in H; try discriminate H.
    injection H as <-. now exists text.
  - left. injection H as <-. now split.
Qed.

Lemma orElse_truthy (a d : value) :
  truthy d = true -> truthy (orElse a d) = true.
Proof. intros D. unfold orElse. now destruct (truthy a) eqn:A. Qed.

Lemma orElse_empty (a : value) :
  truthy (orElse a (VStr [])) = true \/ orElse a (VStr []) = VStr [].
Proof. unfold orElse. destruct (truthy a) eqn:A; [now left|now right]. Qed.

Lemma orElse_idem (a d : value) : orElse (orElse a d) d = orElse a d.
Proof.
  unfold orElse. destruct (truthy a) eqn:A; [now rewrite A|].
  now destruct (truthy d).
Qed.

Lemma orElse_falsy (a d : value) :
  truthy (orElse a d) = false -> orElse a d = d.
Proof. unfold orElse. destruct (truthy a) eqn:A; congruence. Qed.

Lemma arrayOrEmpty_array (v : value) : isArray (arrayOrEmpty v) = true.
Proof. unfold arrayOrEmpty. now destruct v. Qed.

Lemma arrayOrEmpty_idem (v : value) :
  arrayOrEmpty (arrayOrEmpty v) = arrayOrEmpty v.
Proof. unfold arrayOrEmpty. now destruct v. Qed.

(** Clamping selects among [0], [1] and its argument, so a second
    clamping selects the same. *)
Lemma clampConfidence_idem (v : value) :
  clampConfidence (clampConfidence v) = clampConfidence v.
Proof.
  destruct v; try reflexivity.
  unfold clampConfidence, Math_min, Math_max.
  destruct (Qle_bool 1 q) eqn:A; [reflexivity|].
  destruct (Qle_bool q 0) eqn:B; [reflexivity|].
  now rewrite A, B.
Qed.

Lemma clampConfidence_range (v : value) :
  exists q, clampConfidence v = VNum q /\ (0 <= q <= 1)%Q.
Proof.
  destruct v;
    try (exists 0.8%Q; split; [reflexivity|split; discriminate]).
  eexists. split; [reflexivity|]. apply clamp_bounds.
Qed.

(** A truthy string is not empty. *)
Lemma truthy_string (s : jsstring) : truthy (VStr s) = true -> s <> [].
Proof. intros H ->. discriminate H. Qed.

Lemma string_truthy_or_empty (s : jsstring) :
  truthy (VStr s) = true \/ VStr s = VStr [].
Proof. destruct s; [now right|now left]. Qed.

(** The raw text falls back on the content before formatting, and that
    fall-back is stable under a second coercion against the content, also
    after formatting: a falsy raw text means an empty content. *)
Lemma raw_text_stable (rt c content' : value) :
  (truthy (orElse c (VStr [])) = false -> content' = VStr []) ->
  orElse (orElse rt (orElse c (VStr []))) (orElse content' (VStr []))
  = orElse rt (orElse c (VStr [])).
Proof.
  intros H. unfold orElse at 1.
  destruct (truthy (orElse rt (orElse c (VStr [])))) eqn:T; [reflexivity|].
  assert (F : truthy (orElse c (VStr [])) = false).
  { revert T. unfold orElse at 1. destruct (truthy rt) eqn:R; congruence. }
  rewrite (H F). rewrite (orElse_falsy _ _ T), (orElse_falsy _ _ F).
  reflexivity.
Qed.

(** Sanitizing a record read back as a reply object coerces its own
    fields. *)
Lemma sanitize_asObject (r : NoteData) :
  sanitize (asObject r)
  = inr {| title := orElse (title r) (VStr (lit "Untitled Note"));
           content := orElse (content r) (VStr []);
           category := orElse (category r) (VStr (lit "note"));
           tags := arrayOrEmpty (tags r);
           dates := arrayOrEmpty (dates r);
           contacts := arrayOrEmpty (contacts r);
           confidence := clampConfidence (confidence r);
           raw_text := orElse (raw_text r) (orElse (content r) (VStr [])) |}.
Proof. destruct r. reflexivity. Qed.

(** What [processReply] returns went through [sanitize] and [format]. *)
Lemma processReply_stages (responseText : option jsstring) (r : NoteData) :
  processReply responseText = inr r ->
  exists v r0, sanitize v = inr r0 /\ format r0 = inr r.
Proof.
  unfold processReply, sanitizeReply.
  destruct (parseResponse responseText) as [e|v]; [discriminate|].
  cbn [bindR]. destruct (sanitize v) as [e|r0] eqn:S; [discriminate|].
  cbn [bindR]. intros F. now exists v, r0.
Qed.

(** X12: what holds of every record the pipeline returns, whatever the
    model replied: the category is a non-empty string, the title is truthy
    (never empty, null, zero or false), content and raw text are truthy or
    the empty string, the three lists are arrays, the confidence is a
    number between 0 and 1, and under a todo or task category the content
    is a string of which every line is blank or carries a marker. *)
Theorem returned_record_invariants (responseText : option jsstring)
  (r : NoteData) :
  processReply responseText = inr r ->
  (exists c, category r = VStr c /\ c <> [])
  /\ truthy (title r) = true
  /\ (truthy (content r) = true \/ content r = VStr [])
  /\ (truthy (raw_text r) = true \/ raw_text r = VStr [])
  /\ isArray (tags r) = true
  /\ isArray (dates r) = true
  /\ isArray (contacts r) = true
  /\ (exists q, confidence r = VNum q /\ (0 <= q <= 1)%Q)
  /\ (forall c,
        category r = VStr c -> isTodo c = true ->
        exists text,
          content r = VStr text
          /\ Forall (fun l => blankOrMarked l = true) (split LF text)).
Proof.
  intros H.
  destruct (processReply_stages _ H) as (v & r0 & S & F).
  destruct (sanitize_shape _ S) as (t & c & k & tg & d & ct & cf & rt & ->).
  destruct (format_cases _ F) as (cat & C & Hr).
  cbn [category content] in C, Hr.
  assert (Hcat : cat <> []).
  { apply truthy_string. rewrite <- C. now apply orElse_truthy. }
  assert (Hraw : truthy (orElse rt (orElse c (VStr []))) = true
                 \/ orElse rt (orElse c (VStr [])) = VStr []).
  { unfold orElse at 1 3. destruct (truthy rt) eqn:R; [now left|].
    apply orElse_empty. }
  destruct Hr as [[T ->]|(T & text & E & ->)];
    cbn [setContent title content category tags dates contacts confidence
         raw_text].
  - split; [now exists cat|]. split; [now apply orElse_truthy|].
    split; [apply orElse_empty|]. split; [exact Hraw|].
    do 3 (split; [apply arrayOrEmpty_array|]).
    split; [apply clampConfidence_range|].
    intros c' C' T'. rewrite C in C'. injection C' as <-. congruence.
  - split; [now exists cat|]. split; [now apply orElse_truthy|].
    split; [apply string_truthy_or_empty|]. split; [exact Hraw|].
    do 3 (split; [apply arrayOrEmpty_array|]).
    split; [apply clampConfidence_range|].
    intros _ _ _. exists (formatContent text). split; [reflexivity|].
    rewrite formatted_lines. apply Forall_map, Forall_forall.
    intros l _. apply markLine_kept.
Qed.

Lemma returned_record_invariants_witness :
  exists text,
    content {| title := VStr (lit "Untitled Note");
               content := VStr (BALLOT_BOX :: SPACE :: lit "call Ann");
               category := VStr (lit "todo");
               tags := VArr []; dates := VArr []; contacts := VArr [];
               confidence := VNum 0.8;
               raw_text := VStr (lit " call Ann") |} = VStr text
    /\ Forall (fun l => blankOrMarked l = true) (split LF text).
Proof.
  destruct (@returned_record_invariants
              (Some (dq "{'category':'todo','content':' call Ann'}")) _
              eq_refl)
    as (_ & _ & _ & _ & _ & _ & _ & _ & H).
  apply (H (lit "todo")); reflexivity.
Defined.

(** X13: the record the pipeline returns is settled: read back as a reply
    object (its eight fields under the names of the object literal) it is
    sanitized to itself, and formatting it once more returns it
    unchanged. *)
Theorem returned_record_is_settled (responseText : option jsstring)
  (r : NoteData) :
  processReply responseText = inr r ->
  sanitize (asObject r) = inr r /\ format r = inr r.
Proof.
  intros H.
  destruct (processReply_stages _ H) as (v & r0 & S & F).
  destruct (sanitize_shape _ S) as (t & c & k & tg & d & ct & cf & rt & ->).
  destruct (format_cases _ F) as (cat & C & Hr).
  cbn [category content] in C, Hr.
  rewrite sanitize_asObject.
  destruct Hr as [[T ->]|(T & text & E & ->)];
    cbn [setContent title content category tags dates contacts confidence
         raw_text].
  - split.
    + now rewrite !orElse_idem, !arrayOrEmpty_idem, clampConfidence_idem.
    + exact F.
  - split.
    + rewrite !orElse_idem, !arrayOrEmpty_idem, clampConfidence_idem.
      rewrite raw_text_stable.
      * f_equal. f_equal.
        destruct (string_truthy_or_empty (formatContent text)) as [P|P].
        -- unfold orElse. now rewrite P.
        -- rewrite P. reflexivity.
      * rewrite E. intros P. destruct text; [reflexivity|discriminate P].
    + unfold format.
      cbn [setContent category content stringReceiver bindR].
      rewrite C. cbn [stringReceiver bindR]. rewrite T.
      now rewrite formatContent_idempotent.
Qed.

Lemma returned_record_is_settled_witness :
  format {| title := VStr (lit "Untitled Note");
            content := VStr (BALLOT_BOX :: SPACE :: lit "call Ann");
            category := VStr (lit "todo");
            tags := VArr []; dates := VArr []; contacts := VArr [];
            confidence := VNum 0.8;
            raw_text := VStr (lit " call Ann") |}
  = inr {| title := VStr (lit "Untitled Note");
           content := VStr (BALLOT_BOX :: SPACE :: lit "call Ann");
           category := VStr (lit "todo");
           tags := VArr []; dates := VArr []; contacts := VArr [];
           confidence := VNum 0.8;
           raw_text := VStr (lit " call Ann") |}.
Proof.
  apply (@returned_record_is_settled
           (Some (dq "{'category':'todo','content':' call Ann'}")) _
           eq_refl).
Defined.

(** X14: when formatting fails.  On the record sanitized from a reply
    object, formatting throws exactly when the category of the reply is
    truthy and not a string, or is a string that spells todo or task while
    the content of the reply is truthy and not a string; what it throws is
    then the TypeError of a missing method.  In every other case it
    returns. *)
Theorem formatting_fails_exactly (props : list (jsstring * value)) :
  let cat := field props "category" in
  let con := field props "content" in
  match bindR (sanitize (VObj props)) format with
  | inl e =>
      e = Fault NotAFunction
      /\ ((truthy cat = true /\ isString cat = false)
          \/ (exists c, cat = VStr c /\ isTodo c = true
                        /\ truthy con = true /\ isString con = false))
  | inr r =>
      (truthy cat = false \/ isString cat = true)
      /\ (forall c, cat = VStr c -> isTodo c = true ->
                    truthy con = false \/ isString con = true)
  end.
Proof.
  cbv zeta. rewrite sanitize_object. cbn [bindR].
  match goal with |- context [format ?r] => set (r0 := r) end.
  assert (C : category r0
              = orElse (field props "category") (VStr (lit "note")))
    by reflexivity.
  assert (K : content r0 = orElse (field props "content") (VStr []))
    by reflexivity.
  clearbody r0. unfold format. rewrite C, K. clear C K.
  assert (N : isTodo (lit "note") = false) by reflexivity.
  assert (E : isTodo [] = false) by reflexivity.
  unfold orElse.
  destruct (field props "category") as [| |[|]|q|[|x c]|l|l];
    cbn [truthy stringReceiver bindR isString].
  - rewrite N. split; [now left|]. intros c' C'. discriminate C'.
  - rewrite N. split; [now left|]. intros c' C'. discriminate C'.
  - split; [reflexivity|]. left. now split.
  - rewrite N. split; [now left|]. intros c' C'. discriminate C'.
  - destruct (negb (Qeq_bool q 0)); cbn [stringReceiver bindR].
    + split; [reflexivity|]. left. now split.
    + rewrite N. split; [now left|]. intros c' C'. discriminate C'.
  - rewrite N. split; [now left|].
    intros c' C' T'. injection C' as <-. congruence.
  - destruct (isTodo (x :: c)) eqn:T.
    + destruct (field props "content") as [| |[|]|q|[|y t]|l|l];
        cbn [truthy stringReceiver bindR isString].
      * split; [now right|]. intros _ _ _. now left.
      * split; [now right|]. intros _ _ _. now left.
      * split; [reflexivity|]. right.
        exists (x :: c). now repeat split.
      * split; [now right|]. intros _ _ _. now left.
      * destruct (negb (Qeq_bool q 0)) eqn:Q; cbn [stringReceiver bindR].
        -- split; [reflexivity|]. right.
           exists (x :: c). now repeat split.
        -- split; [now right|]. intros _ _ _. now left.
      * split; [now right|]. intros _ _ _. now left.
      * split; [now right|]. intros _ _ _. now right.
      * split; [reflexivity|]. right.
        exists (x :: c). now repeat split.
      * split; [reflexivity|]. right.
        exists (x :: c). now repeat split.
    + split; [now right|].
      intros c' C'. injection C' as <-. congruence.
  - split; [reflexivity|]. left. now split.
  - split; [reflexivity|]. left. now split.
Qed.

Lemma formatting_fails_exactly_witness :
  bindR (sanitize (VObj [(lit "category", VStr (lit "Task"));
                         (lit "content", VArr [VStr (lit "milk")])]))
        format
  = inl (Fault NotAFunction).
Proof.
  generalize (formatting_fails_exactly
                [(lit "category", VStr (lit "Task"));
                 (lit "content", VArr [VStr (lit "milk")])]).
  cbv zeta.
  destruct (bindR (sanitize (VObj [(lit "category", VStr (lit "Task"));
                                   (lit "content", VArr [VStr (lit "milk")])]))
              format) as [e|r].
  - intros [-> _]. reflexivity.
  - intros [_ H]. exfalso.
    destruct (H (lit "Task") eq_refl eq_refl); discriminate.
Defined.

(* ===================================================================== *)
(** ** The processing options *)
(* ===================================================================== *)






(* ===================================================================== *)
(** ** A bucket that rejects the put *)
(* ===================================================================== *)

Lemma processNote_of_tryBlock (w : World) (req : Request) :
  processNote w req
  = (fst (tryBlock w req),
     match snd (tryBlock w req) with
     | inr response => response
     | inl error => catchBlock w error
     end).
Proof. unfold processNote. now destruct (tryBlock w req) as [log [e|r]]. Qed.

(** X16: when the bucket rejects the put with an [Error] of message
    [msg], a request that got as far as the put has done nothing else: the
    pipeline was not entered and the model was not called; and it is
    answered like a failure of the model, 429 "API quota exceeded. Please
    try again later." if [msg] holds the word quota and otherwise 500
    "Failed to process image" with [msg] as details. *)
Theorem storage_failure_answers (w : World) (req : Request) (msg : jsstring) :
  r2Put w = Some (Error (Text msg)) ->
  fst (processNote w req) <> [] ->
  (exists data buf,
      atob (argString (payloadOf data)) = inr buf
      /\ fst (processNote w req)
         = [R2Put (lit "temp/" ++ randomUUID w) buf (mimeTypeOf data)])
  /\ snd (processNote w req)
     = if includes msg (lit "quota")
       then {| status := 429;
               body := ErrorBody
                         (lit "API quota exceeded. Please try again later.")
                         None (Some (elapsed w)) |}
       else {| status := 500;
               body := ErrorBody (lit "Failed to process image") (Some msg)
                         (Some (elapsed w)) |}.
Proof.
  intros P Hlog.
  destruct (processNote_cases w req) as [[E _]|(i & o & E)];
    [contradiction|].
  rewrite processNote_of_tryBlock in *. rewrite E in *.
  cbn [fst snd] in *.
  destruct (storeAndProcess_trace w i o)
    as [[L _]|(data & buf & _ & A & [(e & Pe & R)|[(Pn & _)|(Pn & _)]])];
    cbv zeta in *; try congruence.
  rewrite R. cbn [fst snd]. split; [now exists data, buf|].
  assert (e = Error (Text msg)) as -> by congruence.
  reflexivity.
Qed.

Lemma storage_failure_answers_witness :
  snd (processNote fullBucketWorld
         (jsonRequest (imageBody "data:image/png;base64,aGk=")))
  = {| status := 429;
       body := ErrorBody (lit "API quota exceeded. Please try again later.")
                 None (Some 250%Z) |}.
Proof.
  apply (@storage_failure_answers fullBucketWorld
           (jsonRequest (imageBody "data:image/png;base64,aGk="))
           (lit "storage quota exceeded") eq_refl).
  discriminate.
Defined.

(* ===================================================================== *)
(** ** Requests that fail before anything is stored *)
(* ===================================================================== *)

Lemma atob_undefined : atob (lit "undefined") = inl (Fault InvalidCharacter).
Proof. reflexivity. Qed.

Lemma payloadOf_no_comma (s : jsstring) : ~ In COMMA s -> payloadOf s = None.
Proof. intros H. unfold payloadOf. now rewrite split_single by exact H. Qed.

Section JsonBody.
Variables (w : World) (req : Request) (k : jsstring).
Hypothesis key_set : nonEmpty (GOOGLE_GEMINI_API_KEY w) = Some k.
Hypothesis not_multipart : isMultipart req = false.

Lemma json_image_handed_on (body_ image : value) :
  json req = inr body_ ->
  getProp body_ (lit "image") = inr image ->
  truthy image = true ->
  exists options, tryBlock w req = storeAndProcess w image options.
Proof.
  intros J I T.
  rewrite (tryBlock_with_key w req key_set), not_multipart.
  unfold fromJson. rewrite J. cbn [bindR]. rewrite I. cbn [bindR].
  rewrite T. cbn [negb].
  destruct (@getProp_defined body_ (lit "image") (lit "options") image I)
    as [o ->].
  cbn [bindR]. now eexists.
Qed.

(** X17: what the JSON branch answers without storing or calling
    anything.  A body that cannot be read, or is [null], ends in the catch
    block; a body whose [image] is falsy (absent, [null], empty, zero,
    [false]) is answered 400 "No image data provided"; an [image] that is
    truthy and not a string ends in the catch block with the TypeError of
    the missing [split]; and so does an image string without a comma, or
    one whose text after the first comma is not base64, with the error of
    [atob]. *)
Theorem json_body_rejections :
  (forall e, json req = inl e -> processNote w req = ([], catchBlock w e))
  /\ (json req = inr VNull ->
      processNote w req = ([], catchBlock w (Fault PropertyOfNullish)))
  /\ (forall body_ image,
        json req = inr body_ ->
        getProp body_ (lit "image") = inr image ->
        (truthy image = false ->
         processNote w req = ([], badRequest "No image data provided"))
        /\ (truthy image = true -> isString image = false ->
            processNote w req = ([], catchBlock w (Fault NotAFunction)))
        /\ (forall s, image = VStr s -> s <> [] -> ~ In COMMA s ->
              processNote w req = ([], catchBlock w (Fault InvalidCharacter)))
        /\ (forall s e, image = VStr s -> s <> [] ->
              atob (argString (payloadOf s)) = inl e ->
              processNote w req = ([], catchBlock w e))).
Proof.
  assert (Early : forall body_ image s e,
             json req = inr body_ ->
             getProp body_ (lit "image") = inr image ->
             image = VStr s -> s <> [] ->
             atob (argString (payloadOf s)) = inl e ->
             processNote w req = ([], catchBlock w e)).
  { intros body_ image s e J I -> Hs A.
    destruct (@json_image_handed_on body_ (VStr s) J I) as [o T].
    { now destruct s. }
    unfold processNote. rewrite T.
    unfold storeAndProcess, bindE, liftE. cbn [stringReceiver].
    now rewrite A. }
  split; [|split].
  - intros e J. unfold processNote.
    rewrite (tryBlock_with_key w req key_set), not_multipart.
    unfold fromJson. now rewrite J.
  - intros J. unfold processNote.
    rewrite (tryBlock_with_key w req key_set), not_multipart.
    unfold fromJson. now rewrite J.
  - intros body_ image J I. split; [|split; [|split]].
    + intros T. unfold processNote.
      rewrite (tryBlock_with_key w req key_set), not_multipart.
      unfold fromJson. rewrite J. cbn [bindR]. rewrite I. cbn [bindR].
      now rewrite T.
    + intros T S.
      destruct (json_image_handed_on J I T) as [o E].
      unfold processNote. rewrite E.
      unfold storeAndProcess, bindE, liftE.
      destruct image as [| |b|q|s|l|props]; try discriminate; reflexivity.
    + intros s -> Hs Hc. apply (Early body_ (VStr s) s); auto.
      now rewrite (payloadOf_no_comma s Hc).
    + intros s e -> Hs A. now apply (Early body_ (VStr s) s).
Qed.

End JsonBody.

Lemma json_body_rejections_witness :
  processNote exampleWorld (jsonRequest (imageBody "aGk="))
  = ([], catchBlock exampleWorld (Fault InvalidCharacter))
  /\ processNote exampleWorld
       (jsonRequest (VObj [(lit "image", VArr [VStr (lit "aGk=")])]))
     = ([], catchBlock exampleWorld (Fault NotAFunction)).
Proof.
  destruct (@json_body_rejections exampleWorld
              (jsonRequest (imageBody "aGk=")) (lit "key")
              eq_refl eq_refl) as (_ & _ & H1).
  destruct (@json_body_rejections exampleWorld
              (jsonRequest (VObj [(lit "image", VArr [VStr (lit "aGk=")])]))
              (lit "key") eq_refl eq_refl) as (_ & _ & H2).
  split.
  - destruct (H1 _ (VStr (lit "aGk=")) eq_refl eq_refl) as (_ & _ & H & _).
    apply (H (lit "aGk=")); [reflexivity|discriminate|].
    cbv. intuition discriminate.
  - destruct (H2 _ (VArr [VStr (lit "aGk=")]) eq_refl eq_refl)
      as (_ & H & _).
    apply H; reflexivity.
Defined.

(* ===================================================================== *)
(** ** The options field of an upload *)
(* ===================================================================== *)

(** An upload that passes the checks is handed to the store with the
    options read from the form. *)
Lemma multipart_handed_on (req : Request) (form : Form) (file : File) :
  formData req = inr form ->
  formImage form = FileEntry file ->
  (size file <= 10485760)%N ->
  startsWith (type file) (lit "image/") = true ->
  match formOptions form with
  | TextEntry (c :: s) =>
      match JSON_parse (c :: s) with
      | inr o => inr (inr (VStr (dataUrl file), o))
      | inl _ => inr (inl (badRequest "Invalid options JSON"))
      end
  | _ => inr (inr (VStr (dataUrl file), VObj []))
  end = fromMultipart req.
Proof.
  intros F I Hsize Htype.
  unfold fromMultipart, bindR.
  rewrite F, I. change MAX_SIZE with 10485760%N.
  destruct (N.ltb_spec 10485760 (size file)); [lia|].
  rewrite Htype. cbn [negb]. unfold btoa.
  rewrite (proj2 (forallb_forall _ _)).
  2:{ intros x Hx. apply N.leb_le.
      exact (proj1 (Forall_forall _ _) (binaryString_bytes (bytes file)) x Hx). }
  reflexivity.
Qed.

(** X18: the options field of an upload that passed the checks (lines
    101-107).  Text that is not JSON is answered 400 "Invalid options
    JSON" before anything is stored.  Text that is JSON is taken whatever
    it denotes: the text [null] passes, the image is stored, and the
    request then fails in the pipeline, on the first option read, before
    the model is called. *)
Theorem multipart_options (w : World) (req : Request) (form : Form)
  (file : File) (k : jsstring) (c : N) (s : jsstring) :
  nonEmpty (GOOGLE_GEMINI_API_KEY w) = Some k ->
  isMultipart req = true ->
  formData req = inr form ->
  formImage form = FileEntry file ->
  (size file <= 10485760)%N ->
  startsWith (type file) (lit "image/") = true ->
  formOptions form = TextEntry (c :: s) ->
  (forall e, JSON_parse (c :: s) = inl e ->
     processNote w req = ([], badRequest "Invalid options JSON"))
  /\ (JSON_parse (c :: s) = inr VNull ->
      ~ In COMMA (type file) ->
      r2Put w = None ->
      processNote w req
      = ([R2Put (lit "temp/" ++ randomUUID w) (binaryString (bytes file))
            (mimeTypeOf (dataUrl file));
          PipelineCall (dataUrl file) VNull],
         catchBlock w (Fault PropertyOfNullish))).
Proof.
  intros K M F I Hsize Htype O.
  pose proof (multipart_handed_on req F I Hsize Htype) as N.
  rewrite O in N.
  unfold processNote. rewrite (tryBlock_with_key w req K), M, <- N.
  split.
  - intros e E. now rewrite E.
  - intros E Hcomma P. rewrite E.
    unfold storeAndProcess, bindE, liftE, emit, pureE, throwE.
    cbn [stringReceiver].
    rewrite (payloadOf_dataUrl file Hcomma). cbn [argString].
    rewrite (atob_encodeBytes (binaryString_bytes (bytes file))), P.
    reflexivity.
Qed.

Lemma multipart_options_witness :
  processNote exampleWorld
    (multipartRequest
       {| formImage := FileEntry {| size := 2; type := lit "image/png";
                                    bytes := [Byte.x68; Byte.x69] |};
          formOptions := TextEntry (lit "null") |})
  = ([R2Put (lit "temp/0000") (lit "hi") (Some (lit "image/png"));
      PipelineCall (lit "data:image/png;base64,aGk=") VNull],
     catchBlock exampleWorld (Fault PropertyOfNullish)).
Proof.
  refine (proj2 (@multipart_options exampleWorld
                   (multipartRequest
                      {| formImage :=
                           FileEntry {| size := 2; type := lit "image/png";
                                        bytes := [Byte.x68; Byte.x69] |};
                         formOptions := TextEntry (lit "null") |})
                   _ _ (lit "key") 110%N (lit "ull")
                   eq_refl eq_refl eq_refl eq_refl _ eq_refl eq_refl)
            eq_refl _ eq_refl).
  - cbv. discriminate.
  - cbv. intuition discriminate.
Defined.

(* ===================================================================== *)
(** ** Replies of the model that hold no JSON *)
(* ===================================================================== *)

(** X19: what the two entry points answer when the model was called and
    replied without JSON.  For an absent or empty reply the REST endpoint
    answers 500 "Failed to process image" with the details "Empty response
    from AI service"; for a reply without a brace-delimited span the
    details are "Failed to parse AI response: No JSON found in response",
    the inner error being caught and wrapped by the handler of the parse
    step; both report the elapsed time.  The MCP tool puts the same
    messages after "Error processing handwritten note: ". *)
Theorem replies_without_json (w : World) (responseText : option jsstring) :
  generateContent w = inr responseText ->
  let answers (m : message) :=
    (forall req p mime d,
        In (GenerateContent p mime d) (fst (processNote w req)) ->
        snd (processNote w req)
        = {| status := 500;
             body := ErrorBody (lit "Failed to process image")
                       (Some (render (engineMessage w) m))
                       (Some (elapsed w)) |})
    /\ (forall image hints dates_ contacts_ k,
          nonEmpty (GOOGLE_GEMINI_API_KEY w) = Some k ->
          startsWith image (lit "data:image/") = true ->
          snd (mcpTool w image hints dates_ contacts_)
          = toolError
              (Append (Text (lit "Error processing handwritten note: ")) m))
  in
  (responseText = None \/ responseText = Some [] ->
   answers (Text (lit "Empty response from AI service")))
  /\ (forall text,
        responseText = Some text -> text <> [] -> ~ braced text ->
        answers (Append (Text (lit "Failed to parse AI response: "))
                   (Text (lit "No JSON found in response")))).
Proof.
  intros G. cbv zeta.
  assert (A : forall m,
             processReply responseText = inl (Error m) ->
             includes (render (engineMessage w) m) (lit "quota") = false ->
             (forall req p mime d,
                 In (GenerateContent p mime d) (fst (processNote w req)) ->
                 snd (processNote w req)
                 = {| status := 500;
                      body := ErrorBody (lit "Failed to process image")
                                (Some (render (engineMessage w) m))
                                (Some (elapsed w)) |})
             /\ (forall image hints dates_ contacts_ k,
                   nonEmpty (GOOGLE_GEMINI_API_KEY w) = Some k ->
                   startsWith image (lit "data:image/") = true ->
                   snd (mcpTool w image hints dates_ contacts_)
                   = toolError
                       (Append
                          (Text (lit "Error processing handwritten note: "))
                          m))).
  { intros m R Q. split.
    - intros req p mime d H.
      rewrite (response_after_model_call w req p mime d H), G.
      cbn [bindR]. rewrite R. unfold catchBlock. now rewrite Q.
    - intros image hints dt ct k K P. unfold mcpTool. rewrite K, P.
      cbn [negb].
      match goal with
      | |- context [processHandwrittenNote w image ?o] =>
          destruct (pipeline_trace w image o) as [[e E]|[q E]]; rewrite E
      end.
      + exfalso. revert E.
        unfold processHandwrittenNote, bindE, liftE, emit.
        destruct hints as [[|h hs]|], dt, ct; cbn; rewrite G;
          cbn; destruct (processReply responseText); discriminate.
      + rewrite G. cbn [bindR]. now rewrite R. }
  split.
  - intros E. apply A; [|reflexivity].
    destruct E as [-> | ->]; reflexivity.
  - intros text -> Ht Hb. apply A; [|reflexivity].
    unfold processReply, sanitizeReply, parseResponse.
    destruct text as [|c r]; [contradiction|].
    destruct (matchJson (c :: r)) as [m|] eqn:M; [|reflexivity].
    exfalso. apply Hb. apply (broadest_braced (matchJson_some _ M)).
Qed.

Lemma replies_without_json_witness :
  snd (mcpTool
         {| GOOGLE_GEMINI_API_KEY := Some (lit "key");
            startTime := 1000; endTime := 1250;
            randomUUID := lit "0000"; r2Put := None;
            generateContent := inr (Some (lit "I cannot read this."));
            engineMessage := fun _ => lit "engine message" |}
         (lit "data:image/png;base64,aGk=") None true false)
  = toolError
      (Append (Text (lit "Error processing handwritten note: "))
         (Append (Text (lit "Failed to parse AI response: "))
            (Text (lit "No JSON found in response")))).
Proof.
  refine (proj2 (proj2 (@replies_without_json
                   {| GOOGLE_GEMINI_API_KEY := Some (lit "key");
                      startTime := 1000; endTime := 1250;
                      randomUUID := lit "0000"; r2Put := None;
                      generateContent := inr (Some (lit "I cannot read this."));
                      engineMessage := fun _ => lit "engine message" |}
                   (Some (lit "I cannot read this.")) eq_refl)
                   (lit "I cannot read this.") eq_refl _ _)
            (lit "data:image/png;base64,aGk=") None true false (lit "key")
            eq_refl eq_refl).
  - discriminate.
  - apply matchJson_none. reflexivity.
Defined.
